(** * NEMS fitting loop: cost functions and [fit_basic]

    A shallow embedding of [nems/analysis/cost_functions.py] and
    [nems/analysis/fit_basic.py].  Python objects that are mutated through
    shared references (the modelspec list and its module dictionaries) live
    in an object store; attributes set on the two [basic_cost] function
    objects are fields of the world; calls to collaborators, [log.info] and
    [progress_fun] are recorded in a trace. *)

From stdpp Require Import gmap strings list fin_maps sorting.
From Stdlib Require Import ZArith.

(** ** Python exceptions and the state-and-exception monad *)

Inductive exn :=
  | KeyError (key : string)
  | IndexError
  | TypeError
  | ValueError
  | External (msg : string).

Inductive result (A : Type) :=
  | Ok (a : A)
  | Raise (e : exn).
Arguments Ok {A} a.
Arguments Raise {A} e.

Definition ST (S A : Type) : Type := S -> result A * S.

Definition ret {S A} (a : A) : ST S A := fun s => (Ok a, s).

Definition raise {S A} (e : exn) : ST S A := fun s => (Raise e, s).

Definition bind {S A B} (c : ST S A) (k : A -> ST S B) : ST S B :=
  fun s =>
    match c s with
    | (Ok a, s') => k a s'
    | (Raise e, s') => (Raise e, s')
    end.

Definition get {S} : ST S S := fun s => (Ok s, s).

Definition modify {S} (f : S -> S) : ST S unit := fun s => (Ok tt, f s).

Notation "'let*' x ':=' c 'in' k" := (bind c (fun x => k))
  (at level 10, x name, c at level 100, k at level 200).
Notation "'let*' ' pat ':=' c 'in' k" :=
  (bind c (fun x => match x with pat => k end))
  (at level 10, pat pattern, c at level 100, k at level 200).
Notation "c >> k" := (bind c (fun _ => k))
  (at level 100, k at level 200, right associativity).

(** ** Carriers the source leaves to its collaborators *)

(** [num] is a parameter value (a float, only copied and compared here),
    [Data] a recording, [Stack] the cached partial evaluation, [Score] the
    value a metric returns, [Ext] whatever state the collaborators keep
    (random generator, the segmentor's current subset).  [data_stack d] is
    the dictionary lookup [d['stack']]. *)
Class Domain := {
  num : Type;
  num_eq_dec :: EqDecision num;
  Data : Type;
  Stack : Type;
  Score : Type;
  Ext : Type;
  data_stack : Data -> option Stack;
}.

(** ** Data model *)

Definition loc := positive.

Inductive metaval :=
  | MStr (s : string)
  | MTime (t : Z)
  | MInt (n : Z).

Section DataModel.
Context `{Domain}.

(** A prior descriptor of one parameter; only its mean is used here. *)
Record dist := Dist { dist_kind : string; dist_mean : list num }.

(** A module dictionary.  ['phi' not in m.keys()] is [phi m = None]. *)
Record module := Mod {
  fn : string;
  phi : option (gmap string (list num));
  prior : option (gmap string dist);
  meta : gmap string metaval;
  fit_mode : bool;
}.

(** Objects of the store: a modelspec is a Python list of references to
    module dictionaries. *)
Inductive obj :=
  | OList (items : list loc)
  | ODict (m : module).

(** What collaborators can read and write. *)
Record env := Env { heap : gmap loc obj; ext : Ext }.

(** The attribute dictionary of a [basic_cost] function object;
    [hasattr(basic_cost, 'counter')] is [counter a <> None]. *)
Record attrs := Attrs {
  counter : option Z;
  error : option Score;
  stack : option Stack;
}.

(** The two function objects named [basic_cost]. *)
Inductive fobj :=
  | cost_functions_basic_cost
  | fit_basic_basic_cost.

Inductive callee :=
  | Unpacker | Packer | Mapper | Segmentor | Evaluator | Metric
  | LastMatchingPhi | CopyStackData | Fitter | SetMeanPhi
  | FitModeOn | FitModeOff | SetModelspecMetadata | DeepCopy.

Inductive event :=
  | Call (c : callee)
  | LogDebugError (e : Score)
  | LogDebugSigma (sigma : list num)
  | LogDebugPhi (m : module)
  | LogInfoEval (n : Z) (e : Score)
  | ProgressFun.

Record world := World {
  wenv : env;
  cf_attrs : attrs;
  fb_attrs : attrs;
  trace : list event;
  clock : nat -> Z;
  ticks : nat;
}.

Definition set_wenv (e : env) (w : world) : world :=
  World e (cf_attrs w) (fb_attrs w) (trace w) (clock w) (ticks w).

Definition add_event (ev : event) (w : world) : world :=
  World (wenv w) (cf_attrs w) (fb_attrs w) (trace w ++ [ev]) (clock w)
        (ticks w).

Definition get_attrs (f : fobj) (w : world) : attrs :=
  match f with
  | cost_functions_basic_cost => cf_attrs w
  | fit_basic_basic_cost => fb_attrs w
  end.

Definition set_attrs (f : fobj) (a : attrs) (w : world) : world :=
  match f with
  | cost_functions_basic_cost =>
      World (wenv w) a (fb_attrs w) (trace w) (clock w) (ticks w)
  | fit_basic_basic_cost =>
      World (wenv w) (cf_attrs w) a (trace w) (clock w) (ticks w)
  end.

Definition set_counter (n : Z) (a : attrs) : attrs :=
  Attrs (Some n) (error a) (stack a).

Definition set_error (e : Score) (a : attrs) : attrs :=
  Attrs (counter a) (Some e) (stack a).

Definition set_stack (s : Stack) (a : attrs) : attrs :=
  Attrs (counter a) (error a) (Some s).

(** Collaborators run on [env]; the code of the two files runs on
    [world]. *)
Definition CM (A : Type) : Type := ST env A.
Definition M (A : Type) : Type := ST world A.

(** A call to a collaborator: recorded in the trace, then run on the
    environment. *)
Definition call {A} (c : callee) (f : CM A) : M A :=
  fun w =>
    let w1 := add_event (Call c) w in
    let '(r, e) := f (wenv w1) in
    (r, set_wenv e w1).

Definition emit (ev : event) : M unit := modify (add_event ev).

Definition getattr (f : fobj) : M attrs :=
  fun w => (Ok (get_attrs f w), w).

Definition setattr (f : fobj) (upd : attrs -> attrs) : M unit :=
  modify (fun w => set_attrs f (upd (get_attrs f w)) w).

(** [time.time()]: the next reading of the clock. *)
Definition time_time : M Z :=
  fun w =>
    (Ok (clock w (ticks w)),
     World (wenv w) (cf_attrs w) (fb_attrs w) (trace w) (clock w)
           (S (ticks w))).

End DataModel.

(** ** The object store *)

Section Store.
Context `{Domain}.

(** Operations of the two files on lists and dictionaries are not calls to
    collaborators: they run on the environment without a trace entry. *)
Definition lift {A} (f : CM A) : M A :=
  fun w => let '(r, e) := f (wenv w) in (r, set_wenv e w).

Definition alloc (o : obj) : CM loc :=
  fun e =>
    let l := fresh (dom (heap e)) in
    (Ok l, Env (<[l := o]> (heap e)) (ext e)).

Definition store (l : loc) (o : obj) : CM unit :=
  modify (fun e => Env (<[l := o]> (heap e)) (ext e)).

Definition deref_list (l : loc) : CM (list loc) :=
  fun e =>
    match heap e !! l with
    | Some (OList items) => (Ok items, e)
    | _ => (Raise TypeError, e)
    end.

Definition deref_dict (l : loc) : CM module :=
  fun e =>
    match heap e !! l with
    | Some (ODict m) => (Ok m, e)
    | _ => (Raise TypeError, e)
    end.

(** [lst[i]] *)
Definition list_getitem (lst : loc) (i : nat) : CM loc :=
  let* items := deref_list lst in
  match items !! i with
  | Some x => ret x
  | None => raise IndexError
  end.

(** [lst[i] = x] *)
Definition list_setitem (lst : loc) (i : nat) (x : loc) : CM unit :=
  let* items := deref_list lst in
  if decide (i < length items)%nat then store lst (OList (<[i := x]> items))
  else raise IndexError.

Fixpoint mapM {S A B} (f : A -> ST S B) (l : list A) : ST S (list B) :=
  match l with
  | [] => ret []
  | x :: l' =>
      let* y := f x in
      let* ys := mapM f l' in
      ret (y :: ys)
  end.

Fixpoint iterM {S A} (f : A -> ST S unit) (l : list A) : ST S unit :=
  match l with
  | [] => ret tt
  | x :: l' => f x >> iterM f l'
  end.

(** The modules of a modelspec, read through its references. *)
Definition read_spec (modelspec : loc) : CM (list module) :=
  let* items := deref_list modelspec in
  mapM deref_dict items.

(** A fresh list of fresh dictionaries holding the given modules. *)
Definition alloc_spec (ms : list module) : CM loc :=
  let* items := mapM (fun m => alloc (ODict m)) ms in
  alloc (OList items).

(** [copy.deepcopy] of a list of dictionaries.  The memo maps an object
    already copied to its copy, so a dictionary referenced twice is copied
    once. *)
Fixpoint deepcopy_items (items : list loc) (memo : gmap loc loc)
    : CM (list loc) :=
  match items with
  | [] => ret []
  | l :: rest =>
      match memo !! l with
      | Some l' =>
          let* r := deepcopy_items rest memo in
          ret (l' :: r)
      | None =>
          let* m := deref_dict l in
          let* l' := alloc (ODict m) in
          let* r := deepcopy_items rest (<[l := l']> memo) in
          ret (l' :: r)
      end
  end.

Definition deepcopy (lst : loc) : CM loc :=
  let* items := deref_list lst in
  let* y := alloc (OList []) in
  let* items' := deepcopy_items items ∅ in
  store y (OList items') >>
  ret y.

(** [l] refers to a dictionary holding [m]. *)
Definition dict_at (h : gmap loc obj) (l : loc) (m : module) : Prop :=
  h !! l = Some (ODict m).

Definition is_dict (h : gmap loc obj) (l : loc) : Prop :=
  exists m, dict_at h l m.

(** [modelspec] is a list whose references [items] lead to dictionaries
    holding [ms]. *)
Definition spec_in (h : gmap loc obj) (modelspec : loc) (items : list loc)
    (ms : list module) : Prop :=
  h !! modelspec = Some (OList items) /\ Forall2 (dict_at h) items ms.

(** Everything but the object at [L] is kept from [h] to [h']. *)
Definition kept_but (L : loc) (h h' : gmap loc obj) : Prop :=
  delete L h ⊆ h'.

End Store.

(** ** nems/analysis/cost_functions.py *)

Module cost_functions.
Section CostFunctions.
Context `{Domain}.

(** [nems.fitters.util.last_matching_phi] and
    [nems.fitters.util.copy_stack_data], imported by the module. *)
Variable last_matching_phi : loc -> loc -> CM Z.
Variable copy_stack_data : Data -> Stack -> Z -> loc -> CM Data.

Definition basic_cost (sigma : list num) (unpacker : list num -> CM loc)
    (modelspec : loc) (data : Data) (segmentor : Data -> CM Data)
    (evaluator : Data -> loc -> option Z -> bool -> CM Data)
    (metric : Data -> CM Score) (keep_stack : bool) : M Score :=
  let* updated_spec := call Unpacker (unpacker sigma) in
  let* data_subset := call Segmentor (segmentor data) in
  let* a := getattr cost_functions_basic_cost in
  let* '(data_subset, start_idx) :=
    match keep_stack, stack a with
    | true, Some stk =>
        let* idx := call LastMatchingPhi
                      (last_matching_phi modelspec updated_spec) in
        let* data_subset := call CopyStackData
                      (copy_stack_data data_subset stk idx modelspec) in
        ret (data_subset, Some (idx + 1)%Z)
    | _, _ => ret (data_subset, None)
    end in
  let* updated_data_subset :=
    call Evaluator (evaluator data_subset updated_spec start_idx keep_stack) in
  (if keep_stack then
     match data_stack updated_data_subset with
     | Some stk => setattr cost_functions_basic_cost (set_stack stk)
     | None => raise (KeyError "stack")
     end
   else ret tt) >>
  let* err := call Metric (metric updated_data_subset) in
  emit (LogDebugError err) >>
  emit (LogDebugSigma sigma) >>
  let* a := getattr cost_functions_basic_cost in
  match counter a with
  | Some n =>
      setattr cost_functions_basic_cost (set_counter (n + 1)%Z) >>
      if ((n + 1) mod 500 =? 0)%Z then
        emit (LogInfoEval (n + 1)%Z err) >> emit ProgressFun
      else ret tt
  | None => ret tt
  end >>
  let* a := getattr cost_functions_basic_cost in
  match error a with
  | Some _ => setattr cost_functions_basic_cost (set_error err)
  | None => ret tt
  end >>
  ret err.

End CostFunctions.
End cost_functions.

(** ** Parts of the repository the two files call *)

Section Modelled.
Context `{Domain}.

(** *** nems.fitters.mappers *)

Definition key_le (a b : string * list num) : Prop :=
  String.leb a.1 b.1 = true.

(** Parameter names in order. *)
Definition name_le (a b : string) : Prop := String.leb a b = true.

#[local] Instance key_le_dec a b : Decision (key_le a b).
Proof. unfold key_le. apply _. Defined.

(** The entries of a parameter group in parameter-name order. *)
Definition sorted_items (p : gmap string (list num))
    : list (string * list num) :=
  merge_sort key_le (map_to_list p).

(** Modelled from the spec: [pack] of nems.fitters.mappers.simple_vector,
    which flattens all phi values from all modules into one ordered numeric
    sequence, module order then parameter-name order. *)
Definition pack_phi (p : gmap string (list num)) : list num :=
  concat (sorted_items p).*2.

(** A module without phi has no value to flatten: it adds nothing to the
    vector, and unpacking leaves it as it is. *)
Definition pack_module (m : module) : list num :=
  match phi m with
  | Some p => pack_phi p
  | None => []
  end.

Definition pack_spec (ms : list module) : list num :=
  concat (pack_module <$> ms).

(** Takes from the vector as many values as each template entry holds. *)
Fixpoint unpack_items (items : list (string * list num)) (vec : list num)
    : option (list (string * list num) * list num) :=
  match items with
  | [] => Some ([], vec)
  | (k, a) :: rest =>
      if decide (length a <= length vec)%nat then
        match unpack_items rest (drop (length a) vec) with
        | Some (r, vec') => Some ((k, take (length a) vec) :: r, vec')
        | None => None
        end
      else None
  end.

Definition unpack_phi (p : gmap string (list num)) (vec : list num)
    : option (gmap string (list num) * list num) :=
  match unpack_items (sorted_items p) vec with
  | Some (items, vec') => Some (list_to_map items, vec')
  | None => None
  end.

Definition with_phi (m : module) (p : option (gmap string (list num)))
    : module :=
  Mod (fn m) p (prior m) (meta m) (fit_mode m).

Fixpoint unpack_modules (template : list module) (vec : list num)
    : option (list module * list num) :=
  match template with
  | [] => Some ([], vec)
  | m :: rest =>
      match phi m with
      | None =>
          match unpack_modules rest vec with
          | Some (r, vec') => Some (m :: r, vec')
          | None => None
          end
      | Some p =>
          match unpack_phi p vec with
          | Some (p', vec1) =>
              match unpack_modules rest vec1 with
              | Some (r, vec') => Some (with_phi m (Some p') :: r, vec')
              | None => None
              end
          | None => None
          end
      end
  end.

(** Modelled from the spec: [unpack] of nems.fitters.mappers.simple_vector,
    the inverse of [pack]: a copy of the template specification with leaf
    parameter values taken from the vector and every other field preserved;
    it fails if the vector length does not match the sum of the expected
    parameter sizes. *)
Definition unpack_spec (template : list module) (vec : list num)
    : result (list module) :=
  match unpack_modules template vec with
  | Some (ms, []) => Ok ms
  | _ => Raise ValueError
  end.

Definition packer (modelspec : loc) : CM (list num) :=
  let* ms := read_spec modelspec in
  ret (pack_spec ms).

Definition unpacker (initial_modelspec : loc) (vec : list num) : CM loc :=
  let* ms := read_spec initial_modelspec in
  match unpack_spec ms vec with
  | Ok ms' => alloc_spec ms'
  | Raise e => raise e
  end.

(** Modelled from the spec: nems.fitters.mappers.simple_vector, which
    builds the pack and unpack closures from the specification's current
    shape. *)
Definition simple_vector (initial_modelspec : loc)
    : CM ((loc -> CM (list num)) * (list num -> CM loc)) :=
  ret (packer, unpacker initial_modelspec).

(** *** nems.fitters.util *)

(** The number of leading positions at which the two specifications hold
    identical parameter values. *)
Fixpoint matching_prefix (ms us : list module) : nat :=
  match ms, us with
  | m :: ms', u :: us' =>
      if decide (phi m = phi u) then S (matching_prefix ms' us') else 0%nat
  | _, _ => 0%nat
  end.

(** Modelled from the spec: nems.fitters.util.last_matching_phi, which
    compares the new specification's modules position-by-position against
    the other specification; the prefix length is the count of leading
    modules whose parameter values are identical, and the function returns
    the index of the last of them (-1 when the first modules differ). *)
Definition last_matching_phi (modelspec updated_spec : loc) : CM Z :=
  let* ms := read_spec modelspec in
  let* us := read_spec updated_spec in
  ret (Z.of_nat (matching_prefix ms us) - 1)%Z.

(** *** nems.priors *)

Definition mean_phi (m : module) : result module :=
  match prior m with
  | Some pr => Ok (with_phi m (Some (dist_mean <$> pr)))
  | None => Raise (KeyError "prior")
  end.

Definition mapR {A B} (f : A -> result B) (l : list A) : result (list B) :=
  foldr (fun x acc =>
           match f x, acc with
           | Ok y, Ok ys => Ok (y :: ys)
           | Raise e, _ => Raise e
           | _, Raise e => Raise e
           end) (Ok []) l.

(** Modelled from the spec: nems.priors.set_mean_phi, which gives every
    module of the specification it receives the mean of its prior as phi
    and fails on a module without a defined prior; the result is a new
    specification. *)
Definition set_mean_phi (modelspec : loc) : CM loc :=
  let* ms := read_spec modelspec in
  match mapR mean_phi ms with
  | Ok ms' => alloc_spec ms'
  | Raise e => raise e
  end.

(** *** nems.modelspec *)

Definition with_fit_mode (b : bool) (m : module) : module :=
  Mod (fn m) (phi m) (prior m) (meta m) b.

Definition set_fit_mode (b : bool) (modelspec : loc) : CM unit :=
  let* items := deref_list modelspec in
  iterM (fun l =>
           let* m := deref_dict l in
           store l (ODict (with_fit_mode b m))) items.

(** What [set_fit_mode] does to one object, and to the store. *)
Definition obj_fit_mode (b : bool) (o : obj) : obj :=
  match o with
  | ODict m => ODict (with_fit_mode b m)
  | OList _ => o
  end.

Definition heap_fit_mode (b : bool) (items : list loc) (h : gmap loc obj)
    : gmap loc obj :=
  foldl (fun h l => alter (obj_fit_mode b) l h) h items.

(** Modelled from the spec: nems.modelspec.fit_mode_on, which marks the
    specification as in fitting mode.  Its result is not used by the
    caller, so the mark is written into the module dictionaries. *)
Definition fit_mode_on (modelspec : loc) : CM unit :=
  set_fit_mode true modelspec.

(** Modelled from the spec: nems.modelspec.fit_mode_off, which unmarks
    fitting mode. *)
Definition fit_mode_off (modelspec : loc) : CM unit :=
  set_fit_mode false modelspec.

Definition with_meta (k : string) (v : metaval) (m : module) : module :=
  Mod (fn m) (phi m) (prior m) (<[k := v]> (meta m)) (fit_mode m).

(** Modelled from the spec: nems.modelspec.set_modelspec_metadata, which
    attaches a metadata entry to the specification.  Metadata is held by
    modules; the entries of the whole specification are kept by its first
    module. *)
Definition set_modelspec_metadata (modelspec : loc) (k : string)
    (v : metaval) : CM unit :=
  let* l := list_getitem modelspec 0 in
  let* m := deref_dict l in
  store l (ODict (with_meta k v m)).

Definition obj_meta (k : string) (v : metaval) (o : obj) : obj :=
  match o with
  | ODict m => ODict (with_meta k v m)
  | OList _ => o
  end.

(** The metadata attached to a specification. *)
Definition get_modelspec_metadata (ms : list module) (k : string)
    : option metaval :=
  match ms with
  | m :: _ => meta m !! k
  | [] => None
  end.

(** *** The external minimizer *)

(** A run of [fitter(sigma, cost_fn)]: the minimizer asks for the cost of
    points of its choice, each answer deciding what it does next, and ends
    by returning a vector or raising.  An exception of the cost function
    passes through it. *)
Inductive fitter_run :=
  | FReturn (improved_sigma : list num)
  | FRaise (e : exn)
  | FCost (sigma : list num) (k : Score -> fitter_run).

Fixpoint run_fitter (t : fitter_run) (cost_fn : list num -> M Score)
    : M (list num) :=
  match t with
  | FReturn improved_sigma => ret improved_sigma
  | FRaise e => raise e
  | FCost sigma k =>
      let* err := cost_fn sigma in
      run_fitter (k err) cost_fn
  end.

Definition call_fitter (t : fitter_run) (cost_fn : list num -> M Score)
    : M (list num) :=
  emit (Call Fitter) >> run_fitter t cost_fn.

(** The fields other than phi. *)
Definition non_numeric (m : module)
    : string * option (gmap string dist) * gmap string metaval * bool :=
  (fn m, prior m, meta m, fit_mode m).

(** The structure of a specification: which modules have which parameter
    names, and how many values each holds. *)
Definition shape (ms : list module)
    : list (option (gmap string nat)) :=
  (fun m => fmap (M := option) (fmap length) (phi m)) <$> ms.

(** The number of values a parameter group of the given shape holds. *)
Definition phi_size (s : option (gmap string nat)) : nat :=
  match s with
  | Some q => sum_list (map_to_list q).*2
  | None => 0
  end.

End Modelled.

(** ** nems/analysis/fit_basic.py *)

Module fit_basic.
Section FitBasic.
Context `{Domain}.

(** [nems.modelspec.evaluate] and [nems.fitters.util.copy_stack_data]. *)
Variable evaluate : Data -> loc -> option Z -> bool -> CM Data.
Variable copy_stack_data : Data -> Stack -> Z -> loc -> CM Data.

(** [evaluator(data_subset, updated_spec)] leaves [start] and [keep_stack]
    at the evaluator's defaults, [None] and [False]. *)
Definition basic_cost (sigma : list num) (unpacker : list num -> CM loc)
    (modelspec : loc) (data : Data) (segmentor : Data -> CM Data)
    (evaluator : Data -> loc -> option Z -> bool -> CM Data)
    (metric : Data -> CM Score) : M Score :=
  let* updated_spec := call Unpacker (unpacker sigma) in
  let* data_subset := call Segmentor (segmentor data) in
  let* updated_data_subset :=
    call Evaluator (evaluator data_subset updated_spec None false) in
  let* err := call Metric (metric updated_data_subset) in
  emit (LogDebugError err) >>
  emit (LogDebugSigma sigma) >>
  let* a := getattr fit_basic_basic_cost in
  match counter a with
  | Some n =>
      setattr fit_basic_basic_cost (set_counter (n + 1)%Z) >>
      if ((n + 1) mod 1000 =? 0)%Z then
        emit (LogInfoEval (n + 1)%Z err) >> emit ProgressFun
      else ret tt
  | None => ret tt
  end >>
  let* a := getattr fit_basic_basic_cost in
  match error a with
  | Some _ => setattr fit_basic_basic_cost (set_error err)
  | None => ret tt
  end >>
  ret err.

(** Calling the function object [f] the way [partial] does in [fit_basic]:
    [keep_stack] is not among the frozen arguments. *)
Definition apply_cost_function (f : fobj) (sigma : list num)
    (unpacker : list num -> CM loc) (modelspec : loc) (data : Data)
    (segmentor : Data -> CM Data)
    (evaluator : Data -> loc -> option Z -> bool -> CM Data)
    (metric : Data -> CM Score) : M Score :=
  match f with
  | fit_basic_basic_cost =>
      basic_cost sigma unpacker modelspec data segmentor evaluator metric
  | cost_functions_basic_cost =>
      cost_functions.basic_cost last_matching_phi copy_stack_data
        sigma unpacker modelspec data segmentor evaluator metric false
  end.

(** The loop over [enumerate(modelspec)] of [fit_basic], from index [i]. *)
Fixpoint ensure_phi (modelspec : loc) (i : nat) (items : list loc)
    : M unit :=
  match items with
  | [] => ret tt
  | m :: rest =>
      let* d := lift (deref_dict m) in
      match phi d with
      | None =>
          emit (LogDebugPhi d) >>
          let* arg := lift (alloc (OList [m])) in
          let* r := call SetMeanPhi (set_mean_phi arg) in
          let* m := lift (list_getitem r 0) in
          lift (list_setitem modelspec i m)
      | Some _ => ret tt
      end >>
      ensure_phi modelspec (S i) rest
  end.

(** The body of [if 'phi' not in m.keys()], named for the proofs. *)
Definition default_step (modelspec : loc) (i : nat) (m : loc) (d : module)
    : M unit :=
  emit (LogDebugPhi d) >>
  let* arg := lift (alloc (OList [m])) in
  let* r := call SetMeanPhi (set_mean_phi arg) in
  let* m := lift (list_getitem r 0) in
  lift (list_setitem modelspec i m).

Definition fit_basic (data : Data) (modelspec : loc)
    (fitter : list num -> fitter_run) (cost_function : option fobj)
    (segmentor : Data -> CM Data)
    (mapper : loc -> CM ((loc -> CM (list num)) * (list num -> CM loc)))
    (metric : Data -> CM Score) (metaname : string) (require_phi : bool)
    : M (list loc) :=
  let* start_time := time_time in
  let cost_function :=
    match cost_function with
    | None => fit_basic_basic_cost
    | Some f => f
    end in
  (if require_phi then
     let* items := lift (deref_list modelspec) in
     ensure_phi modelspec 0 items
   else ret tt) >>
  call FitModeOn (fit_mode_on modelspec) >>
  let* '(packer, unpacker) := call Mapper (mapper modelspec) in
  let evaluator := evaluate in
  let my_cost_function := cost_function in
  setattr my_cost_function (set_counter 0) >>
  let cost_fn := fun sigma =>
    apply_cost_function my_cost_function sigma unpacker modelspec data
      segmentor evaluator metric in
  let* sigma := call Packer (packer modelspec) in
  let* improved_sigma := call_fitter (fitter sigma) cost_fn in
  let* improved_modelspec := call Unpacker (unpacker improved_sigma) in
  let* end_time := time_time in
  let elapsed_time := (end_time - start_time)%Z in
  call FitModeOff (fit_mode_off improved_modelspec) >>
  call SetModelspecMetadata
    (set_modelspec_metadata improved_modelspec "fitter" (MStr metaname)) >>
  call SetModelspecMetadata
    (set_modelspec_metadata improved_modelspec "fit_time"
       (MTime elapsed_time)) >>
  call SetModelspecMetadata
    (set_modelspec_metadata improved_modelspec "n_parms"
       (MInt (Z.of_nat (length improved_sigma)))) >>
  let* r := call DeepCopy (deepcopy improved_modelspec) in
  ret [r].

(** The three phases of [fit_basic], named for the proofs: what is done
    before the cost function is bound, the search of the minimizer, and
    what is done with the improved vector. *)
Definition fit_prepare (modelspec : loc)
    (mapper : loc -> CM ((loc -> CM (list num)) * (list num -> CM loc)))
    (require_phi : bool)
    : M (Z * ((loc -> CM (list num)) * (list num -> CM loc))) :=
  let* start_time := time_time in
  (if require_phi then
     let* items := lift (deref_list modelspec) in
     ensure_phi modelspec 0 items
   else ret tt) >>
  call FitModeOn (fit_mode_on modelspec) >>
  let* pu := call Mapper (mapper modelspec) in
  ret (start_time, pu).

Definition fit_optimize (data : Data) (modelspec : loc)
    (fitter : list num -> fitter_run) (my_cost_function : fobj)
    (segmentor : Data -> CM Data) (metric : Data -> CM Score)
    (packer : loc -> CM (list num)) (unpacker : list num -> CM loc)
    : M (list num) :=
  setattr my_cost_function (set_counter 0) >>
  let cost_fn := fun sigma =>
    apply_cost_function my_cost_function sigma unpacker modelspec data
      segmentor evaluate metric in
  let* sigma := call Packer (packer modelspec) in
  call_fitter (fitter sigma) cost_fn.

Definition fit_finish (start_time : Z) (unpacker : list num -> CM loc)
    (improved_sigma : list num) (metaname : string) : M (list loc) :=
  let* improved_modelspec := call Unpacker (unpacker improved_sigma) in
  let* end_time := time_time in
  let elapsed_time := (end_time - start_time)%Z in
  call FitModeOff (fit_mode_off improved_modelspec) >>
  call SetModelspecMetadata
    (set_modelspec_metadata improved_modelspec "fitter" (MStr metaname)) >>
  call SetModelspecMetadata
    (set_modelspec_metadata improved_modelspec "fit_time"
       (MTime elapsed_time)) >>
  call SetModelspecMetadata
    (set_modelspec_metadata improved_modelspec "n_parms"
       (MInt (Z.of_nat (length improved_sigma)))) >>
  let* r := call DeepCopy (deepcopy improved_modelspec) in
  ret [r].

Definition default_cost (cost_function : option fobj) : fobj :=
  match cost_function with
  | None => fit_basic_basic_cost
  | Some f => f
  end.

Definition fit_phases (data : Data) (modelspec : loc)
    (fitter : list num -> fitter_run) (cost_function : option fobj)
    (segmentor : Data -> CM Data)
    (mapper : loc -> CM ((loc -> CM (list num)) * (list num -> CM loc)))
    (metric : Data -> CM Score) (metaname : string) (require_phi : bool)
    : M (list loc) :=
  let* '(start_time, (packer, unpacker)) :=
    fit_prepare modelspec mapper require_phi in
  let* improved_sigma :=
    fit_optimize data modelspec fitter (default_cost cost_function)
      segmentor metric packer unpacker in
  fit_finish start_time unpacker improved_sigma metaname.

End FitBasic.

(** *** The routines built on [fit_basic] *)

(** Keyword arguments passed on to the minimizer: none, or the 'options'
    dictionary with its tolerance, kept as written, and its bound on the
    number of iterations. *)
Inductive kwargs :=
  | NoKwargs
  | Options (ftol : string) (maxiter : Z).

Section Routines.
Context `{Domain}.

Variable evaluate : Data -> loc -> option Z -> bool -> CM Data.
Variable copy_stack_data : Data -> Stack -> Z -> loc -> CM Data.

(** The defaults of [fit_basic]: [scipy_minimize],
    [nems.segmentors.use_all_data] and the metric
    [lambda data: metrics.nmse(data, 'pred', 'resp')]. *)
Variable scipy_minimize : kwargs -> list num -> fitter_run.
Variable use_all_data : Data -> CM Data.
Variable nmse_pred_resp : Data -> CM Score.

(** The method [jackknife_by_time(nsplits, split_idx, invert, excise)] of a
    recording ([invert] and [excise] are [False] when a call leaves them
    out), [nems.segmentors.random_jackknife_maker] and
    [nems.priors.set_random_phi]. *)
Variable jackknife_by_time : Data -> Z -> Z -> bool -> bool -> CM Data.
Variable random_jackknife_maker :
  Z -> Z -> bool -> bool -> CM (Data -> CM Data).
Variable set_random_phi : loc -> CM loc.

(** What [fit_nfold] hands to [prefit_to_target] as analysis function:
    [fit_basic] itself, to be called with arguments of the callee's
    choice. *)
Definition analysis_function : Type :=
  Data -> loc -> (list num -> fitter_run) -> option fobj ->
  (Data -> CM Data) ->
  (loc -> CM ((loc -> CM (list num)) * (list num -> CM loc))) ->
  (Data -> CM Score) -> string -> bool -> M (list loc).

(** [nems.initializers.prefit_to_target(rec, modelspec, analysis_function,
    target_module, fitter, fit_kwargs)]. *)
Variable prefit_to_target :
  Data -> loc -> analysis_function -> string ->
  (kwargs -> list num -> fitter_run) -> kwargs -> M loc.

(** A line written by [log.info] in one of the routines: the format and
    the values formatted into it, with the length of the trace when it was
    written. *)
Record line := Line {
  line_at : nat;
  line_format : string;
  line_args : list Z;
}.

(** The routines run on the world and their journal. *)
Record session := Session { sworld : world; journal : list line }.

Definition W (A : Type) : Type := ST session A.

Definition inner {A} (c : M A) : W A :=
  fun s => let '(r, w) := c (sworld s) in (r, Session w (journal s)).

Definition log_info (fmt : string) (a : list Z) : W unit :=
  modify (fun s =>
    Session (sworld s)
      (journal s ++ [Line (length (trace (sworld s))) fmt a])).

(** [range(n)] *)
Definition range (n : Z) : list Z := Z.of_nat <$> seq 0 (Z.to_nat n).

(** [l[i]] for an index that is not negative. *)
Definition getitem {A} (l : list A) (i : Z) : W A :=
  match l !! Z.to_nat i with
  | Some x => ret x
  | None => raise IndexError
  end.

(** A [for] loop that extends an accumulator. *)
Fixpoint foldM {S A B} (f : B -> A -> ST S B) (l : list A) (acc : B)
    : ST S B :=
  match l with
  | [] => ret acc
  | x :: l' =>
      let* acc' := f acc x in
      foldM f l' acc'
  end.

Definition fit_random_subsets (data : Data) (modelspec : loc)
    (nsplits rebuild_every : Z) : M (list loc) :=
  let maker := random_jackknife_maker in
  let* segmentor := lift (maker nsplits rebuild_every true true) in
  fit_basic evaluate copy_stack_data data modelspec
    (scipy_minimize NoKwargs) None segmentor simple_vector nmse_pred_resp
    "fit_random_subsets" true.

Definition fit_nfold (data_list : list Data) (modelspecs : list loc)
    (generate_psth : bool) (fitter : kwargs -> list num -> fitter_run)
    (metric : option (Data -> CM Score)) (fit_kwargs : kwargs)
    : W (list loc) :=
  let nfolds := Z.of_nat (length data_list) in
  let models := [] in
  let metric :=
    match metric with
    | Some f => f
    | None => nmse_pred_resp
    end in
  foldM (fun models i =>
    log_info "Fitting fold {}/{}" [(i + 1)%Z; nfolds] >>
    let* d := getitem data_list i in
    let* m0 := getitem modelspecs 0 in
    let* c := inner (call DeepCopy (deepcopy m0)) in
    let* tms :=
      inner (prefit_to_target d c (fit_basic evaluate copy_stack_data)
               "levelshift" scipy_minimize (Options "1e-4" 500)) in
    let* d := getitem data_list i in
    let* r :=
      inner (fit_basic evaluate copy_stack_data d tms (fitter fit_kwargs)
               None use_all_data simple_vector metric "fit_nfold" true) in
    ret (models ++ r)) (range nfolds) models.

Definition fit_jackknifes (data : Data) (modelspec : loc) (njacks : Z)
    : W (list loc) :=
  let models := [] in
  foldM (fun models i =>
    log_info "Fitting jackknife {}/{}" [(i + 1)%Z; njacks] >>
    let* jk := inner (lift (jackknife_by_time data njacks i false false)) in
    let* r :=
      inner (fit_basic evaluate copy_stack_data jk modelspec
               (scipy_minimize NoKwargs) None use_all_data simple_vector
               nmse_pred_resp "fit_jackknifes" true) in
    ret (models ++ r)) (range njacks) models.

Definition fit_subsets (data : Data) (modelspec : loc) (nsplits : Z)
    : W (list loc) :=
  let models := [] in
  foldM (fun models i =>
    log_info "Fitting subset {}/{}" [(i + 1)%Z; nsplits] >>
    let* split := inner (lift (jackknife_by_time data nsplits i true true)) in
    let* r :=
      inner (fit_basic evaluate copy_stack_data split modelspec
               (scipy_minimize NoKwargs) None use_all_data simple_vector
               nmse_pred_resp "fit_subset" true) in
    ret (models ++ r)) (range nsplits) models.

Definition fit_from_priors (data : Data) (modelspec : loc) (ntimes : Z)
    : W (list loc) :=
  let models := [] in
  foldM (fun models i =>
    log_info "Fitting from random start: {}/{}" [(i + 1)%Z; ntimes] >>
    let* ms := inner (lift (set_random_phi modelspec)) in
    let* r :=
      inner (fit_basic evaluate copy_stack_data data ms
               (scipy_minimize NoKwargs) None use_all_data simple_vector
               nmse_pred_resp "fit_from_priors" true) in
    ret (models ++ r)) (range ntimes) models.

End Routines.

(** *** [fit_basic] from the mapper on *)

Section FromMapper.
Context `{Domain}.

Variable evaluate : Data -> loc -> option Z -> bool -> CM Data.
Variable copy_stack_data : Data -> Stack -> Z -> loc -> CM Data.

(** What [fit_basic] does from line 62 on, once the modules have been
    looked over and marked: [start_time] is the time read on entry. *)
Definition fit_from_mapper (start_time : Z) (data : Data) (modelspec : loc)
    (fitter : list num -> fitter_run) (cost_function : option fobj)
    (segmentor : Data -> CM Data)
    (mapper : loc -> CM ((loc -> CM (list num)) * (list num -> CM loc)))
    (metric : Data -> CM Score) (metaname : string) : M (list loc) :=
  let* '(packer, unpacker) := call Mapper (mapper modelspec) in
  let* improved_sigma :=
    fit_optimize evaluate copy_stack_data data modelspec fitter
      (default_cost cost_function) segmentor metric packer unpacker in
  fit_finish start_time unpacker improved_sigma metaname.

End FromMapper.
End fit_basic.

(** ** The cost functions and the callables they are handed

    The embedding of the two [basic_cost] above reads two calls in a fixed
    way: [evaluator(data_subset, updated_spec)] of fit_basic.py as the call
    with [start=None, keep_stack=False], and [nems.utils.progress_fun()] as
    an observation that always returns.  Both callables are foreign to the
    two files.  Here they are arguments: an evaluator says how it answers
    each of the two forms of call the files make, and [progress_fun] is a
    collaborator that may raise.  With an evaluator whose short form is the
    long form at [None] and [False], and a [progress_fun] that does
    nothing, these are the functions above. *)
Module callables.

Section Evaluators.
Context `{Domain}.

(** [positional ev d s] is [ev(d, s)]; [keywords ev d s start keep_stack]
    is [ev(d, s, start=start, keep_stack=keep_stack)]. *)
Record evaluator_fn := Evaluator_fn {
  positional : Data -> loc -> CM Data;
  keywords : Data -> loc -> option Z -> bool -> CM Data;
}.

(** The evaluator whose keywords default to [None] and [False]. *)
Definition with_defaults
    (ev : Data -> loc -> option Z -> bool -> CM Data) : evaluator_fn :=
  Evaluator_fn (fun d s => ev d s None false) ev.

End Evaluators.

Module cost_functions.
Section CostFunctions.
Context `{Domain}.

Variable last_matching_phi : loc -> loc -> CM Z.
Variable copy_stack_data : Data -> Stack -> Z -> loc -> CM Data.
Variable progress_fun : CM unit.

Definition basic_cost (sigma : list num) (unpacker : list num -> CM loc)
    (modelspec : loc) (data : Data) (segmentor : Data -> CM Data)
    (evaluator : evaluator_fn) (metric : Data -> CM Score)
    (keep_stack : bool) : M Score :=
  let* updated_spec := call Unpacker (unpacker sigma) in
  let* data_subset := call Segmentor (segmentor data) in
  let* a := getattr cost_functions_basic_cost in
  let* '(data_subset, start_idx) :=
    match keep_stack, stack a with
    | true, Some stk =>
        let* idx := call LastMatchingPhi
                      (last_matching_phi modelspec updated_spec) in
        let* data_subset := call CopyStackData
                      (copy_stack_data data_subset stk idx modelspec) in
        ret (data_subset, Some (idx + 1)%Z)
    | _, _ => ret (data_subset, None)
    end in
  let* updated_data_subset :=
    call Evaluator
      (keywords evaluator data_subset updated_spec start_idx keep_stack) in
  (if keep_stack then
     match data_stack updated_data_subset with
     | Some stk => setattr cost_functions_basic_cost (set_stack stk)
     | None => raise (KeyError "stack")
     end
   else ret tt) >>
  let* err := call Metric (metric updated_data_subset) in
  emit (LogDebugError err) >>
  emit (LogDebugSigma sigma) >>
  let* a := getattr cost_functions_basic_cost in
  match counter a with
  | Some n =>
      setattr cost_functions_basic_cost (set_counter (n + 1)%Z) >>
      if ((n + 1) mod 500 =? 0)%Z then
        emit (LogInfoEval (n + 1)%Z err) >>
        emit ProgressFun >>
        lift progress_fun
      else ret tt
  | None => ret tt
  end >>
  let* a := getattr cost_functions_basic_cost in
  match error a with
  | Some _ => setattr cost_functions_basic_cost (set_error err)
  | None => ret tt
  end >>
  ret err.

End CostFunctions.
End cost_functions.

Module fit_basic.
Section FitBasic.
Context `{Domain}.

Variable progress_fun : CM unit.

Definition basic_cost (sigma : list num) (unpacker : list num -> CM loc)
    (modelspec : loc) (data : Data) (segmentor : Data -> CM Data)
    (evaluator : evaluator_fn) (metric : Data -> CM Score) : M Score :=
  let* updated_spec := call Unpacker (unpacker sigma) in
  let* data_subset := call Segmentor (segmentor data) in
  let* updated_data_subset :=
    call Evaluator (positional evaluator data_subset updated_spec) in
  let* err := call Metric (metric updated_data_subset) in
  emit (LogDebugError err) >>
  emit (LogDebugSigma sigma) >>
  let* a := getattr fit_basic_basic_cost in
  match counter a with
  | Some n =>
      setattr fit_basic_basic_cost (set_counter (n + 1)%Z) >>
      if ((n + 1) mod 1000 =? 0)%Z then
        emit (LogInfoEval (n + 1)%Z err) >>
        emit ProgressFun >>
        lift progress_fun
      else ret tt
  | None => ret tt
  end >>
  let* a := getattr fit_basic_basic_cost in
  match error a with
  | Some _ => setattr fit_basic_basic_cost (set_error err)
  | None => ret tt
  end >>
  ret err.

End FitBasic.
End fit_basic.

End callables.

(** ** What the claims speak of *)

Section Observations.
Context `{Domain}.

Variable last_matching_phi : loc -> loc -> CM Z.
Variable copy_stack_data : Data -> Stack -> Z -> loc -> CM Data.

(** The evaluated, segmented dataset under the specification unpacked from
    [sigma], computed by the collaborators alone. *)
Definition evaluated_subset (cache : option Stack) (sigma : list num)
    (unpacker : list num -> CM loc) (modelspec : loc) (data : Data)
    (segmentor : Data -> CM Data)
    (evaluator : Data -> loc -> option Z -> bool -> CM Data)
    (keep_stack : bool) : CM Data :=
  let* updated_spec := unpacker sigma in
  let* data_subset := segmentor data in
  let* '(data_subset, start_idx) :=
    match keep_stack, cache with
    | true, Some stk =>
        let* idx := last_matching_phi modelspec updated_spec in
        let* data_subset :=
          copy_stack_data data_subset stk idx modelspec in
        ret (data_subset, Some (idx + 1)%Z)
    | _, _ => ret (data_subset, None)
    end in
  evaluator data_subset updated_spec start_idx keep_stack.

(** Its score; with [keep_stack] the evaluated data must carry a stack. *)
Definition scored (cache : option Stack) (sigma : list num)
    (unpacker : list num -> CM loc) (modelspec : loc) (data : Data)
    (segmentor : Data -> CM Data)
    (evaluator : Data -> loc -> option Z -> bool -> CM Data)
    (metric : Data -> CM Score) (keep_stack : bool) : CM Score :=
  let* d := evaluated_subset cache sigma unpacker modelspec data segmentor
              evaluator keep_stack in
  match keep_stack, data_stack d with
  | true, None => raise (KeyError "stack")
  | _, _ => metric d
  end.


(** Progress observations in a trace. *)
Definition is_progress (ev : event) : bool :=
  match ev with
  | LogInfoEval _ _ | ProgressFun => true
  | _ => false
  end.

Definition observations (tr : list event) : list event :=
  List.filter is_progress tr.

(** The collaborators called, in order. *)
Definition calls (tr : list event) : list callee :=
  omap (fun ev => match ev with Call c => Some c | _ => None end) tr.

#[global] Instance callee_eq_dec : EqDecision callee.
Proof. solve_decision. Defined.

Fixpoint position (c : callee) (cs : list callee) : option nat :=
  match cs with
  | [] => None
  | c' :: cs' => if decide (c = c') then Some 0%nat else S <$> position c cs'
  end.

Definition called_before (a b : callee) (cs : list callee) : bool :=
  match position a cs, position b cs with
  | Some i, Some j => bool_decide (i < j)%nat
  | _, _ => false
  end.

(** The calls of one run of [cost_functions.basic_cost] with
    [keep_stack], in the order of the code. *)
Definition code_order (cache : option Stack) : list callee :=
  [Unpacker; Segmentor] ++
  (match cache with
   | Some _ => [LastMatchingPhi; CopyStackData]
   | None => []
   end) ++
  [Evaluator; Metric].

End Observations.

(** ** What the claims on [fit_basic] speak of *)

Section FitObservations.
Context `{Domain}.

(** A module as the loop over [enumerate(modelspec)] leaves it. *)
Definition default_phi (m : module) : result module :=
  match phi m with
  | Some _ => Ok m
  | None => mean_phi m
  end.

Definition default_all (ms : list module) : result (list module) :=
  mapR default_phi ms.

(** [m'] is [m] with phi defaulted from the mean of its prior when it had
    none. *)
Definition defaulted (m m' : module) : Prop :=
  match phi m with
  | Some _ => m' = m
  | None =>
      exists pr, prior m = Some pr /\ m' = with_phi m (Some (dist_mean <$> pr))
  end.

(** The events of that loop. *)
Definition is_phi_event (ev : event) : bool :=
  match ev with
  | LogDebugPhi _ | Call SetMeanPhi => true
  | _ => false
  end.

(** Cost evaluations that ran to their end: each logs its [sigma]. *)
Definition is_evaluation (ev : event) : bool :=
  match ev with
  | LogDebugSigma _ => true
  | _ => false
  end.

Definition evaluations (tr : list event) : nat :=
  length (List.filter is_evaluation tr).

(** [c] takes every world to one related to it by [R]. *)
Definition preserves {A} (R : world -> world -> Prop) (c : M A) : Prop :=
  forall w, R w (snd (c w)).

(** Two worlds look the same through [view]. *)
Definition same {V} (view : world -> V) (w w' : world) : Prop :=
  view w' = view w.

Definition has {A} (o : option A) : bool :=
  match o with
  | Some _ => true
  | None => false
  end.

(** The cache of both cost functions, and whether each has a last
    error. *)
Definition cache_view (w : world)
    : option Stack * option Stack * bool * bool :=
  (stack (cf_attrs w), stack (fb_attrs w),
   has (error (cf_attrs w)), has (error (fb_attrs w))).

(** A view that only the attributes, the clock readings taken and the
    completed evaluations can change. *)
Definition quiet_view {V} (view : world -> V) : Prop :=
  (forall e w, view (set_wenv e w) = view w) /\
  (forall ev w, is_evaluation ev = false -> view (add_event ev w) = view w).

Definition ticks_blind {V} (view : world -> V) : Prop :=
  forall w,
    view (World (wenv w) (cf_attrs w) (fb_attrs w) (trace w) (clock w)
            (S (ticks w))) = view w.

(** A collaborator that leaves the objects of the store as they are. *)
Definition reads_only {A} (f : CM A) : Prop :=
  forall e, heap (snd (f e)) = heap e.

(** Objects are added to the store, none is changed. *)
Definition heap_grows (w w' : world) : Prop :=
  heap (wenv w) ⊆ heap (wenv w').

Definition attrs_view (w : world) : attrs * attrs :=
  (cf_attrs w, fb_attrs w).

Definition clock_view (w : world) : (nat -> Z) * nat :=
  (clock w, ticks w).

Definition evaluations_view (w : world) : nat := evaluations (trace w).

Definition counter_view (f : fobj) (w : world) : option Z * nat :=
  (counter (get_attrs f w), evaluations (trace w)).

(** From [w] to [w'] the counter of [f], if set, went up by the number of
    evaluations completed in between. *)
Definition counts (f : fobj) (w w' : world) : Prop :=
  forall n,
    counter (get_attrs f w) = Some n ->
    counter (get_attrs f w') =
      Some (n + Z.of_nat (evaluations (trace w'))
              - Z.of_nat (evaluations (trace w)))%Z.

End FitObservations.

(** ** What the cost functions and the routines leave behind *)

Section Instrumentation.
Context `{Domain}.

(** What call number [n] reports when a report is due every [period]
    calls. *)
Definition progress_report (period n : Z) (err : Score) : list event :=
  if (n mod period =? 0)%Z then [LogInfoEval n err; ProgressFun] else [].

(** From [w] to [w'] nothing shows that [f] was called: counter and last
    error are the same, nothing was reported and no evaluation was logged
    as completed. *)
Definition uncounted (f : fobj) (w w' : world) : Prop :=
  counter (get_attrs f w') = counter (get_attrs f w) /\
  error (get_attrs f w') = error (get_attrs f w) /\
  observations (trace w') = observations (trace w) /\
  evaluations (trace w') = evaluations (trace w).

(** From [w] to [w'] one call of [f] was counted and reported, the report
    being due every [period] calls, and the last error was not updated. *)
Definition counted_at_report (f : fobj) (period : Z) (w w' : world) : Prop :=
  exists n err,
    counter (get_attrs f w) = Some n /\
    ((n + 1) mod period = 0)%Z /\
    counter (get_attrs f w') = Some (n + 1)%Z /\
    error (get_attrs f w') = error (get_attrs f w) /\
    observations (trace w') =
      observations (trace w) ++ [LogInfoEval (n + 1)%Z err; ProgressFun] /\
    evaluations (trace w') = S (evaluations (trace w)).

(** The calls of one run of a cost function that does not resume from a
    cache, in the order of the code. *)
Definition plain_order : list callee :=
  [Unpacker; Segmentor; Evaluator; Metric].

(** The function object that is not [f]. *)
Definition other_cost (f : fobj) : fobj :=
  match f with
  | cost_functions_basic_cost => fit_basic_basic_cost
  | fit_basic_basic_cost => cost_functions_basic_cost
  end.

(** The number of modules without phi. *)
Definition lacking_phi (ms : list module) : nat :=
  length (List.filter (fun m => negb (has (phi m))) ms).


(** [R] is a specification out of fitting mode whose metadata name
    [name] as its fitter. *)
Definition fitted_model (h : gmap loc obj) (name : string) (R : loc)
    : Prop :=
  exists items ms,
    spec_in h R items ms /\
    get_modelspec_metadata ms "fitter" = Some (MStr name) /\
    Forall (fun m => fit_mode m = false) ms.

(** The objects a specification is made of: the list and the dictionaries
    it refers to. *)
Definition model_objects (h : gmap loc obj) (R : loc) : list loc :=
  match h !! R with
  | Some (OList items) => R :: items
  | _ => [R]
  end.

(** No object belongs to two of the models. *)
Definition separate_models (h : gmap loc obj) (models : list loc) : Prop :=
  forall i j R R',
    i <> j -> models !! i = Some R -> models !! j = Some R' ->
    forall l, l ∈ model_objects h R -> l ∈ model_objects h R' -> False.

(** A model as a routine keeps it while it goes on fitting the
    specification [L], whose dictionaries are [items]: tagged, and made of
    objects that are none of these and were not in the store [h0] the
    routine began with. *)
Definition round_model (h0 h : gmap loc obj) (name : string) (L : loc)
    (items : list loc) (R : loc) : Prop :=
  exists its rms,
    spec_in h R its rms /\
    get_modelspec_metadata rms "fitter" = Some (MStr name) /\
    Forall (fun m => fit_mode m = false) rms /\
    Forall (fun l => l <> L /\ (l ∉ items) /\ h0 !! l = None) (R :: its).

(** No object of a model belongs to a later one. *)
Definition apart (h : gmap loc obj) (models : list loc) : Prop :=
  forall i j R R',
    (i < j)%nat -> models !! i = Some R -> models !! j = Some R' ->
    forall l, l ∈ model_objects h R -> l ∈ model_objects h R' -> False.

(** The lines a routine wrote to the journal between two sessions, and
    the lines of [n] rounds numbered from 1. *)
Definition written (s s' : fit_basic.session) : list (string * list Z) :=
  (fun l => (fit_basic.line_format l, fit_basic.line_args l)) <$>
  drop (length (fit_basic.journal s)) (fit_basic.journal s').

Definition round_lines (fmt : string) (n : Z) : list (string * list Z) :=
  (fun i => (fmt, [(i + 1)%Z; n])) <$> fit_basic.range n.

End Instrumentation.

(** ** A concrete instance, for running the definitions *)

Module Example.

(** Integer parameters; a recording only remembers the resume index its
    evaluation was started from, and the metric returns it. *)
#[export] Instance domain : Domain := {|
  num := Z;
  Data := option Z;
  Stack := unit;
  Score := option Z;
  Ext := unit;
  data_stack := fun _ => Some tt;
|}.

Definition segmentor : Data -> CM Data := fun d => ret d.

Definition evaluate : Data -> loc -> option Z -> bool -> CM Data :=
  fun _ _ start _ => ret start.

Definition copy_stack_data : Data -> Stack -> Z -> loc -> CM Data :=
  fun d _ _ _ => ret d.

Definition metric : Data -> CM Score := fun d => ret d.

(** A two-module specification at location 1: the first module has
    parameter a, the second has no phi but a prior for b. *)
Definition m_fir : module :=
  Mod "fir" (Some {[ "a" := [1%Z] ]}) None ∅ false.

Definition m_lvl : module :=
  Mod "lvl" None (Some {[ "b" := Dist "Normal" [2%Z] ]}) ∅ false.

Definition m_lvl_phi : module :=
  Mod "lvl" (Some {[ "b" := [2%Z] ]}) None ∅ false.

(** A module with neither phi nor prior. *)
Definition m_bare : module := Mod "bare" None None ∅ false.

Definition spec_at_1 (m2 : module) : gmap loc obj :=
  {[ 1%positive := OList [2%positive; 3%positive];
     2%positive := ODict m_fir;
     3%positive := ODict m2 ]}.

Definition no_attrs : attrs := Attrs None None None.

Definition world_with (h : gmap loc obj) (cf fb : attrs)
    (clk : nat -> Z) : world :=
  World (Env h tt) cf fb [] clk 0.

(** A minimizer that asks for the cost of its starting point and of one
    more point, and returns a third. *)
Definition fitter (sigma : list num) : fitter_run :=
  FCost sigma (fun _ => FCost [5; 2]%Z (fun _ => FReturn [5; 3]%Z)).

(** A minimizer that returns its starting point at once. *)
Definition lazy_fitter (sigma : list num) : fitter_run := FReturn sigma.

(** The specification with both modules initialised; [w_cached] already
    has a cache on [cost_functions.basic_cost]. *)
Definition w_start : world :=
  world_with (spec_at_1 m_lvl_phi) no_attrs no_attrs (fun _ => 0%Z).

Definition w_cached : world :=
  world_with (spec_at_1 m_lvl_phi) (Attrs None None (Some tt)) no_attrs
    (fun _ => 0%Z).

(** Worlds for [fit]: the second module lacks phi and has a prior
    ([w_fit]), or lacks both ([w_bare]); in [w_used] both cost functions
    carry a counter, a last error and a cache from earlier use.  The clock
    advances by 10 between readings. *)
Definition ticking : nat -> Z := fun n => (10 * Z.of_nat n)%Z.

Definition used_attrs : attrs := Attrs (Some 41%Z) (Some (Some 7%Z)) (Some tt).

Definition w_fit : world :=
  world_with (spec_at_1 m_lvl) no_attrs no_attrs ticking.

Definition w_bare : world :=
  world_with (spec_at_1 m_bare) no_attrs no_attrs ticking.

Definition w_used : world :=
  world_with (spec_at_1 m_lvl) used_attrs used_attrs ticking.

Definition cost_with_cache (sigma : list num) : M Score :=
  cost_functions.basic_cost last_matching_phi copy_stack_data sigma
    (unpacker 1%positive) 1%positive None segmentor evaluate metric true.

Definition fit (cost_function : option fobj) (fitter : list num -> fitter_run)
    (require_phi : bool) : M (list loc) :=
  fit_basic.fit_basic evaluate copy_stack_data None 1%positive fitter
    cost_function segmentor simple_vector metric "fit_basic" require_phi.

End Example.

(** ** More worlds for running the definitions *)

Module ExampleCounting.
Import Example.

(** Both cost functions are one call short of a progress report and carry
    a last error. *)
Definition w_counting : world :=
  world_with (spec_at_1 m_lvl_phi)
    (Attrs (Some 499%Z) (Some (Some 7%Z)) None)
    (Attrs (Some 999%Z) (Some (Some 7%Z)) None) (fun _ => 0%Z).

Definition cf_cost (sigma : list num) (keep_stack : bool) : M Score :=
  cost_functions.basic_cost last_matching_phi copy_stack_data sigma
    (unpacker 1%positive) 1%positive None segmentor evaluate metric
    keep_stack.

Definition fb_cost (sigma : list num) : M Score :=
  fit_basic.basic_cost sigma (unpacker 1%positive) 1%positive None segmentor
    evaluate metric.

(** A minimizer that gives up after asking for one cost. *)
Definition failing_fitter (sigma : list num) : fitter_run :=
  FCost sigma (fun _ => FRaise (External "no convergence")).

End ExampleCounting.

(** Collaborators for the routines built on [fit_basic]: the jackknife of
    a recording remembers the index of the split, the random start is a
    copy of the specification, and the prefit returns the specification it
    is given. *)
Module ExampleRoutines.
Import Example.

Definition scipy_minimize (_ : fit_basic.kwargs) : list num -> fitter_run :=
  fitter.

Definition jackknife_by_time : Data -> Z -> Z -> bool -> bool -> CM Data :=
  fun _ _ i _ _ => ret (Some i).

Definition random_jackknife_maker
    : Z -> Z -> bool -> bool -> CM (Data -> CM Data) :=
  fun _ _ _ _ => ret segmentor.

Definition set_random_phi (modelspec : loc) : CM loc :=
  let* ms := read_spec modelspec in
  alloc_spec ms.

Definition prefit_to_target (d : Data) (modelspec : loc)
    (f : fit_basic.analysis_function) (target : string)
    (fitter : fit_basic.kwargs -> list num -> fitter_run)
    (fit_kwargs : fit_basic.kwargs) : M loc :=
  ret modelspec.

Definition session_of (w : world) : fit_basic.session :=
  fit_basic.Session w [].

Definition fit_jackknifes : Data -> loc -> Z -> fit_basic.W (list loc) :=
  fit_basic.fit_jackknifes evaluate copy_stack_data scipy_minimize segmentor
    metric jackknife_by_time.

Definition fit_subsets : Data -> loc -> Z -> fit_basic.W (list loc) :=
  fit_basic.fit_subsets evaluate copy_stack_data scipy_minimize segmentor
    metric jackknife_by_time.

Definition fit_from_priors : Data -> loc -> Z -> fit_basic.W (list loc) :=
  fit_basic.fit_from_priors evaluate copy_stack_data scipy_minimize segmentor
    metric set_random_phi.

Definition fit_random_subsets : Data -> loc -> Z -> Z -> M (list loc) :=
  fit_basic.fit_random_subsets evaluate copy_stack_data scipy_minimize
    metric random_jackknife_maker.

Definition fit_nfold (data_list : list Data) (modelspecs : list loc)
    : fit_basic.W (list loc) :=
  fit_basic.fit_nfold evaluate copy_stack_data scipy_minimize segmentor
    metric prefit_to_target data_list modelspecs false scipy_minimize None
    (fit_basic.Options "1e-7" 1000).

End ExampleRoutines.

(** Recordings that are evaluated without a stack: a recording is [true]
    when it carries one. *)
Module ExampleStackless.

Definition domain : Domain := {|
  num := Z;
  Data := bool;
  Stack := unit;
  Score := Z;
  Ext := unit;
  data_stack := fun d => if d then Some tt else None;
|}.

Section Stackless.
#[local] Existing Instance domain.

Definition evaluate : Data -> loc -> option Z -> bool -> CM Data :=
  fun _ _ _ _ => ret false.

Definition cost (sigma : list num) : M Score :=
  cost_functions.basic_cost last_matching_phi (fun d _ _ _ => ret d) sigma
    (fun _ => ret 1%positive) 1%positive true (fun d => ret d) evaluate
    (fun _ => ret 0%Z) true.

Definition w_empty : world :=
  World (Env ∅ tt) (Attrs (Some 0%Z) None None) (Attrs None None None) []
        (fun _ => 0%Z) 0.

End Stackless.
End ExampleStackless.

(** A clock that is set back by 10 at every reading. *)
Module ExampleClock.
Import Example.

Definition set_back : nat -> Z := fun n => (100 - 10 * Z.of_nat n)%Z.

Definition w_set_back : world :=
  world_with (spec_at_1 m_lvl_phi) no_attrs no_attrs set_back.

End ExampleClock.

(** A mapper that keeps every parameter out of the search: the vector is
    empty, and unpacking copies the specification as it is. *)
Module ExampleMapper.
Import Example.

Definition fixed_mapper (modelspec : loc)
    : CM ((loc -> CM (list num)) * (list num -> CM loc)) :=
  ret ((fun _ => ret []),
       (fun _ => let* ms := read_spec modelspec in alloc_spec ms)).

Definition fit_fixed (require_phi : bool) : M (list loc) :=
  fit_basic.fit_basic evaluate copy_stack_data None 1%positive lazy_fitter
    None segmentor fixed_mapper metric "fit_basic" require_phi.

End ExampleMapper.

(** An evaluator that resumes from a stack.  The output of a module is the
    output of the one before it plus the sum of its parameter values; a
    recording is the list of the outputs so far, which is also its stack,
    and the metric is the last output. *)
Module ExampleResume.

Definition domain : Domain := {|
  num := Z;
  Data := list Z;
  Stack := list Z;
  Score := Z;
  Ext := unit;
  data_stack := fun d => Some d;
|}.

Section Resume.
#[local] Existing Instance domain.

Definition gain (m : module) : Z :=
  match phi m with
  | Some p => map_fold (fun _ v acc => (foldr Z.add 0 v + acc)%Z) 0%Z p
  | None => 0%Z
  end.

Fixpoint outputs (prev : Z) (ms : list module) : list Z :=
  match ms with
  | [] => []
  | m :: rest => (prev + gain m)%Z :: outputs (prev + gain m)%Z rest
  end.

(** Evaluation from module [start] on: the outputs before it are taken
    from the recording. *)
Definition evaluate : Data -> loc -> option Z -> bool -> CM Data :=
  fun d spec start _ =>
    let* ms := read_spec spec in
    let k := Z.to_nat (default 0%Z start) in
    let kept := take k d in
    ret (kept ++ outputs (default 0%Z (last kept)) (drop k ms)).

(** The outputs of the stack up to module [idx] go into the recording. *)
Definition copy_stack_data : Data -> Stack -> Z -> loc -> CM Data :=
  fun _ stk idx _ => ret (take (Z.to_nat (idx + 1)) stk).

Definition metric : Data -> CM Score := fun d => ret (default 0%Z (last d)).

Definition m_a : module := Mod "gain" (Some {[ "a" := [1%Z] ]}) None ∅ false.

Definition m_b : module := Mod "gain" (Some {[ "b" := [2%Z] ]}) None ∅ false.

(** The specification bound to the cost function holds a = 1, b = 2. *)
Definition w0 : world :=
  World (Env {[ 1%positive := OList [2%positive; 3%positive];
                2%positive := ODict m_a;
                3%positive := ODict m_b ]} tt)
        (Attrs None None None) (Attrs None None None) [] (fun _ => 0%Z) 0.

Definition cost (sigma : list num) : M Score :=
  cost_functions.basic_cost last_matching_phi copy_stack_data sigma
    (unpacker 1%positive) 1%positive [] (fun d => ret d) evaluate metric
    true.

End Resume.
End ExampleResume.

(** Callables for the cost functions: an evaluator whose short form of call
    does not answer as its long form at [None] and [False], and a
    [progress_fun] that raises. *)
Module ExampleCallables.
Import Example.

Definition odd_evaluator : callables.evaluator_fn :=
  callables.Evaluator_fn (fun _ _ => ret (Some 1%Z))
    (fun _ _ start _ => ret start).

Definition plain_evaluator : callables.evaluator_fn :=
  callables.with_defaults evaluate.

Definition quiet_progress_fun : CM unit := ret tt.

Definition failing_progress_fun : CM unit := raise (External "no display").

Definition cf_cost (progress_fun : CM unit) (ev : callables.evaluator_fn)
    (sigma : list num) : M Score :=
  callables.cost_functions.basic_cost last_matching_phi copy_stack_data
    progress_fun sigma (unpacker 1%positive) 1%positive None segmentor ev
    metric false.

Definition fb_cost (progress_fun : CM unit) (ev : callables.evaluator_fn)
    (sigma : list num) : M Score :=
  callables.fit_basic.basic_cost progress_fun sigma (unpacker 1%positive)
    1%positive None segmentor ev metric.

(** Both functions are one call short of call 500, with a last error. *)
Definition w_499 : world :=
  world_with (spec_at_1 m_lvl_phi)
    (Attrs (Some 499%Z) (Some (Some 7%Z)) None)
    (Attrs (Some 499%Z) (Some (Some 7%Z)) None) (fun _ => 0%Z).

End ExampleCallables.

(** * Theorems *)
(** ** The object store: reads *)

Section StoreFacts.
Context `{Domain}.

Lemma bind_ok_inv {S A B} (c : ST S A) (k : A -> ST S B) (s s' : S) (b : B) :
  bind c k s = (Ok b, s') ->
  exists a s1, c s = (Ok a, s1) /\ k a s1 = (Ok b, s').
Proof.
  unfold bind. destruct (c s) as [[a|e] s1]; [|done]. eauto.
Qed.

Lemma deref_list_pure l e : snd (deref_list l e) = e.
Proof. unfold deref_list. by repeat case_match. Qed.

Lemma deref_dict_pure l e : snd (deref_dict l e) = e.
Proof. unfold deref_dict. by repeat case_match. Qed.

Lemma mapM_deref_dict_pure items e : snd (mapM deref_dict items e) = e.
Proof.
  induction items as [|l items IH]; simpl; [done|].
  unfold bind. pose proof (deref_dict_pure l e) as Hd.
  destruct (deref_dict l e) as [[m|ex] e1]; simpl in Hd; subst e1; [|done].
  destruct (mapM deref_dict items e) as [[r|ex] e2]; unfold ret; simpl in *; by subst.

Qed.

Lemma read_spec_pure l e : snd (read_spec l e) = e.
Proof.
  unfold read_spec, bind. pose proof (deref_list_pure l e) as Hd.
  destruct (deref_list l e) as [[items|ex] e1]; simpl in Hd; subst e1;
    [|done].
  apply mapM_deref_dict_pure.
Qed.

Lemma mapM_deref_dict_ok items ms e :
  Forall2 (dict_at (heap e)) items ms ->
  mapM deref_dict items e = (Ok ms, e).
Proof.
  induction 1 as [|l m items ms Hl _ IH]; simpl; [done|].
  unfold bind, deref_dict at 1. unfold dict_at in Hl. rewrite Hl, IH. reflexivity.
Qed.

Lemma mapM_deref_dict_inv items ms e e' :
  mapM deref_dict items e = (Ok ms, e') ->
  Forall2 (dict_at (heap e)) items ms.
Proof.
  revert ms. induction items as [|l items IH]; simpl; intros ms Hm.
  - inversion Hm. constructor.
  - unfold bind in Hm. unfold deref_dict at 1 in Hm.
    destruct (heap e !! l) as [[?|m]|] eqn:Hl; try done.
    destruct (mapM deref_dict items e) as [[r|ex] e2] eqn:Hr;
      unfold ret in Hm; inversion Hm; subst.
    constructor; [done|]. by eapply IH.
Qed.

Lemma read_spec_ok l items ms e :
  spec_in (heap e) l items ms -> read_spec l e = (Ok ms, e).
Proof.
  intros [Hl Hms]. unfold read_spec, bind, deref_list. rewrite Hl.
  by apply mapM_deref_dict_ok.
Qed.

Lemma read_spec_inv l ms e e' :
  read_spec l e = (Ok ms, e') ->
  e' = e /\ exists items, spec_in (heap e) l items ms.
Proof.
  intros Hr. pose proof (read_spec_pure l e) as Hp. rewrite Hr in Hp.
  simpl in Hp. subst e'. split; [done|].
  unfold read_spec, bind, deref_list in Hr.
  destruct (heap e !! l) as [[items|m]|] eqn:Hl; try done.
  exists items. split; [done|]. by eapply mapM_deref_dict_inv.
Qed.

Lemma dict_at_mono h h' l m : h ⊆ h' -> dict_at h l m -> dict_at h' l m.
Proof. unfold dict_at. intros Hs Hl. by eapply lookup_weaken. Qed.

Lemma spec_in_mono h h' l items ms :
  h ⊆ h' -> spec_in h l items ms -> spec_in h' l items ms.
Proof.
  intros Hs [Hl Hms]. split; [by eapply lookup_weaken|].
  eapply Forall2_impl; [exact Hms|]. intros. by eapply dict_at_mono.
Qed.

(** What [matching_prefix] counts. *)
Lemma matching_prefix_agree (ms us : list module) (i : nat) :
  (i < matching_prefix ms us)%nat ->
  exists m u, ms !! i = Some m /\ us !! i = Some u /\ phi m = phi u.
Proof.
  revert us i. induction ms as [|m ms IH]; intros [|u us] i; simpl;
    try lia.
  destruct (decide (phi m = phi u)) as [Heq|]; [|lia].
  destruct i as [|i]; simpl; [eauto|].
  intros Hi. apply IH. lia.
Qed.

Lemma matching_prefix_stop (ms us : list module) (m u : module) :
  ms !! matching_prefix ms us = Some m ->
  us !! matching_prefix ms us = Some u ->
  phi m <> phi u.
Proof.
  revert us. induction ms as [|m' ms IH]; intros [|u' us]; simpl; try done.
  destruct (decide (phi m' = phi u')) as [Heq|Hne]; simpl.
  - apply IH.
  - intros ? ?; by simplify_eq.
Qed.

End StoreFacts.

(** ** The object store: writes *)

Section HeapFacts.
Context `{Domain}.

Lemma alloc_run (o : obj) (e : env) :
  exists l,
    alloc o e = (Ok l, Env (<[l := o]> (heap e)) (ext e)) /\
    heap e !! l = None.
Proof.
  exists (fresh (dom (heap e))). split; [done|].
  apply not_elem_of_dom, is_fresh.
Qed.

Lemma kept_but_refl L h : kept_but L h h.
Proof. apply delete_subseteq. Qed.

Lemma kept_but_trans L h1 h2 h3 :
  kept_but L h1 h2 -> kept_but L h2 h3 -> kept_but L h1 h3.
Proof.
  unfold kept_but. intros H12 H23.
  apply map_subseteq_spec. intros l o Hl.
  apply lookup_delete_Some in Hl as [Hne Hl].
  eapply lookup_weaken; [|exact H23].
  apply lookup_delete_Some. split; [done|].
  eapply lookup_weaken; [|exact H12].
  by apply lookup_delete_Some.
Qed.

Lemma kept_but_sub L h h' : h ⊆ h' -> kept_but L h h'.
Proof.
  intros Hs. unfold kept_but. etrans; [apply delete_subseteq|done].
Qed.

Lemma kept_but_insert_fresh L h l o :
  h !! l = None -> kept_but L h (<[l := o]> h).
Proof. intros Hl. apply kept_but_sub. by apply insert_subseteq. Qed.

Lemma kept_but_insert L h o : kept_but L h (<[L := o]> h).
Proof.
  apply map_subseteq_spec. intros l o' Hl.
  apply lookup_delete_Some in Hl as [Hne Hl].
  by rewrite lookup_insert_ne.
Qed.

Lemma kept_but_dict L h h' l m items :
  h !! L = Some (OList items) ->
  kept_but L h h' -> dict_at h l m -> dict_at h' l m.
Proof.
  unfold dict_at. intros HL Hk Hl.
  eapply lookup_weaken; [|exact Hk].
  apply lookup_delete_Some. split; [|done]. intros ->. congruence.
Qed.

Lemma kept_but_dom L h h' :
  is_Some (h' !! L) -> kept_but L h h' -> dom h ⊆ dom h'.
Proof.
  intros HL Hk l Hl. apply elem_of_dom in Hl as [o Hl].
  destruct (decide (l = L)) as [->|Hne]; [by apply elem_of_dom|].
  apply elem_of_dom. exists o. eapply lookup_weaken; [|exact Hk].
  by apply lookup_delete_Some.
Qed.

End HeapFacts.

(** ** The loop that defaults phi *)

Section EnsurePhi.
Context `{Domain}.

Lemma default_step_run L i l d cur w :
  heap (wenv w) !! L = Some (OList cur) ->
  (i < length cur)%nat ->
  dict_at (heap (wenv w)) l d ->
  exists h',
    kept_but L (heap (wenv w)) h' /\
    match mean_phi d with
    | Ok d' =>
        exists b,
          fit_basic.default_step L i l d w =
            (Ok tt,
             World (Env h' (ext (wenv w))) (cf_attrs w) (fb_attrs w)
               (trace w ++ [LogDebugPhi d; Call SetMeanPhi])
               (clock w) (ticks w)) /\
          h' !! L = Some (OList (<[i := b]> cur)) /\
          dict_at h' b d'
    | Raise ex =>
        fit_basic.default_step L i l d w =
          (Raise ex,
           World (Env h' (ext (wenv w))) (cf_attrs w) (fb_attrs w)
             (trace w ++ [LogDebugPhi d; Call SetMeanPhi])
             (clock w) (ticks w))
    end.
Proof.
  intros HL Hi Hl. destruct w as [[h x] ca fa tr clk tk]. simpl in *.
  unfold dict_at in Hl.
  set (a := fresh (dom h)).
  assert (h !! a = None) as Ha by apply not_elem_of_dom, is_fresh.
  assert (a <> l) as Hal by (intros ->; congruence).
  assert (a <> L) as HaL by (intros ->; congruence).
  set (h1 := <[a := OList [l]]> h).
  assert (read_spec a (Env h1 x) = (Ok [d], Env h1 x)) as Hread.
  { apply read_spec_ok with (items := [l]). split.
    - apply lookup_insert_eq.
    - constructor; [|constructor]. unfold dict_at, h1. simpl.
      by rewrite lookup_insert_ne. }
  unfold fit_basic.default_step, bind, emit, modify, lift, call, alloc.
  simpl.
  fold a. fold h1. unfold set_mean_phi, bind. rewrite Hread. simpl.
  destruct (mean_phi d) as [d'|ex] eqn:Hmean; simpl.
  - set (b := fresh (dom h1)).
    assert (h1 !! b = None) as Hb by apply not_elem_of_dom, is_fresh.
    set (h2 := <[b := ODict d']> h1).
    set (c := fresh (dom h2)).
    assert (h2 !! c = None) as Hc by apply not_elem_of_dom, is_fresh.
    set (h3 := <[c := OList [b]]> h2).
    assert (h1 !! L = Some (OList cur)) as HL1
      by (unfold h1; by rewrite lookup_insert_ne).
    assert (b <> L) as HbL by (intros ->; congruence).
    assert (h2 !! L = Some (OList cur)) as HL2
      by (unfold h2; by rewrite lookup_insert_ne).
    assert (c <> L) as HcL by (intros ->; congruence).
    assert (c <> b) as Hcb.
    { intros ->. unfold h2 in Hc. by rewrite lookup_insert_eq in Hc. }
    exists (<[L := OList (<[i := b]> cur)]> h3). split.
    + apply kept_but_trans with h3; [|apply kept_but_insert].
      apply kept_but_sub. unfold h3, h2, h1.
      etrans; [apply (insert_subseteq h a); exact Ha|].
      etrans; [apply (insert_subseteq _ b); exact Hb|].
      apply (insert_subseteq _ c); exact Hc.
    + exists b. split; [|split].
      * unfold alloc_spec, bind, alloc, ret. simpl.
        fold b. fold h2. fold c. fold h3.
        unfold list_getitem, bind, deref_list. simpl.
        unfold h3 at 1. rewrite lookup_insert_eq. simpl.
        unfold ret. unfold list_setitem, bind, deref_list. simpl.
        assert (h3 !! L = Some (OList cur)) as HL3
          by (unfold h3; by rewrite lookup_insert_ne).
        rewrite HL3. rewrite decide_True by done.
        unfold store, modify, set_wenv, add_event. simpl.
        by rewrite <- app_assoc.
      * apply lookup_insert_eq.
      * unfold dict_at. rewrite lookup_insert_ne by done.
        unfold h3. rewrite lookup_insert_ne by done.
        unfold h2. apply lookup_insert_eq.
  - exists h1. split.
    + apply kept_but_insert_fresh. exact Ha.
    + unfold raise, set_wenv, add_event. simpl. by rewrite <- app_assoc.
Qed.

Lemma default_all_cons (m : module) (ms : list module) :
  default_all (m :: ms) =
  match default_phi m, default_all ms with
  | Ok y, Ok ys => Ok (y :: ys)
  | Raise e, _ => Raise e
  | _, Raise e => Raise e
  end.
Proof. reflexivity. Qed.

(** The loop over the modules: its outcome, the store it leaves, and one
    call to [set_mean_phi] for each module that lacked phi. *)
Lemma ensure_phi_run_calls L items :
  forall ms pre w,
    heap (wenv w) !! L = Some (OList (pre ++ items)) ->
    Forall2 (dict_at (heap (wenv w))) items ms ->
    exists h' evs,
      fit_basic.ensure_phi L (length pre) items w =
        (match default_all ms with
         | Ok _ => Ok tt
         | Raise ex => Raise ex
         end,
         World (Env h' (ext (wenv w))) (cf_attrs w) (fb_attrs w)
           (trace w ++ evs) (clock w) (ticks w)) /\
      kept_but L (heap (wenv w)) h' /\
      forallb is_phi_event evs = true /\
      (forall ms',
         default_all ms = Ok ms' ->
         calls evs = replicate (lacking_phi ms) SetMeanPhi) /\
      forall ms',
        default_all ms = Ok ms' ->
        exists items',
          h' !! L = Some (OList (pre ++ items')) /\
          Forall2 (dict_at h') items' ms'.
Proof.
  induction items as [|l items IH]; intros ms pre w HL Hms;
    inversion Hms as [|? m ? ms0 Hl Hms0]; subst.
  - exists (heap (wenv w)), []. split; [|split; [|split; [|split]]].
    + destruct w as [[h x] ? ? ? ? ?]. simpl. by rewrite app_nil_r.
    + apply kept_but_refl.
    + done.
    + done.
    + intros ms' Hd. inversion Hd; subst. exists []. by split.
  - rewrite default_all_cons.
    cbn [fit_basic.ensure_phi]. unfold bind at 1. unfold lift at 1.
    unfold deref_dict at 1. unfold dict_at in Hl. rewrite Hl.
    replace (set_wenv (wenv w) w) with w by (by destruct w).
    fold (fit_basic.default_step L (length pre) l m).
    unfold default_phi.
    destruct (phi m) as [p|] eqn:Hp.
    + unfold bind at 1. unfold ret at 1.
      destruct (IH ms0 (pre ++ [l]) w)
        as (h' & evs & Hrun & Hk & Hev & Hcnt & Hres).
      { by rewrite <- app_assoc. }
      { done. }
      rewrite length_app in Hrun. simpl in Hrun.
      replace (length pre + 1)%nat with (S (length pre)) in Hrun by lia.
      exists h', evs. split; [|split; [|split; [|split]]]; try done.
      * rewrite Hrun. by destruct (default_all ms0).
      * intros ms' Hd.
        destruct (default_all ms0) as [ys|] eqn:Hys; simpl in Hd; [|done].
        unfold lacking_phi. simpl. rewrite Hp. simpl.
        exact (Hcnt ys eq_refl).
      * intros ms' Hd.
        destruct (default_all ms0) as [ys|] eqn:Hys; simpl in Hd; [|done].
        inversion Hd; subst.
        destruct (Hres ys eq_refl) as (items' & HL' & Hit').
        exists (l :: items'). split.
        -- by rewrite <- app_assoc in HL'.
        -- constructor; [|done].
           exact (kept_but_dict L _ h' l m _ HL Hk Hl).
    + assert (length pre < length (pre ++ l :: items))%nat as Hi
        by (rewrite length_app; simpl; lia).
      destruct (default_step_run L (length pre) l m _ w HL Hi Hl)
        as (h1 & Hk1 & Hstep).
      unfold bind at 1.
      destruct (mean_phi m) as [d'|ex] eqn:Hmean.
      * destruct Hstep as (b & Hrun1 & HL1 & Hb). rewrite Hrun1.
        rewrite insert_app_r_alt, Nat.sub_diag in HL1 by lia.
        simpl in HL1.
        set (w1 := World (Env h1 (ext (wenv w))) (cf_attrs w) (fb_attrs w)
                     (trace w ++ [LogDebugPhi m; Call SetMeanPhi])
                     (clock w) (ticks w)).
        destruct (IH ms0 (pre ++ [b]) w1)
          as (h' & evs & Hrun & Hk & Hev & Hcnt & Hres).
        { simpl. by rewrite <- app_assoc. }
        { simpl. eapply Forall2_impl; [exact Hms0|].
          intros l' m' Hd. exact (kept_but_dict L _ h1 l' m' _ HL Hk1 Hd). }
        rewrite length_app in Hrun. simpl in Hrun.
        replace (length pre + 1)%nat with (S (length pre)) in Hrun by lia.
        exists h', ([LogDebugPhi m; Call SetMeanPhi] ++ evs).
        split; [|split; [|split; [|split]]].
        -- rewrite Hrun. rewrite <- app_assoc.
           by destruct (default_all ms0).
        -- by apply kept_but_trans with h1.
        -- done.
        -- intros ms' Hd.
           destruct (default_all ms0) as [ys|] eqn:Hys; simpl in Hd;
             [|done].
           unfold lacking_phi. simpl. rewrite Hp. simpl. f_equal.
           exact (Hcnt ys eq_refl).
        -- intros ms' Hd.
           destruct (default_all ms0) as [ys|] eqn:Hys; simpl in Hd;
             [|done].
           inversion Hd; subst.
           destruct (Hres ys eq_refl) as (items' & HL' & Hit').
           exists (b :: items'). split.
           ++ by rewrite <- app_assoc in HL'.
           ++ constructor; [|done].
              exact (kept_but_dict L _ h' b d' _ HL1 Hk Hb).
      * rewrite Hstep.
        exists h1, [LogDebugPhi m; Call SetMeanPhi].
        split; [|split; [|split; [|split]]]; done.
Qed.

Lemma ensure_phi_run L items :
  forall ms pre w,
    heap (wenv w) !! L = Some (OList (pre ++ items)) ->
    Forall2 (dict_at (heap (wenv w))) items ms ->
    exists h' evs,
      fit_basic.ensure_phi L (length pre) items w =
        (match default_all ms with
         | Ok _ => Ok tt
         | Raise ex => Raise ex
         end,
         World (Env h' (ext (wenv w))) (cf_attrs w) (fb_attrs w)
           (trace w ++ evs) (clock w) (ticks w)) /\
      kept_but L (heap (wenv w)) h' /\
      forallb is_phi_event evs = true /\
      forall ms',
        default_all ms = Ok ms' ->
        exists items',
          h' !! L = Some (OList (pre ++ items')) /\
          Forall2 (dict_at h') items' ms'.
Proof.
  intros ms pre w HL Hms.
  destruct (ensure_phi_run_calls L items ms pre w HL Hms)
    as (h' & evs & Hrun & Hk & Hev & _ & Hres).
  by exists h', evs.
Qed.


End EnsurePhi.

(** ** [fit_basic] by phases *)

Section Phases.
Context `{Domain}.

Variable evaluate : Data -> loc -> option Z -> bool -> CM Data.
Variable copy_stack_data : Data -> Stack -> Z -> loc -> CM Data.

Lemma bind_assoc {S A B C} (c : ST S A) (k : A -> ST S B)
    (k' : B -> ST S C) (s : S) :
  bind (bind c k) k' s = bind c (fun a => bind (k a) k') s.
Proof. unfold bind. destruct (c s) as [[a|e] s']; [|done]. done. Qed.

Lemma bind_ext {S A B} (c : ST S A) (k k' : A -> ST S B) (s : S) :
  (forall a s', k a s' = k' a s') -> bind c k s = bind c k' s.
Proof.
  intros Hk. unfold bind. destruct (c s) as [[a|e] s']; [apply Hk|done].
Qed.

Lemma bind_ret {S A B} (a : A) (k : A -> ST S B) (s : S) :
  bind (ret a) k s = k a s.
Proof. done. Qed.

Lemma fit_basic_phases data modelspec fitter cost_function segmentor mapper
    metric metaname require_phi w :
  fit_basic.fit_basic evaluate copy_stack_data data modelspec fitter
    cost_function segmentor mapper metric metaname require_phi w =
  fit_basic.fit_phases evaluate copy_stack_data data modelspec fitter
    cost_function segmentor mapper metric metaname require_phi w.
Proof.
  unfold fit_basic.fit_phases, fit_basic.fit_prepare, fit_basic.fit_basic.
  rewrite bind_assoc. apply bind_ext. intros start_time w1.
  rewrite bind_assoc. apply bind_ext. intros [] w2.
  rewrite bind_assoc. apply bind_ext. intros [] w3.
  rewrite bind_assoc. apply bind_ext. intros [packer unpacker] w4.
  rewrite bind_ret.
  unfold fit_basic.fit_optimize. fold (fit_basic.default_cost cost_function).
  cbv zeta.
  rewrite bind_assoc. apply bind_ext. intros [] w5.
  rewrite bind_assoc. apply bind_ext. intros sigma w6.
  apply bind_ext. intros improved_sigma w7.
  reflexivity.
Qed.

End Phases.

(** ** Defaulting phi when [fit_basic] begins *)

Section DefaultPhi.
Context `{Domain}.

Variable evaluate : Data -> loc -> option Z -> bool -> CM Data.
Variable copy_stack_data : Data -> Stack -> Z -> loc -> CM Data.

Lemma default_all_ok (ms : list module) :
  Forall (fun m => phi m = None -> is_Some (prior m)) ms ->
  exists ms',
    default_all ms = Ok ms' /\
    Forall2 defaulted ms ms' /\
    Forall (fun m' => is_Some (phi m')) ms'.
Proof.
  induction 1 as [|m ms Hm _ (ms' & Hok & Hd & Hp)].
  - exists []. by repeat split.
  - rewrite default_all_cons, Hok. unfold default_phi, mean_phi, defaulted.
    destruct (phi m) as [p|] eqn:Hphi.
    + exists (m :: ms'). split; [done|]. split.
      * constructor; [|done]. unfold defaulted. by rewrite Hphi.
      * constructor; [|done]. by rewrite Hphi.
    + destruct (Hm eq_refl) as [pr Hpr]. rewrite Hpr.
      exists (with_phi m (Some (dist_mean <$> pr)) :: ms').
      split; [done|]. split.
      * constructor; [|done]. unfold defaulted. rewrite Hphi. eauto.
      * constructor; [|done]. by eexists.
Qed.

Lemma default_all_raise (ms : list module) :
  Exists (fun m => phi m = None /\ prior m = None) ms ->
  default_all ms = Raise (KeyError "prior").
Proof.
  induction ms as [|m ms IH]; intros Hex; [by inversion Hex|].
  rewrite default_all_cons. unfold default_phi, mean_phi.
  destruct (phi m) as [p|] eqn:Hphi.
  - inversion Hex as [? ? [Hn _]|? ? Hex']; subst; [congruence|].
    by rewrite (IH Hex').
  - destruct (prior m) as [pr|] eqn:Hpr; [|done].
    inversion Hex as [? ? [_ Hn]|? ? Hex']; subst; [congruence|].
    by rewrite (IH Hex').
Qed.

End DefaultPhi.
(** ** Proof steps shared by the results on the cost functions *)

Ltac destruct_head :=
  match goal with
  | |- context [match ?c with _ => _ end] =>
      lazymatch c with
      | context [match _ with _ => _ end] => fail
      | _ => destruct c eqn:?
      end
  end.

Ltac run :=
  unfold bind, call, lift, emit, modify, getattr, setattr, ret, raise;
  simpl;
  repeat (destruct_head; simpl);
  try done.

Section CostTheorems.
Context `{Domain}.

Variable last_matching_phi : loc -> loc -> CM Z.
Variable copy_stack_data : Data -> Stack -> Z -> loc -> CM Data.

Abbreviation cf_basic_cost :=
  (cost_functions.basic_cost last_matching_phi copy_stack_data).
Abbreviation scored' := (scored last_matching_phi copy_stack_data).

Lemma fb_basic_cost_scored sigma unpacker modelspec data segmentor evaluator
    metric w :
  let r := fit_basic.basic_cost sigma unpacker modelspec data segmentor
             evaluator metric w in
  (fst r, wenv (snd r)) =
  scored' None sigma unpacker modelspec data segmentor evaluator metric false
    (wenv w).
Proof. unfold fit_basic.basic_cost, scored, evaluated_subset. run. Qed.

Lemma cf_basic_cost_scored sigma unpacker modelspec data segmentor evaluator
    metric keep_stack w :
  let r := cf_basic_cost sigma unpacker modelspec data segmentor evaluator
             metric keep_stack w in
  (fst r, wenv (snd r)) =
  scored' (stack (cf_attrs w)) sigma unpacker modelspec data segmentor
    evaluator metric keep_stack (wenv w).
Proof.
  unfold cost_functions.basic_cost, scored, evaluated_subset.
  destruct keep_stack; run.
Qed.


Lemma observations_app (t1 t2 : list event) :
  observations (t1 ++ t2) = observations t1 ++ observations t2.
Proof. apply List.filter_app. Qed.

Ltac quiet_trace :=
  repeat rewrite observations_app; simpl; repeat rewrite app_nil_r;
  try done.

Lemma cf_basic_cost_no_attrs sigma unpacker modelspec data segmentor
    evaluator metric keep_stack w :
  counter (cf_attrs w) = None ->
  error (cf_attrs w) = None ->
  let r := cf_basic_cost sigma unpacker modelspec data segmentor evaluator
             metric keep_stack w in
  counter (cf_attrs (snd r)) = None /\
  error (cf_attrs (snd r)) = None /\
  observations (trace (snd r)) = observations (trace w).
Proof.
  intros Hc He. unfold cost_functions.basic_cost.
  destruct keep_stack; run; try congruence;
    (split; [done|split; [done|quiet_trace]]).
Qed.

Lemma fb_basic_cost_no_attrs sigma unpacker modelspec data segmentor
    evaluator metric w :
  counter (fb_attrs w) = None ->
  error (fb_attrs w) = None ->
  let r := fit_basic.basic_cost sigma unpacker modelspec data segmentor
             evaluator metric w in
  counter (fb_attrs (snd r)) = None /\
  error (fb_attrs (snd r)) = None /\
  observations (trace (snd r)) = observations (trace w).
Proof.
  intros Hc He. unfold fit_basic.basic_cost.
  run; try congruence; (split; [done|split; [done|quiet_trace]]).
Qed.

(** C10: called with no counter and no last-error attribute on the function
    object, either [basic_cost] returns the score (or raises what a
    collaborator raised) exactly as the uninstrumented computation does;
    afterwards the two attributes are still absent and the trace holds no
    new progress observation. *)
Theorem basic_cost_without_attributes sigma unpacker modelspec data segmentor
    evaluator metric keep_stack e stk a' t clk k :
  let cf := cf_basic_cost sigma unpacker modelspec data segmentor evaluator
              metric keep_stack (World e (Attrs None None stk) a' t clk k) in
  let fb := fit_basic.basic_cost sigma unpacker modelspec data segmentor
              evaluator metric (World e a' (Attrs None None stk) t clk k) in
  ((fst cf, wenv (snd cf)) =
     scored' stk sigma unpacker modelspec data segmentor evaluator metric
       keep_stack e /\
   counter (cf_attrs (snd cf)) = None /\
   error (cf_attrs (snd cf)) = None /\
   observations (trace (snd cf)) = observations t) /\
  ((fst fb, wenv (snd fb)) =
     scored' None sigma unpacker modelspec data segmentor evaluator metric
       false e /\
   counter (fb_attrs (snd fb)) = None /\
   error (fb_attrs (snd fb)) = None /\
   observations (trace (snd fb)) = observations t).
Proof.
  split; (split; [|split]).
  - apply (cf_basic_cost_scored sigma unpacker modelspec data segmentor
             evaluator metric keep_stack
             (World e (Attrs None None stk) a' t clk k)).
  - by apply cf_basic_cost_no_attrs.
  - by apply cf_basic_cost_no_attrs.
  - apply (fb_basic_cost_scored sigma unpacker modelspec data segmentor
             evaluator metric (World e a' (Attrs None None stk) t clk k)).
  - by apply fb_basic_cost_no_attrs.
  - by apply fb_basic_cost_no_attrs.
Qed.

Lemma calls_app (t1 t2 : list event) :
  calls (t1 ++ t2) = calls t1 ++ calls t2.
Proof. apply omap_app. Qed.

Ltac calls_of_trace :=
  repeat rewrite <- app_assoc; rewrite calls_app; simpl; try reflexivity.

Ltac not_called :=
  let Hin := fresh "Hin" in
  intros Hin; exfalso;
  repeat (apply elem_of_cons in Hin as [Hin|Hin]; [discriminate Hin|]);
  by apply elem_of_nil in Hin.

(** C3 (as the code has it): with [keep_stack], the collaborators are
    called in the order unpacker, segmentor, then (when a cache exists)
    last_matching_phi and copy_stack_data, then evaluator, then metric: the
    dataset is segmented before the reusable prefix is determined.  A call
    that raises stops the sequence; a call that returns has made all of
    them.  The cache is updated between evaluation and scoring: once the
    metric has been called, the cache holds the stack of the evaluated
    data, also when the metric raises. *)
Theorem basic_cost_step_order sigma unpacker modelspec data segmentor
    evaluator metric w :
  let r := cf_basic_cost sigma unpacker modelspec data segmentor evaluator
             metric true w in
  exists cs,
    calls (trace (snd r)) = calls (trace w) ++ cs /\
    cs `prefix_of` code_order (stack (cf_attrs w)) /\
    (forall err, fst r = Ok err -> cs = code_order (stack (cf_attrs w))) /\
    (Metric ∈ cs ->
     exists d e',
       evaluated_subset last_matching_phi copy_stack_data
         (stack (cf_attrs w)) sigma unpacker modelspec data segmentor
         evaluator true (wenv w) = (Ok d, e') /\
       is_Some (data_stack d) /\
       stack (cf_attrs (snd r)) = data_stack d).
Proof.
  unfold cost_functions.basic_cost, evaluated_subset, code_order.
  run.
  all: eexists; (split; [calls_of_trace|]).
  all: split; [by eexists|].
  all: split; [try done|].
  all: try not_called.
  all: intros _; do 2 eexists; split; [reflexivity|].
  all: match goal with Hs : data_stack _ = Some _ |- _ => rewrite Hs end.
  all: by split; [eexists|].
Qed.

End CostTheorems.

(** ** The two cost functions side by side *)

Section TwoCostFunctions.
Context `{Domain}.

Variable last_matching_phi : loc -> loc -> CM Z.
Variable copy_stack_data : Data -> Stack -> Z -> loc -> CM Data.

(** With an evaluator whose keywords default to [None] and [False] and a
    [progress_fun] that only returns, the functions of [callables] are the
    ones above. *)
Lemma cf_callable_plain sigma unpacker modelspec data segmentor evaluator
    metric keep_stack w :
  callables.cost_functions.basic_cost last_matching_phi copy_stack_data
    (ret tt) sigma unpacker modelspec data segmentor
    (callables.with_defaults evaluator) metric keep_stack w =
  cost_functions.basic_cost last_matching_phi copy_stack_data sigma unpacker
    modelspec data segmentor evaluator metric keep_stack w.
Proof.
  unfold callables.cost_functions.basic_cost, cost_functions.basic_cost,
    callables.with_defaults.
  destruct w. run.
Qed.

Lemma fb_callable_plain sigma unpacker modelspec data segmentor evaluator
    metric w :
  callables.fit_basic.basic_cost (ret tt) sigma unpacker modelspec data
    segmentor (callables.with_defaults evaluator) metric w =
  fit_basic.basic_cost sigma unpacker modelspec data segmentor evaluator
    metric w.
Proof.
  unfold callables.fit_basic.basic_cost, fit_basic.basic_cost,
    callables.with_defaults.
  destruct w. run.
Qed.

(** C9 (as the code has it): cost_functions.py calls the evaluator with
    [start=None, keep_stack=False] when [keep_stack] is false, fit_basic.py
    calls it with two arguments only, and both call [progress_fun] when a
    report is due, every 500 and every 1000 calls.  When the evaluator
    answers the call with two arguments as it answers the call with
    [start=None, keep_stack=False], and [progress_fun] returns whenever it
    is called, the two functions, run on the same collaborators'
    environment and identical attributes, return the same value and end
    with identical counter and last-error attributes. *)
Theorem basic_cost_versions_agree progress_fun sigma unpacker modelspec data
    segmentor (evaluator : callables.evaluator_fn) metric e a a1 a2 t1 t2
    clk1 clk2 k1 k2 :
  (forall d s e0,
     callables.positional evaluator d s e0 =
     callables.keywords evaluator d s None false e0) ->
  (forall e0, fst (progress_fun e0) = Ok tt) ->
  let cf := callables.cost_functions.basic_cost last_matching_phi
              copy_stack_data progress_fun sigma unpacker modelspec data
              segmentor evaluator metric false (World e a a1 t1 clk1 k1) in
  let fb := callables.fit_basic.basic_cost progress_fun sigma unpacker
              modelspec data segmentor evaluator metric
              (World e a2 a t2 clk2 k2) in
  fst cf = fst fb /\
  counter (cf_attrs (snd cf)) = counter (fb_attrs (snd fb)) /\
  error (cf_attrs (snd cf)) = error (fb_attrs (snd fb)).
Proof.
  intros Hdef Hret.
  unfold callables.cost_functions.basic_cost, callables.fit_basic.basic_cost.
  destruct a as [c er st].
  unfold bind, call, lift, emit, modify, getattr, setattr, ret, raise.
  simpl.
  destruct (unpacker sigma e) as [[spec|ex] e1]; simpl; [|done].
  destruct (segmentor data e1) as [[d|ex] e2]; simpl; [|done].
  rewrite Hdef.
  destruct (callables.keywords evaluator d spec None false e2)
    as [[d'|ex] e3]; simpl; [|done].
  destruct (metric d' e3) as [[err|ex] e4]; simpl; [|done].
  destruct c as [n|]; simpl.
  - destruct ((n + 1) mod 500 =? 0)%Z, ((n + 1) mod 1000 =? 0)%Z; simpl.
    all: try (pose proof (Hret e4) as Hp;
              destruct (progress_fun e4) as [[[]|ex] e5]; simpl in Hp;
              [|done]; simpl).
    all: by destruct er.
  - by destruct er.
Qed.

End TwoCostFunctions.

Section ResumeIndex.
Context `{Domain}.

Variable copy_stack_data : Data -> Stack -> Z -> loc -> CM Data.

(** With [keep_stack] and a cache present, the specification compared
    with the unpacked one is the [modelspec] argument of the call, not the
    specification of the call that filled the cache.  The evaluator receives as resume index the
    number [k] of leading positions at which the two hold identical
    parameter values, one past the index of the last such module: the call
    runs exactly as with an evaluator that is given [k]. *)
Theorem basic_cost_resume_index sigma unpacker modelspec data segmentor
    evaluator metric w stk u e1 ds e2 ms us :
  stack (cf_attrs w) = Some stk ->
  unpacker sigma (wenv w) = (Ok u, e1) ->
  segmentor data e1 = (Ok ds, e2) ->
  fst (read_spec modelspec e2) = Ok ms ->
  fst (read_spec u e2) = Ok us ->
  let k := matching_prefix ms us in
  cost_functions.basic_cost last_matching_phi copy_stack_data sigma unpacker
    modelspec data segmentor evaluator metric true w =
  cost_functions.basic_cost last_matching_phi copy_stack_data sigma unpacker
    modelspec data segmentor
    (fun d s _ ks => evaluator d s (Some (Z.of_nat k)) ks) metric true w /\
  (forall i, (i < k)%nat ->
     exists m u', ms !! i = Some m /\ us !! i = Some u' /\ phi m = phi u') /\
  (forall m u', ms !! k = Some m -> us !! k = Some u' -> phi m <> phi u').
Proof.
  intros Hstk Hu Hs Hms Hus k.
  split; [|split].
  - assert (last_matching_phi modelspec u e2 = (Ok (Z.of_nat k - 1)%Z, e2))
      as Hl.
    { unfold last_matching_phi, bind.
      pose proof (read_spec_pure modelspec e2) as P1.
      pose proof (read_spec_pure u e2) as P2.
      destruct (read_spec modelspec e2) as [r1 x1]; simpl in *; subst.
      destruct (read_spec u e2) as [r2 x2]; simpl in *; subst. done. }
    unfold cost_functions.basic_cost, bind, call, getattr; simpl.
    rewrite Hu; simpl. rewrite Hs; simpl. rewrite Hstk; simpl.
    rewrite Hl; simpl.
    destruct (copy_stack_data ds stk (Z.of_nat k - 1)%Z modelspec e2)
      as [[d|ex] e3]; simpl; [|reflexivity].
    match goal with
    | |- context [evaluator d u (Some ?z)] =>
        replace z with (Z.of_nat k) by lia
    end.
    reflexivity.
  - intros i Hi. by apply matching_prefix_agree.
  - intros m u'. apply matching_prefix_stop.
Qed.

End ResumeIndex.

(** ** The cost function on the concrete instance *)

Section ExampleCost.
Import Example.

(** The bound specification holds a = 1, b = 2.  A
    first call with (5, 2) fills the cache; the next call, with (5, 3),
    agrees with that last call's specification on the first module, yet the
    evaluator is given resume index 0, the count against the bound
    specification. *)
Lemma resume_index_not_against_last_call :
  let w1 := snd (cost_with_cache [5; 2]%Z w_start) in
  stack (cf_attrs w1) = Some tt /\
  fst (cost_with_cache [5; 3]%Z w1) = Ok (Some 0%Z) /\
  match unpack_spec [m_fir; m_lvl_phi] [5; 2]%Z,
        unpack_spec [m_fir; m_lvl_phi] [5; 3]%Z with
  | Ok last, Ok new => matching_prefix last new = 1%nat
  | _, _ => False
  end.
Proof. vm_compute. repeat split. Qed.

Lemma basic_cost_resume_index_witness :
  cost_with_cache [5; 3]%Z (snd (cost_with_cache [5; 2]%Z w_start)) =
  cost_functions.basic_cost last_matching_phi copy_stack_data [5; 3]%Z
    (unpacker 1%positive) 1%positive None segmentor
    (fun d s _ ks => evaluate d s (Some 0%Z) ks) metric true
    (snd (cost_with_cache [5; 2]%Z w_start)).
Proof.
  refine (proj1 (basic_cost_resume_index copy_stack_data [5; 3]%Z
            (unpacker 1%positive) 1%positive None segmentor evaluate metric
            (snd (cost_with_cache [5; 2]%Z w_start)) tt _ _ None _
            [m_fir; m_lvl_phi]
            [with_phi m_fir (Some {[ "a" := [5%Z] ]});
             with_phi m_lvl_phi (Some {[ "b" := [3%Z] ]})]
            _ _ _ _ _)).
  - vm_compute. reflexivity.
  - vm_compute. reflexivity.
  - vm_compute. reflexivity.
  - vm_compute. reflexivity.
  - vm_compute. reflexivity.
Defined.

(** C3, counterexample: with a cache present the dataset is segmented
    before the reusable prefix is determined, not after. *)
Lemma prefix_determined_after_segmenting :
  let cs := calls (trace (snd (cost_with_cache [5; 3]%Z w_cached))) in
  cs = [Unpacker; Segmentor; LastMatchingPhi; CopyStackData; Evaluator;
        Metric] /\
  called_before LastMatchingPhi Segmentor cs = false /\
  called_before Segmentor LastMatchingPhi cs = true.
Proof. vm_compute. repeat split. Qed.

Lemma basic_cost_step_order_witness :
  calls (trace (snd (cost_with_cache [5; 3]%Z w_cached))) =
  [Unpacker; Segmentor; LastMatchingPhi; CopyStackData; Evaluator; Metric].
Proof.
  destruct (basic_cost_step_order last_matching_phi copy_stack_data
              [5; 3]%Z (unpacker 1%positive) 1%positive None segmentor
              evaluate metric w_cached) as (cs & Hc & _ & Hok & _).
  unfold cost_with_cache. rewrite Hc. rewrite (Hok (Some 0%Z)); [reflexivity|].
  vm_compute. reflexivity.
Defined.

End ExampleCost.

(** ** The cost function with an evaluator that resumes *)

Section ExampleStaleCache.
#[local] Existing Instance ExampleResume.domain.
Import ExampleResume.

(** C2: the code at the failing input.  The bound specification holds
    a = 1, b = 2.  A first call with (5, 2) returns 7 and leaves the
    outputs (5, 7) in the cache.  The next call, with (1, 3), differs from
    that call on the first module; the code counts the prefix against the
    bound specification, finds the first module unchanged, and resumes at
    index 1 from the cached output 5: it returns 8, where the evaluation
    of (1, 3) from the start gives 4. *)
Lemma stale_cache_resume :
  let w1 := snd (cost [5; 2]%Z w0) in
  fst (cost [5; 2]%Z w0) = Ok 7%Z /\
  stack (cf_attrs w1) = Some [5; 7]%Z /\
  fst (cost [1; 3]%Z w1) = Ok 8%Z /\
  fst (cost [1; 3]%Z w0) = Ok 4%Z /\
  match unpack_spec [m_a; m_b] [5; 2]%Z, unpack_spec [m_a; m_b] [1; 3]%Z with
  | Ok last, Ok new =>
      matching_prefix last new = 0%nat /\
      matching_prefix [m_a; m_b] new = 1%nat
  | _, _ => False
  end.
Proof. vm_compute. repeat split. Qed.

End ExampleStaleCache.

(** ** The two cost functions on the concrete instance *)

Section ExampleTwoCostFunctions.
Import Example ExampleCallables.

(** C9, counterexample: the two functions differ on the same input and
    attributes.  An evaluator whose [start] defaults to 1 is started from 1
    by fit_basic.py and from [None] by cost_functions.py.  And one call
    short of call 500, with a [progress_fun] that raises, cost_functions.py
    raises where fit_basic.py, whose report is not due, returns. *)
Lemma basic_cost_versions_differ :
  fst (cf_cost quiet_progress_fun odd_evaluator [5; 3]%Z w_499) = Ok None /\
  fst (fb_cost quiet_progress_fun odd_evaluator [5; 3]%Z w_499) =
    Ok (Some 1%Z) /\
  fst (cf_cost failing_progress_fun plain_evaluator [5; 3]%Z w_499) =
    Raise (External "no display") /\
  fst (fb_cost failing_progress_fun plain_evaluator [5; 3]%Z w_499) =
    Ok None.
Proof. vm_compute. repeat split. Qed.

Lemma basic_cost_versions_agree_witness :
  fst (cf_cost quiet_progress_fun plain_evaluator [5; 3]%Z w_499) =
  fst (fb_cost quiet_progress_fun plain_evaluator [5; 3]%Z w_499).
Proof.
  destruct (@basic_cost_versions_agree domain last_matching_phi
              copy_stack_data
              quiet_progress_fun [5; 3]%Z (unpacker 1%positive) 1%positive
              None segmentor plain_evaluator metric
              (wenv w_499) (cf_attrs w_499) (fb_attrs w_499)
              (cf_attrs w_499) [] [] (fun _ => 0%Z) (fun _ => 0%Z)
              0%nat 0%nat
              (fun _ _ _ => eq_refl) (fun _ => eq_refl)) as [Hv _].
  exact Hv.
Defined.

End ExampleTwoCostFunctions.

(** ** What the steps of [fit_basic] leave unchanged *)

Section Preserves.
Context `{Domain}.

#[local] Instance same_preorder {V} (view : world -> V) :
  PreOrder (same view).
Proof.
  split.
  - by intros w.
  - intros w1 w2 w3 H12 H23. unfold same in *. congruence.
Qed.

#[local] Instance counts_preorder (f : fobj) : PreOrder (counts f).
Proof.
  split.
  - intros w n Hn. rewrite Hn. f_equal. lia.
  - intros w1 w2 w3 H12 H23 n Hn.
    rewrite (H23 _ (H12 _ Hn)). f_equal. lia.
Qed.

Lemma preserves_bind {A B} (R : world -> world -> Prop) `{!PreOrder R}
    (c : M A) (k : A -> M B) :
  preserves R c -> (forall a, preserves R (k a)) -> preserves R (bind c k).
Proof.
  intros Hc Hk w. unfold bind. specialize (Hc w).
  destruct (c w) as [[a|e] w1]; simpl in *; [|done].
  etrans; [exact Hc|apply Hk].
Qed.

Lemma preserves_ret {A} (R : world -> world -> Prop) `{!Reflexive R}
    (a : A) :
  preserves R (ret a).
Proof. intros w. simpl. reflexivity. Qed.

Lemma preserves_raise {A} (R : world -> world -> Prop) `{!Reflexive R}
    (e : exn) :
  preserves R (raise (A := A) e).
Proof. intros w. simpl. reflexivity. Qed.

Lemma preserves_run_fitter (R : world -> world -> Prop) `{!PreOrder R}
    (t : fitter_run) (cost_fn : list num -> M Score) :
  (forall sigma, preserves R (cost_fn sigma)) ->
  preserves R (run_fitter t cost_fn).
Proof.
  intros Hc. induction t as [s|e|s k IH]; simpl.
  - intros w. simpl. reflexivity.
  - intros w. simpl. reflexivity.
  - apply (preserves_bind R); [apply Hc|]. intros err. apply IH.
Qed.

Lemma preserves_call {V A} (view : world -> V) (c : callee) (f : CM A) :
  (forall e w, view (set_wenv e (add_event (Call c) w)) = view w) ->
  preserves (same view) (call c f).
Proof.
  intros Hv w. unfold call, same.
  destruct (f (wenv (add_event (Call c) w))) as [r e]. apply Hv.
Qed.

Lemma preserves_lift {V A} (view : world -> V) (f : CM A) :
  (forall e w, view (set_wenv e w) = view w) ->
  preserves (same view) (lift f).
Proof.
  intros Hv w. unfold lift, same. destruct (f (wenv w)) as [r e]. apply Hv.
Qed.

Lemma preserves_emit {V} (view : world -> V) (ev : event) :
  (forall w, view (add_event ev w) = view w) ->
  preserves (same view) (emit ev).
Proof. intros Hv w. apply Hv. Qed.

Lemma evaluations_app (t1 t2 : list event) :
  evaluations (t1 ++ t2) = (evaluations t1 + evaluations t2)%nat.
Proof. unfold evaluations. by rewrite List.filter_app, length_app. Qed.

End Preserves.

(** ** Views that the steps of [fit_basic] leave alone *)

Section Quiet.
Context `{Domain}.

Lemma preserves_weaken {A} (R R' : world -> world -> Prop) (c : M A) :
  (forall w w', R w w' -> R' w w') -> preserves R c -> preserves R' c.
Proof. intros HR Hc w. apply HR, Hc. Qed.

Lemma quiet_call {V A} (view : world -> V) (c : callee) (f : CM A) :
  quiet_view view -> preserves (same view) (call c f).
Proof.
  intros [He Hv]. apply preserves_call. intros e w.
  rewrite He. by apply Hv.
Qed.

Lemma quiet_lift {V A} (view : world -> V) (f : CM A) :
  quiet_view view -> preserves (same view) (lift f).
Proof. intros [He Hv]. by apply preserves_lift. Qed.

Lemma quiet_emit {V} (view : world -> V) (ev : event) :
  quiet_view view -> is_evaluation ev = false ->
  preserves (same view) (emit ev).
Proof. intros [He Hv] Hev. apply preserves_emit. intros w. by apply Hv. Qed.

Lemma quiet_time_time {V} (view : world -> V) :
  ticks_blind view -> preserves (same view) time_time.
Proof. intros Hv w. apply Hv. Qed.

End Quiet.

Ltac keep :=
  repeat first
    [ apply preserves_ret; apply _
    | apply preserves_raise; apply _
    | apply quiet_call; assumption
    | apply quiet_lift; assumption
    | apply quiet_emit; [assumption|reflexivity]
    | apply quiet_time_time; assumption
    | match goal with
      | |- preserves _ (match ?x with _ => _ end) => destruct x
      | |- preserves _ (if ?x then _ else _) => destruct x
      end
    | apply (preserves_bind _); [|intros ?] ].

(** ** The attributes of the cost functions across one fit *)

Section FitAttributes.
Context `{Domain}.

Variable evaluate : Data -> loc -> option Z -> bool -> CM Data.
Variable copy_stack_data : Data -> Stack -> Z -> loc -> CM Data.

#[local] Existing Instance same_preorder.
#[local] Existing Instance counts_preorder.

Lemma ensure_phi_quiet {V} (view : world -> V) modelspec items :
  quiet_view view ->
  forall i, preserves (same view) (fit_basic.ensure_phi modelspec i items).
Proof.
  intros Hq. induction items as [|m items IH]; intros i; simpl.
  - keep.
  - apply (preserves_bind _); [keep|]. intros d.
    apply (preserves_bind _); [keep|]. intros _. apply IH.
Qed.

Lemma fit_prepare_quiet {V} (view : world -> V) modelspec mapper
    require_phi :
  quiet_view view -> ticks_blind view ->
  preserves (same view) (fit_basic.fit_prepare modelspec mapper require_phi).
Proof.
  intros Hq Ht. unfold fit_basic.fit_prepare.
  apply (preserves_bind _); [keep|]. intros start_time.
  apply (preserves_bind _).
  { destruct require_phi; [|keep].
    apply (preserves_bind _); [keep|]. intros items.
    by apply ensure_phi_quiet. }
  intros _. keep.
Qed.

Lemma fit_finish_quiet {V} (view : world -> V) start_time unpacker
    improved_sigma metaname :
  quiet_view view -> ticks_blind view ->
  preserves (same view)
    (fit_basic.fit_finish start_time unpacker improved_sigma metaname).
Proof. intros Hq Ht. unfold fit_basic.fit_finish. keep. Qed.

Lemma cache_view_quiet : quiet_view cache_view /\ ticks_blind cache_view.
Proof. unfold quiet_view, ticks_blind. split; [split|]; reflexivity. Qed.

Lemma counter_view_quiet f :
  quiet_view (counter_view f) /\ ticks_blind (counter_view f).
Proof.
  unfold quiet_view, ticks_blind. split; [split|].
  - intros e w. destruct f; reflexivity.
  - intros ev w Hev. unfold counter_view.
    replace (evaluations (trace (add_event ev w)))
      with (evaluations (trace w)).
    + destruct f; reflexivity.
    + simpl. rewrite evaluations_app. unfold evaluations at 3. simpl.
      rewrite Hev. simpl. lia.
  - intros w. destruct f; reflexivity.
Qed.

Lemma same_counter_counts f w w' : same (counter_view f) w w' -> counts f w w'.
Proof.
  unfold same, counter_view. intros Hs n Hn. inversion Hs as [[Hc He]].
  rewrite Hc, He, Hn. f_equal. lia.
Qed.

Lemma apply_cost_keeps_cache f sigma unpacker modelspec data segmentor
    evaluator metric :
  preserves (same cache_view)
    (fit_basic.apply_cost_function copy_stack_data f sigma unpacker
       modelspec data segmentor evaluator metric).
Proof.
  intros w. unfold same, cache_view.
  destruct f; unfold fit_basic.apply_cost_function,
    cost_functions.basic_cost, fit_basic.basic_cost; run;
    repeat match goal with
           | Hs : error _ = _ |- _ => rewrite Hs
           end; done.
Qed.

Lemma apply_cost_counts f sigma unpacker modelspec data segmentor
    evaluator metric :
  preserves (counts f)
    (fit_basic.apply_cost_function copy_stack_data f sigma unpacker
       modelspec data segmentor evaluator metric).
Proof.
  intros w n. 
  destruct f; unfold fit_basic.apply_cost_function,
    cost_functions.basic_cost, fit_basic.basic_cost; run;
    repeat rewrite evaluations_app; simpl; intros Hn; simplify_eq;
    try rewrite Hn; f_equal; unfold evaluations; simpl; lia.
Qed.

Lemma attrs_view_quiet : quiet_view attrs_view /\ ticks_blind attrs_view.
Proof. unfold quiet_view, ticks_blind. split; [split|]; reflexivity. Qed.

Lemma call_fitter_preserves (R : world -> world -> Prop) `{!PreOrder R}
    (t : fitter_run) (cost_fn : list num -> M Score) :
  preserves R (emit (Call Fitter)) ->
  (forall sigma, preserves R (cost_fn sigma)) ->
  preserves R (call_fitter t cost_fn).
Proof.
  intros He Hc. unfold call_fitter.
  apply (preserves_bind R); [done|]. intros _.
  by apply preserves_run_fitter.
Qed.

Lemma fit_optimize_keeps_cache data modelspec fitter f segmentor metric
    packer unpacker :
  preserves (same cache_view)
    (fit_basic.fit_optimize evaluate copy_stack_data data modelspec fitter f
       segmentor metric packer unpacker).
Proof.
  destruct cache_view_quiet as [Hq Ht]. unfold fit_basic.fit_optimize.
  apply (preserves_bind _); [by intros w; destruct f|]. intros _.
  apply (preserves_bind _); [keep|]. intros sigma.
  apply call_fitter_preserves; [apply _|keep|].
  intros s. apply apply_cost_keeps_cache.
Qed.

Lemma fit_phases_keep_cache data modelspec fitter cost_function segmentor
    mapper metric metaname require_phi :
  preserves (same cache_view)
    (fit_basic.fit_phases evaluate copy_stack_data data modelspec fitter
       cost_function segmentor mapper metric metaname require_phi).
Proof.
  destruct cache_view_quiet as [Hq Ht]. unfold fit_basic.fit_phases.
  apply (preserves_bind _); [by apply fit_prepare_quiet|].
  intros [start_time [packer unpacker]].
  apply (preserves_bind _); [apply fit_optimize_keeps_cache|].
  intros improved_sigma. by apply fit_finish_quiet.
Qed.

Lemma fit_optimize_counts data modelspec fitter f segmentor metric packer
    unpacker w improved_sigma w' :
  fit_basic.fit_optimize evaluate copy_stack_data data modelspec fitter f
    segmentor metric packer unpacker w = (Ok improved_sigma, w') ->
  counter (get_attrs f w') =
    Some (Z.of_nat (evaluations (trace w')) - Z.of_nat (evaluations (trace w)))%Z.
Proof.
  destruct (counter_view_quiet f) as [Hq Ht].
  unfold fit_basic.fit_optimize. intros Hrun.
  apply bind_ok_inv in Hrun as ([] & w1 & Hset & Hrun).
  assert (counts f w1 w') as Hcount.
  { pose proof (preserves_bind (counts f)
                  (call Packer (packer modelspec))
                  (fun sigma =>
                     call_fitter (fitter sigma)
                       (fun sigma =>
                          fit_basic.apply_cost_function copy_stack_data f
                            sigma unpacker modelspec data segmentor evaluate
                            metric))) as Hp.
    unfold preserves in Hp at 3. specialize (fun H1 H2 => Hp H1 H2 w1).
    rewrite Hrun in Hp. apply Hp.
    - eapply preserves_weaken; [apply same_counter_counts|keep].
    - intros sigma. apply call_fitter_preserves; [apply _| |].
      + eapply preserves_weaken; [apply same_counter_counts|keep].
      + intros s. apply apply_cost_counts. }
  unfold setattr, modify in Hset. inversion Hset; subst w1. clear Hset.
  rewrite (Hcount 0%Z).
  - f_equal. destruct f; simpl; lia.
  - by destruct f.
Qed.

(** C4 (as the code has it): a call to [fit_basic] sets the call counter of
    the cost function it uses to 0 before the minimizer runs, and resets
    nothing else.  When the search starts, the last-error and cache
    attributes of both cost functions are those found on entry; when
    [fit_basic] ends, the cache attributes are still those found on entry
    (nothing discards them) and a last-error attribute is present exactly
    when it was present on entry.  After a fit that returns, the counter
    holds the number of cost evaluations completed during that fit. *)
Theorem fit_resets_only_counter data modelspec fitter cost_function segmentor
    mapper metric metaname require_phi w :
  let r := fit_basic.fit_basic evaluate copy_stack_data data modelspec fitter
             cost_function segmentor mapper metric metaname require_phi w in
  let f := fit_basic.default_cost cost_function in
  (stack (cf_attrs (snd r)) = stack (cf_attrs w) /\
   stack (fb_attrs (snd r)) = stack (fb_attrs w) /\
   has (error (cf_attrs (snd r))) = has (error (cf_attrs w)) /\
   has (error (fb_attrs (snd r))) = has (error (fb_attrs w))) /\
  (forall start_time pu w1,
     fit_basic.fit_prepare modelspec mapper require_phi w =
       (Ok (start_time, pu), w1) ->
     let w2 := snd (setattr f (set_counter 0) w1) in
     counter (get_attrs f w2) = Some 0%Z /\
     error (cf_attrs w2) = error (cf_attrs w) /\
     error (fb_attrs w2) = error (fb_attrs w) /\
     stack (cf_attrs w2) = stack (cf_attrs w) /\
     stack (fb_attrs w2) = stack (fb_attrs w)) /\
  (forall rs,
     fst r = Ok rs ->
     counter (get_attrs f (snd r)) =
       Some (Z.of_nat (evaluations (trace (snd r)))
             - Z.of_nat (evaluations (trace w)))%Z).
Proof.
  intros r f. subst r. rewrite fit_basic_phases. split; [|split].
  - pose proof (fit_phases_keep_cache data modelspec fitter cost_function
                  segmentor mapper metric metaname require_phi w) as Hk.
    unfold same, cache_view in Hk. by inversion Hk.
  - intros start_time pu w1 Hprep w2.
    destruct attrs_view_quiet as [Hq Ht].
    pose proof (fit_prepare_quiet attrs_view modelspec mapper require_phi
                  Hq Ht w) as Hk.
    rewrite Hprep in Hk. unfold same, attrs_view in Hk. simpl in Hk.
    injection Hk as Hcf Hfb. subst w2.
    destruct f; simpl; rewrite ?Hcf, ?Hfb; done.
  - intros rs Hok.
    destruct (fit_basic.fit_phases evaluate copy_stack_data data modelspec
                fitter cost_function segmentor mapper metric metaname
                require_phi w) as [res w'] eqn:Hrun.
    simpl in *. subst res. unfold fit_basic.fit_phases in Hrun.
    apply bind_ok_inv in Hrun as ([st [packer unpacker]] & w1 & Hprep & Hrun).
    apply bind_ok_inv in Hrun as (imp & w2 & Hopt & Hfin).
    destruct (counter_view_quiet f) as [Hq Ht].
    pose proof (fit_prepare_quiet (counter_view f) modelspec mapper
                  require_phi Hq Ht w) as H1.
    rewrite Hprep in H1.
    pose proof (fit_finish_quiet (counter_view f) st unpacker imp metaname
                  Hq Ht w2) as H2.
    rewrite Hfin in H2.
    unfold same, counter_view in H1, H2. simpl in H1, H2.
    injection H1 as _ He1. injection H2 as Hc2 He2.
    rewrite Hc2, He2, <- He1.
    by apply fit_optimize_counts in Hopt.
Qed.

End FitAttributes.

(** ** Marking, metadata and deep copies in the store *)

Section FinishFacts.
Context `{Domain}.

Lemma alter_dict (g : obj -> obj) (h : gmap loc obj) l o :
  h !! l = Some o -> <[l := g o]> h = alter g l h.
Proof.
  intros Hl. apply map_eq. intros l'.
  destruct (decide (l = l')) as [<-|Hne].
  - by rewrite lookup_insert_eq, lookup_alter_eq, Hl.
  - by rewrite lookup_insert_ne, lookup_alter_ne.
Qed.

Lemma heap_fit_mode_lookup b items h l :
  heap_fit_mode b items h !! l =
  if decide (l ∈ items) then obj_fit_mode b <$> h !! l else h !! l.
Proof.
  unfold heap_fit_mode. revert h.
  induction items as [|l0 items IH]; intros h.
  - destruct (decide (l ∈ [])) as [Hin|_]; [|done].
    by apply elem_of_nil in Hin.
  - cbn [foldl]. rewrite IH.
    destruct (decide (l ∈ items)) as [Hin|Hnin];
      destruct (decide (l ∈ l0 :: items)) as [Hin'|Hnin'].
    + destruct (decide (l = l0)) as [->|Hne].
      * rewrite lookup_alter_eq.
        by destruct (h !! l0) as [[?|m]|].
      * by rewrite lookup_alter_ne.
    + exfalso. apply Hnin'. by apply list_elem_of_further.
    + apply elem_of_cons in Hin' as [->|?]; [|done].
      by rewrite lookup_alter_eq.
    + rewrite lookup_alter_ne; [done|].
      intros ->. apply Hnin'. apply list_elem_of_here.
Qed.

Lemma iter_fit_mode_run b items :
  forall e e',
    iterM (fun l =>
             let* m := deref_dict l in
             store l (ODict (with_fit_mode b m))) items e = (Ok tt, e') ->
    Forall (is_dict (heap e)) items /\
    heap e' = heap_fit_mode b items (heap e) /\
    ext e' = ext e.
Proof.
  induction items as [|l items IH]; intros e e' Hrun; simpl in Hrun.
  - inversion Hrun; subst. by repeat split.
  - apply bind_ok_inv in Hrun as ([] & e1 & Hstep & Hrun).
    apply bind_ok_inv in Hstep as (m & e0 & Hd & Hst).
    unfold deref_dict in Hd.
    destruct (heap e !! l) as [[?|m0]|] eqn:Hl; try done.
    inversion Hd; subst e0 m0. clear Hd.
    unfold store, modify in Hst. inversion Hst; subst e1. clear Hst.
    apply IH in Hrun as (Hall & Hh & Hx). simpl in *.
    change (ODict (with_fit_mode b m)) with (obj_fit_mode b (ODict m))
      in Hall, Hh.
    rewrite (alter_dict (obj_fit_mode b) _ _ _ Hl) in Hall, Hh.
    split; [|split; [|done]].
    + constructor; [by exists m|].
      eapply Forall_impl; [exact Hall|]. intros l' [m' Hl'].
      unfold is_dict, dict_at in *.
      destruct (decide (l = l')) as [<-|Hne]; [by eauto|].
      rewrite lookup_alter_ne in Hl' by done. eauto.
    + exact Hh.
Qed.

Lemma set_fit_mode_run b L e e' :
  set_fit_mode b L e = (Ok tt, e') ->
  exists items,
    heap e !! L = Some (OList items) /\
    Forall (is_dict (heap e)) items /\
    heap e' = heap_fit_mode b items (heap e) /\
    ext e' = ext e.
Proof.
  unfold set_fit_mode. intros Hrun.
  apply bind_ok_inv in Hrun as (items & e0 & Hd & Hrun).
  unfold deref_list in Hd.
  destruct (heap e !! L) as [[its|?]|] eqn:HL; try done.
  inversion Hd; subst e0 its. clear Hd.
  exists items. split; [done|]. by apply iter_fit_mode_run.
Qed.

Lemma heap_fit_mode_spec b L items ms h :
  spec_in h L items ms ->
  spec_in (heap_fit_mode b items h) L items (with_fit_mode b <$> ms).
Proof.
  intros [HL Hms]. split.
  - rewrite heap_fit_mode_lookup.
    destruct (decide (L ∈ items)) as [Hin|_]; [|done].
    apply list_elem_of_lookup_1 in Hin as [i Hi].
    eapply Forall2_lookup_l in Hms as (m & _ & Hm); [|exact Hi].
    unfold dict_at in Hm. congruence.
  - apply Forall2_fmap_r.
    apply Forall2_same_length_lookup_2; [by eapply Forall2_length|].
    intros i l m Hi Hm.
    pose proof (Forall2_lookup_lr _ _ _ _ _ _ Hms Hi Hm) as Hd.
    unfold dict_at in *. rewrite heap_fit_mode_lookup.
    rewrite decide_True by (by eapply list_elem_of_lookup_2).
    by rewrite Hd.
Qed.

Lemma set_modelspec_metadata_run L k v e e' :
  set_modelspec_metadata L k v e = (Ok tt, e') ->
  exists items l0 m,
    heap e !! L = Some (OList items) /\
    items !! 0%nat = Some l0 /\
    dict_at (heap e) l0 m /\
    heap e' = alter (obj_meta k v) l0 (heap e) /\
    ext e' = ext e.
Proof.
  unfold set_modelspec_metadata. intros Hrun.
  apply bind_ok_inv in Hrun as (l0 & e0 & Hg & Hrun).
  unfold list_getitem in Hg.
  apply bind_ok_inv in Hg as (items & e1 & Hd & Hg).
  unfold deref_list in Hd.
  destruct (heap e !! L) as [[its|?]|] eqn:HL; try done.
  inversion Hd; subst e1 its. clear Hd.
  destruct (items !! 0%nat) as [l|] eqn:H0; [|done].
  inversion Hg; subst e0 l. clear Hg.
  apply bind_ok_inv in Hrun as (m & e2 & Hd & Hst).
  unfold deref_dict in Hd.
  destruct (heap e !! l0) as [[?|m0]|] eqn:Hl; try done.
  inversion Hd; subst e2 m0. clear Hd.
  unfold store, modify in Hst. inversion Hst; subst e'. simpl.
  exists items, l0, m. repeat split; try done.
  exact (alter_dict (obj_meta k v) (heap e) l0 (ODict m) Hl).
Qed.

Lemma is_dict_alter_meta k v l0 h l :
  is_dict h l -> is_dict (alter (obj_meta k v) l0 h) l.
Proof.
  intros [m Hm]. unfold is_dict, dict_at in *.
  destruct (decide (l0 = l)) as [->|Hne].
  - rewrite lookup_alter_eq, Hm. simpl. eauto.
  - rewrite lookup_alter_ne by done. eauto.
Qed.

Lemma is_dict_fit_mode b items h l :
  is_dict h l -> is_dict (heap_fit_mode b items h) l.
Proof.
  intros [m Hm]. unfold is_dict, dict_at in *.
  rewrite heap_fit_mode_lookup, Hm.
  destruct (decide (l ∈ items)); simpl; eauto.
Qed.

Lemma dicts_values h items :
  Forall (is_dict h) items -> exists ms, Forall2 (dict_at h) items ms.
Proof.
  induction 1 as [|l items [m Hm] _ [ms Hms]].
  - exists []. constructor.
  - exists (m :: ms). by constructor.
Qed.

Lemma deepcopy_items_run (D : gset loc) items :
  forall memo e r e',
    D ⊆ dom (heap e) ->
    (forall l l', memo !! l = Some l' ->
       (l' ∉ D) /\ exists m, dict_at (heap e) l m /\ dict_at (heap e) l' m) ->
    deepcopy_items items memo e = (r, e') ->
    heap e ⊆ heap e' /\ ext e' = ext e /\
    forall items',
      r = Ok items' ->
      Forall (fun l' => l' ∉ D) items' /\
      exists ms,
        Forall2 (dict_at (heap e')) items ms /\
        Forall2 (dict_at (heap e')) items' ms.
Proof.
  induction items as [|l items IH]; intros memo e r e' HD Hmemo Hrun.
  - inversion Hrun; subst. split; [done|]. split; [done|].
    intros items' Hi. inversion Hi; subst. split; [constructor|].
    exists []. split; constructor.
  - cbn [deepcopy_items] in Hrun.
    destruct (memo !! l) as [l'|] eqn:Hl.
    + unfold bind in Hrun.
      destruct (deepcopy_items items memo e) as [[r0|ex] e0] eqn:Hrest.
      * inversion Hrun; subst. clear Hrun.
        destruct (IH memo e _ _ HD Hmemo Hrest) as (Hsub & Hext & Hres).
        split; [done|]. split; [done|].
        intros items' Hi. inversion Hi; subst. clear Hi.
        destruct (Hres r0 eq_refl) as (Hfresh & ms & H1 & H2).
        destruct (Hmemo l l' Hl) as (Hn & m & Hm & Hm').
        split; [by constructor|].
        exists (m :: ms). split; constructor; try done;
          by eapply dict_at_mono.
      * inversion Hrun; subst. clear Hrun.
        destruct (IH memo e _ _ HD Hmemo Hrest) as (Hsub & Hext & Hres).
        split; [done|]. split; [done|]. intros items' Hi. done.
    + unfold bind at 1 in Hrun. unfold deref_dict at 1 in Hrun.
      destruct (heap e !! l) as [[?|m]|] eqn:Hm;
        try (inversion Hrun; subst; split; [done|]; split; [done|];
             intros items' Hi; done).
      unfold bind at 1 in Hrun.
      destruct (alloc_run (ODict m) e) as (l' & Ha & Hfresh).
      rewrite Ha in Hrun.
      set (e1 := Env (<[l' := ODict m]> (heap e)) (ext e)) in *.
      assert (heap e ⊆ heap e1) as Hsub1 by (by apply insert_subseteq).
      assert (l' ∉ D) as HlD.
      { intros Hin. apply HD in Hin. apply elem_of_dom in Hin as [o Ho].
        congruence. }
      unfold bind in Hrun.
      destruct (deepcopy_items items (<[l := l']> memo) e1)
        as [r0 e0] eqn:Hrest.
      assert (D ⊆ dom (heap e1)) as HD1.
      { etrans; [exact HD|]. by apply subseteq_dom. }
      assert (forall k k', <[l := l']> memo !! k = Some k' ->
                (k' ∉ D) /\
                exists m0, dict_at (heap e1) k m0 /\ dict_at (heap e1) k' m0)
        as Hmemo1.
      { intros k k' Hk. destruct (decide (l = k)) as [<-|Hne].
        - rewrite lookup_insert_eq in Hk. inversion Hk; subst k'.
          split; [done|]. exists m. split.
          + eapply dict_at_mono; [exact Hsub1|exact Hm].
          + unfold dict_at, e1. simpl. apply lookup_insert_eq.
        - rewrite lookup_insert_ne in Hk by done.
          destruct (Hmemo k k' Hk) as (Hn & m0 & H1 & H2).
          split; [done|]. exists m0.
          split; eapply dict_at_mono; eauto. }
      destruct (IH _ e1 _ _ HD1 Hmemo1 Hrest) as (Hsub & Hext & Hres).
      assert (heap e ⊆ heap e0) as Hsub0 by (by etrans).
      destruct r0 as [r0|ex]; inversion Hrun; subst; clear Hrun.
      * split; [done|]. split; [done|].
        intros items' Hi. inversion Hi; subst. clear Hi.
        destruct (Hres r0 eq_refl) as (Hfr & ms & H1 & H2).
        split; [by constructor|].
        exists (m :: ms). split; constructor; try done.
        -- eapply dict_at_mono; [exact Hsub0|exact Hm].
        -- eapply dict_at_mono; [exact Hsub|].
           unfold dict_at, e1. simpl. apply lookup_insert_eq.
      * split; [done|]. split; [done|]. intros items' Hi. done.
Qed.

Lemma dict_at_insert_list h y o x l m :
  h !! y = Some (OList x) -> dict_at h l m -> dict_at (<[y := o]> h) l m.
Proof.
  unfold dict_at. intros Hy Hl. rewrite lookup_insert_ne; [done|].
  intros ->. congruence.
Qed.

Lemma deepcopy_run L e R e' :
  deepcopy L e = (Ok R, e') ->
  heap e ⊆ heap e' /\ ext e' = ext e /\ heap e !! R = None /\
  exists items items' ms,
    heap e !! L = Some (OList items) /\
    spec_in (heap e') L items ms /\
    spec_in (heap e') R items' ms /\
    Forall (fun l' => heap e !! l' = None) items'.
Proof.
  unfold deepcopy. intros Hrun.
  apply bind_ok_inv in Hrun as (items & e0 & Hd & Hrun).
  unfold deref_list in Hd.
  destruct (heap e !! L) as [[its|?]|] eqn:HL; try done.
  inversion Hd; subst e0 its. clear Hd.
  apply bind_ok_inv in Hrun as (y & e1 & Ha & Hrun).
  destruct (alloc_run (OList []) e) as (y' & Ha' & Hfresh).
  rewrite Ha' in Ha. inversion Ha; subst y' e1. clear Ha Ha'.
  apply bind_ok_inv in Hrun as (items' & e2 & Hc & Hrun).
  apply bind_ok_inv in Hrun as ([] & e3 & Hst & Hret).
  inversion Hret; subst R e3. clear Hret.
  unfold store, modify in Hst. inversion Hst; subst e'. clear Hst.
  apply (deepcopy_items_run (dom (heap e))) in Hc
    as (Hsub & Hext & Hres); simpl.
  - destruct (Hres items' eq_refl) as (Hfr & ms & H1 & H2).
    simpl in Hsub.
    assert (heap e ⊆ heap e2) as Hsub2.
    { etrans; [|exact Hsub]. by apply insert_subseteq. }
    assert (heap e2 !! y = Some (OList [])) as Hy.
    { eapply lookup_weaken; [|exact Hsub]. apply lookup_insert_eq. }
    split; [|split; [done|split; [done|]]].
    + apply map_subseteq_spec. intros l o Hl.
      rewrite lookup_insert_ne by (intros ->; congruence).
      by eapply lookup_weaken.
    + exists items, items', ms. split; [done|]. split; [|split].
      * split.
        -- rewrite lookup_insert_ne by (intros ->; congruence).
           by eapply lookup_weaken.
        -- eapply Forall2_impl; [exact H1|]. intros.
           by eapply dict_at_insert_list.
      * split; [apply lookup_insert_eq|].
        eapply Forall2_impl; [exact H2|]. intros.
        by eapply dict_at_insert_list.
      * eapply Forall_impl; [exact Hfr|]. intros l' Hn.
        by apply not_elem_of_dom.
  - by apply subseteq_dom, insert_subseteq.
  - intros l l' Hl. by rewrite lookup_empty in Hl.
Qed.

End FinishFacts.

(** ** What [fit_basic] does before the mapper is called *)

Section BeforeMapper.
Context `{Domain}.

Variable evaluate : Data -> loc -> option Z -> bool -> CM Data.
Variable copy_stack_data : Data -> Stack -> Z -> loc -> CM Data.

Lemma bind_run {S A B} (c : ST S A) (k : A -> ST S B) (s s' : S) (a : A) :
  c s = (Ok a, s') -> bind c k s = k a s'.
Proof. unfold bind. by intros ->. Qed.

Lemma call_run {A} (c : callee) (f : CM A) (w : world) (a : A) (e' : env) :
  f (wenv w) = (Ok a, e') ->
  call c f w = (Ok a, set_wenv e' (add_event (Call c) w)).
Proof. unfold call. simpl. by intros ->. Qed.

Lemma is_dict_insert_dict (h : gmap loc obj) l m l' :
  is_dict h l' -> is_dict (<[l := ODict m]> h) l'.
Proof.
  intros [m' Hm']. unfold is_dict, dict_at.
  destruct (decide (l = l')) as [->|Hne].
  - exists m. by rewrite lookup_insert_eq.
  - exists m'. by rewrite lookup_insert_ne.
Qed.

Lemma iter_fit_mode_ok b items :
  forall e,
    Forall (is_dict (heap e)) items ->
    exists e',
      iterM (fun l =>
               let* m := deref_dict l in
               store l (ODict (with_fit_mode b m))) items e = (Ok tt, e').
Proof.
  induction items as [|l items IH]; intros e Hd; [by eexists|].
  apply Forall_cons in Hd as [[m Hm] Hd]. simpl.
  unfold bind at 1. unfold bind at 1. unfold deref_dict at 1.
  unfold dict_at in Hm. rewrite Hm. unfold store, modify.
  apply IH. simpl. eapply Forall_impl; [exact Hd|].
  intros l'. apply is_dict_insert_dict.
Qed.

Lemma set_fit_mode_ok b L items ms (e : env) :
  spec_in (heap e) L items ms ->
  set_fit_mode b L e =
    (Ok tt, Env (heap_fit_mode b items (heap e)) (ext e)).
Proof.
  intros [HL Hms].
  assert (Forall (is_dict (heap e)) items) as Hd.
  { apply Forall_forall. intros l Hin.
    apply list_elem_of_lookup_1 in Hin as [i Hi].
    destruct (Forall2_lookup_l _ _ _ _ _ Hms Hi) as (m & _ & Hm).
    by exists m. }
  destruct (iter_fit_mode_ok b items e Hd) as [e' Hrun].
  assert (set_fit_mode b L e = (Ok tt, e')) as Hset.
  { unfold set_fit_mode, bind, deref_list. by rewrite HL. }
  rewrite Hset. f_equal.
  apply set_fit_mode_run in Hset as (items0 & HL0 & _ & Hh & Hx).
  rewrite HL in HL0. injection HL0 as <-.
  destruct e' as [h' x']. simpl in *. by subst.
Qed.

(** [fit_basic] once the modules have been looked over and marked. *)
Lemma fit_basic_from_mapper data modelspec fitter cost_function segmentor
    mapper metric metaname (require_phi : bool) (w wa w1 : world) :
  (if require_phi then
     let* items := lift (deref_list modelspec) in
     fit_basic.ensure_phi modelspec 0 items
   else (ret tt : M unit)) (snd (time_time w)) = (Ok tt, wa) ->
  call FitModeOn (fit_mode_on modelspec) wa = (Ok tt, w1) ->
  fit_basic.fit_basic evaluate copy_stack_data data modelspec fitter
    cost_function segmentor mapper metric metaname require_phi w =
  fit_basic.fit_from_mapper evaluate copy_stack_data (clock w (ticks w))
    data modelspec fitter cost_function segmentor mapper metric metaname w1.
Proof.
  intros Hloop Hon. rewrite fit_basic_phases.
  unfold fit_basic.fit_phases, fit_basic.fit_prepare,
    fit_basic.fit_from_mapper.
  rewrite bind_assoc.
  rewrite (bind_run time_time _ w (snd (time_time w)) (clock w (ticks w)))
    by reflexivity.
  rewrite bind_assoc. rewrite (bind_run _ _ _ _ _ Hloop).
  rewrite bind_assoc. rewrite (bind_run _ _ _ _ _ Hon).
  rewrite bind_assoc. apply bind_ext. intros [p u] s.
  by rewrite bind_ret.
Qed.

Lemma no_fitter_among_phi_events (evs : list event) :
  forallb is_phi_event evs = true -> Fitter ∉ calls evs.
Proof.
  induction evs as [|ev evs IH]; simpl; intros Hev.
  - apply not_elem_of_nil.
  - apply andb_prop in Hev as [He Hev].
    destruct ev as [c| | | | |]; simpl in *; try done; auto.
    destruct c; try done. apply not_elem_of_cons. split; [done|auto].
Qed.

(** C8 (as the code has it): what [fit_basic] does to the modules before
    the mapper is called depends on [require_phi].  With [require_phi] set,
    as it is by default, and a prior on every module that lacks phi, the
    mapper and all that follows run on the caller's list holding the
    modules with phi defaulted from the mean of their prior, marked as in
    fitting mode; if some module lacks both phi and prior, [fit_basic]
    raises before the mapper, the cost function or the optimizer is called,
    the only calls made being those to [set_mean_phi].  With [require_phi]
    unset no module is defaulted and nothing is raised: the mapper and all
    that follows run on the modules as they were, marked as in fitting
    mode, whether or not they have phi or a prior. *)
Theorem fit_defaults_phi_or_fails data modelspec fitter cost_function
    segmentor mapper metric metaname w items ms :
  spec_in (heap (wenv w)) modelspec items ms ->
  (Forall (fun m => phi m = None -> is_Some (prior m)) ms ->
   exists w1 items' ms' evs,
     fit_basic.fit_basic evaluate copy_stack_data data modelspec fitter
       cost_function segmentor mapper metric metaname true w =
     fit_basic.fit_from_mapper evaluate copy_stack_data (clock w (ticks w))
       data modelspec fitter cost_function segmentor mapper metric metaname
       w1 /\
     spec_in (heap (wenv w1)) modelspec items' (with_fit_mode true <$> ms') /\
     Forall2 defaulted ms ms' /\
     Forall (fun m' => is_Some (phi m')) ms' /\
     trace w1 = trace w ++ evs ++ [Call FitModeOn] /\
     forallb is_phi_event evs = true) /\
  (Exists (fun m => phi m = None /\ prior m = None) ms ->
   let r := fit_basic.fit_basic evaluate copy_stack_data data modelspec
              fitter cost_function segmentor mapper metric metaname true w in
   fst r = Raise (KeyError "prior") /\
   exists evs,
     trace (snd r) = trace w ++ evs /\
     forallb is_phi_event evs = true /\
     Fitter ∉ calls evs) /\
  (exists w1,
     fit_basic.fit_basic evaluate copy_stack_data data modelspec fitter
       cost_function segmentor mapper metric metaname false w =
     fit_basic.fit_from_mapper evaluate copy_stack_data (clock w (ticks w))
       data modelspec fitter cost_function segmentor mapper metric metaname
       w1 /\
     spec_in (heap (wenv w1)) modelspec items (with_fit_mode true <$> ms) /\
     trace w1 = trace w ++ [Call FitModeOn]).
Proof.
  intros [HL Hms].
  set (w0 := World (wenv w) (cf_attrs w) (fb_attrs w) (trace w) (clock w)
               (S (ticks w))).
  destruct (ensure_phi_run modelspec items ms [] w0 HL Hms)
    as (h' & evs & Hrun & Hk & Hev & Hres).
  simpl in Hrun.
  assert ((let* items := lift (deref_list modelspec) in
           fit_basic.ensure_phi modelspec 0 items) w0 =
          fit_basic.ensure_phi modelspec 0 items w0) as Hloop.
  { unfold bind, lift, deref_list. simpl. by rewrite HL. }
  split; [|split].
  - intros Hall. destruct (default_all_ok ms Hall) as (ms' & Hok & Hd & Hp).
    destruct (Hres ms' Hok) as (items' & HL' & Hit').
    rewrite Hok in Hrun. rewrite <- Hloop in Hrun.
    set (wa := World (Env h' (ext (wenv w))) (cf_attrs w) (fb_attrs w)
                 (trace w ++ evs) (clock w) (S (ticks w))) in *.
    assert (spec_in (heap (wenv wa)) modelspec items' ms') as Hspec
      by (by split).
    pose proof (call_run FitModeOn (fit_mode_on modelspec) wa tt _
                  (set_fit_mode_ok true modelspec items' ms' (wenv wa)
                     Hspec)) as Hon.
    eexists _, items', ms', evs. split.
    { exact (fit_basic_from_mapper data modelspec fitter cost_function
               segmentor mapper metric metaname true w wa _ Hrun Hon). }
    split; [by apply heap_fit_mode_spec|]. split; [done|]. split; [done|].
    split; [|done]. simpl. by rewrite <- app_assoc.
  - intros Hex r. pose proof (default_all_raise ms Hex) as Hraise.
    rewrite Hraise in Hrun.
    assert (r = (Raise (KeyError "prior"),
                 World (Env h' (ext (wenv w))) (cf_attrs w) (fb_attrs w)
                   (trace w ++ evs) (clock w) (S (ticks w)))) as ->.
    { subst r. unfold fit_basic.fit_basic.
      unfold bind at 1. unfold time_time at 1. fold w0.
      unfold bind at 1. unfold bind at 1. unfold lift at 1.
      unfold deref_list at 1. simpl. rewrite HL.
      replace (set_wenv (wenv w) w0) with w0 by done.
      rewrite Hrun. reflexivity. }
    split; [done|]. exists evs. split; [done|]. split; [done|].
    by apply no_fitter_among_phi_events.
  - assert (spec_in (heap (wenv w0)) modelspec items ms) as Hspec
      by (by split).
    pose proof (call_run FitModeOn (fit_mode_on modelspec) w0 tt _
                  (set_fit_mode_ok true modelspec items ms (wenv w0) Hspec))
      as Hon.
    eexists. split.
    { exact (fit_basic_from_mapper data modelspec fitter cost_function
               segmentor mapper metric metaname false w w0 _ eq_refl Hon). }
    split; [by apply heap_fit_mode_spec|done].
Qed.

End BeforeMapper.

(** ** What [fit_basic] returns *)

Section FitResult.
Context `{Domain}.

Variable evaluate : Data -> loc -> option Z -> bool -> CM Data.
Variable copy_stack_data : Data -> Stack -> Z -> loc -> CM Data.

#[local] Existing Instance same_preorder.

Lemma call_inv {A} (c : callee) (f : CM A) (w w' : world) (r : result A) :
  call c f w = (r, w') ->
  f (wenv w) = (r, wenv w') /\
  w' = set_wenv (wenv w') (add_event (Call c) w).
Proof.
  unfold call. simpl. destruct (f (wenv w)) as [r0 e0].
  intros Hc. inversion Hc; subst. done.
Qed.

Lemma clock_view_quiet : quiet_view clock_view.
Proof. unfold quiet_view. split; reflexivity. Qed.

Lemma apply_cost_keeps_clock f sigma unpacker modelspec data segmentor
    evaluator metric :
  preserves (same clock_view)
    (fit_basic.apply_cost_function copy_stack_data f sigma unpacker
       modelspec data segmentor evaluator metric).
Proof.
  intros w. unfold same, clock_view.
  destruct f; unfold fit_basic.apply_cost_function,
    cost_functions.basic_cost, fit_basic.basic_cost; run.
Qed.

Lemma fit_prepare_clock modelspec mapper require_phi w start_time pu w1 :
  fit_basic.fit_prepare modelspec mapper require_phi w =
    (Ok (start_time, pu), w1) ->
  start_time = clock w (ticks w) /\
  clock w1 = clock w /\ ticks w1 = S (ticks w).
Proof.
  pose proof clock_view_quiet as Hq.
  unfold fit_basic.fit_prepare. intros Hrun.
  apply bind_ok_inv in Hrun as (st & w0 & Ht & Hrun).
  unfold time_time in Ht. inversion Ht; subst st w0. clear Ht.
  match type of Hrun with
  | ?c ?w0 = _ =>
      assert (preserves (same clock_view) c) as Hk
  end.
  { apply (preserves_bind _).
    { destruct require_phi; [|keep].
      apply (preserves_bind _); [keep|]. intros items.
      by apply ensure_phi_quiet. }
    intros _. keep. }
  match type of Hrun with
  | _ ?w0 = _ => specialize (Hk w0)
  end.
  rewrite Hrun in Hk.
  unfold same, clock_view in Hk. simpl in Hk. injection Hk as Hc Htk.
  apply bind_ok_inv in Hrun as (? & ? & _ & Hrun).
  apply bind_ok_inv in Hrun as (? & ? & _ & Hrun).
  apply bind_ok_inv in Hrun as (? & ? & _ & Hrun).
  inversion Hrun; subst. done.
Qed.

Lemma fit_optimize_clock data modelspec fitter f segmentor metric packer
    unpacker :
  preserves (same clock_view)
    (fit_basic.fit_optimize evaluate copy_stack_data data modelspec fitter f
       segmentor metric packer unpacker).
Proof.
  pose proof clock_view_quiet as Hq. unfold fit_basic.fit_optimize.
  apply (preserves_bind _); [by intros w; destruct f|]. intros _.
  apply (preserves_bind _); [keep|]. intros sigma.
  apply call_fitter_preserves; [apply _|keep|].
  intros s. apply apply_cost_keeps_clock.
Qed.

Lemma lookup_meta3 (h : gmap loc obj) l0 l k1 v1 k2 v2 k3 v3 :
  alter (obj_meta k3 v3) l0
    (alter (obj_meta k2 v2) l0 (alter (obj_meta k1 v1) l0 h)) !! l =
  if decide (l0 = l)
  then obj_meta k3 v3 <$> (obj_meta k2 v2 <$> (obj_meta k1 v1 <$> h !! l))
  else h !! l.
Proof.
  destruct (decide (l0 = l)) as [->|Hne].
  - by rewrite !lookup_alter_eq.
  - by rewrite !lookup_alter_ne.
Qed.

Lemma fit_finish_run start_time unpacker improved_sigma metaname w rs w' :
  fit_basic.fit_finish start_time unpacker improved_sigma metaname w =
    (Ok rs, w') ->
  exists improved e1 R items items' ms,
    unpacker improved_sigma (wenv w) = (Ok improved, e1) /\
    rs = [R] /\
    heap e1 !! improved = Some (OList items) /\
    Forall (is_dict (heap e1)) items /\
    heap e1 !! R = None /\
    Forall (fun l => heap e1 !! l = None) items' /\
    spec_in (heap (wenv w')) improved items ms /\
    spec_in (heap (wenv w')) R items' ms /\
    get_modelspec_metadata ms "fitter" = Some (MStr metaname) /\
    get_modelspec_metadata ms "fit_time" =
      Some (MTime (clock w (ticks w) - start_time)) /\
    get_modelspec_metadata ms "n_parms" =
      Some (MInt (Z.of_nat (length improved_sigma))) /\
    Forall (fun m => fit_mode m = false) ms /\
    (forall l o, l ∉ items -> heap e1 !! l = Some o ->
       heap (wenv w') !! l = Some o).
Proof.
  unfold fit_basic.fit_finish. intros Hrun.
  apply bind_ok_inv in Hrun as (improved & w3 & Hu & Hrun).
  apply call_inv in Hu as [Hu Hw3].
  apply bind_ok_inv in Hrun as (end_time & w4 & Ht & Hrun).
  unfold time_time in Ht. inversion Ht; subst end_time w4. clear Ht.
  apply bind_ok_inv in Hrun as ([] & w5 & Hoff & Hrun).
  apply call_inv in Hoff as [Hoff Hw5]. simpl in Hoff.
  apply set_fit_mode_run in Hoff as (items & HL & Hdicts & Hh5 & _).
  apply bind_ok_inv in Hrun as ([] & w6 & Hm1 & Hrun).
  apply call_inv in Hm1 as [Hm1 Hw6].
  apply set_modelspec_metadata_run in Hm1
    as (items1 & l0 & m1 & HL1 & Hl0 & Hd1 & Hh6 & _).
  apply bind_ok_inv in Hrun as ([] & w7 & Hm2 & Hrun).
  apply call_inv in Hm2 as [Hm2 Hw7].
  apply set_modelspec_metadata_run in Hm2
    as (items2 & l2 & m2 & HL2 & Hl2 & Hd2 & Hh7 & _).
  apply bind_ok_inv in Hrun as ([] & w8 & Hm3 & Hrun).
  apply call_inv in Hm3 as [Hm3 Hw8].
  apply set_modelspec_metadata_run in Hm3
    as (items3 & l3 & m3 & HL3 & Hl3 & Hd3 & Hh8 & _).
  apply bind_ok_inv in Hrun as (R & w9 & Hcp & Hret).
  apply call_inv in Hcp as [Hcp Hw9].
  apply deepcopy_run in Hcp
    as (Hsub & _ & HR & items9 & items' & ms & HL9 & Hspec & HspecR & Hfr).
  inversion Hret; subst rs w9. clear Hret.
  (* the list object of the improved specification is never rewritten *)
  rewrite Hh5, heap_fit_mode_lookup, HL in HL1.
  assert (items1 = items) as ->.
  { destruct (decide (improved ∈ items)); simpl in HL1; congruence. }
  assert (l0 <> improved) as Hne0.
  { intros ->. unfold dict_at in Hd1.
    rewrite Hh5, heap_fit_mode_lookup, HL in Hd1.
    destruct (decide (improved ∈ items)); simpl in Hd1; congruence. }
  assert (heap (wenv w5) !! improved = Some (OList items)) as HL5.
  { rewrite Hh5, heap_fit_mode_lookup, HL.
    by destruct (decide (improved ∈ items)). }
  rewrite Hh6, lookup_alter_ne, HL5 in HL2 by done.
  inversion HL2; subst items2. clear HL2.
  rewrite Hl0 in Hl2. inversion Hl2; subst l2. clear Hl2.
  rewrite Hh7, Hh6, !lookup_alter_ne, HL5 in HL3 by done.
  inversion HL3; subst items3. clear HL3.
  rewrite Hl0 in Hl3. inversion Hl3; subst l3. clear Hl3.
  assert (forall l,
            heap (wenv w8) !! l =
            if decide (l0 = l)
            then obj_meta "n_parms"
                   (MInt (Z.of_nat (length improved_sigma))) <$>
                 (obj_meta "fit_time"
                    (MTime (clock w3 (ticks w3) - start_time)) <$>
                  (obj_meta "fitter" (MStr metaname) <$>
                   heap (wenv w5) !! l))
            else heap (wenv w5) !! l) as H8.
  { intros l. rewrite Hh8, Hh7, Hh6. apply lookup_meta3. }
  rewrite H8, decide_False, HL5 in HL9 by done.
  inversion HL9; subst items9. clear HL9.
  assert (clock w3 = clock w /\ ticks w3 = ticks w) as [Hck Htk]
    by (by rewrite Hw3).
  rewrite Hck, Htk in H8.
  clear Hw3 Hw5 Hw6 Hw7 Hw8 Hw9.
  set (e1 := wenv w3) in *.
  (* what the first module holds *)
  unfold dict_at in Hd1.
  assert (exists m0 ms0, ms = m0 :: ms0 /\
            m0 = with_meta "n_parms"
                   (MInt (Z.of_nat (length improved_sigma)))
                   (with_meta "fit_time"
                      (MTime (clock w (ticks w) - start_time))
                      (with_meta "fitter" (MStr metaname) m1)))
    as (m0 & ms0 & -> & Hm0).
  { destruct Hspec as [_ Hms].
    destruct items as [|l items0]; [done|]. simpl in Hl0.
    inversion Hl0; subst l. inversion Hms as [|? m0 ? ms0 Hm0 _]; subst.
    exists m0, ms0. split; [done|].
    assert (heap (wenv w8) !! l0 =
            Some (ODict (with_meta "n_parms"
                   (MInt (Z.of_nat (length improved_sigma)))
                   (with_meta "fit_time"
                      (MTime (clock w (ticks w) - start_time))
                      (with_meta "fitter" (MStr metaname) m1))))) as Hl8.
    { rewrite H8, decide_True, Hd1 by done. done. }
    eapply lookup_weaken in Hl8; [|exact Hsub].
    unfold dict_at in Hm0. congruence. }
  exists improved, e1, R, items, items', (m0 :: ms0).
  split; [done|]. split; [done|]. split; [done|]. split; [done|].
  assert (forall l, heap (wenv w8) !! l = None -> heap e1 !! l = None)
    as Hnone'.
  { intros l Hl. rewrite H8 in Hl.
    assert (heap (wenv w5) !! l = None) as Hl5.
    { destruct (decide (l0 = l)); [|done].
      by destruct (heap (wenv w5) !! l). }
    rewrite Hh5, heap_fit_mode_lookup in Hl5. simpl in Hl5. fold e1 in Hl5.
    destruct (decide (l ∈ items)); [|done].
    by destruct (heap e1 !! l). }
  split; [by apply Hnone'|].
  split; [eapply Forall_impl; [exact Hfr|]; intros l; apply Hnone'|].
  split; [done|]. split; [done|].
  subst m0. cbn [get_modelspec_metadata with_meta meta].
  split; [by rewrite !lookup_insert_ne, lookup_insert_eq by done|].
  split; [by rewrite lookup_insert_ne, lookup_insert_eq by done|].
  split; [by rewrite lookup_insert_eq|].
  split.
  - destruct Hspec as [_ Hms].
    eapply Forall2_Forall_r; [exact Hms|].
    apply Forall_forall. intros l Hin m Hm.
    rewrite Forall_forall in Hdicts.
    destruct (Hdicts l Hin) as [m' Hm']. unfold dict_at in Hm', Hm.
    assert (exists mm,
              heap (wenv w8) !! l = Some (ODict mm) /\ fit_mode mm = false)
      as (mm & Hmm & Hf).
    { rewrite H8, Hh5, heap_fit_mode_lookup.
      rewrite (decide_True (P := l ∈ items)) by done.
      simpl. fold e1. rewrite Hm'.
      destruct (decide (l0 = l)); simpl; eauto. }
    eapply lookup_weaken in Hmm; [|exact Hsub]. congruence.
  - intros l o Hnin Hl.
    eapply lookup_weaken; [|exact Hsub].
    rewrite H8.
    assert (heap (wenv w5) !! l = Some o) as Hl5.
    { rewrite Hh5, heap_fit_mode_lookup. simpl. fold e1.
      by rewrite decide_False. }
    destruct (decide (l0 = l)) as [<-|]; [|done].
    exfalso. apply Hnin. by eapply list_elem_of_lookup_2.
Qed.

(** C6 (as the code has it): a call to [fit_basic] that returns gives a
    list of one element, a deep copy of the result specification: a new
    list of new dictionaries holding the same modules as the specification
    unpacked from the improved vector, and sharing no object with it.  The
    metadata of the result records the name given as [metaname] under
    'fitter', under 'n_parms' the length of the vector the minimizer
    returned, and under 'fit_time' the reading of [time.time()] taken after
    the search minus the one taken on entry.  Nothing keeps that difference
    from being negative: it is not negative exactly when the second reading
    is not earlier than the first. *)
Theorem fit_returns_copy_with_metadata data modelspec fitter cost_function
    segmentor mapper metric metaname require_phi w rs w' :
  fit_basic.fit_basic evaluate copy_stack_data data modelspec fitter
    cost_function segmentor mapper metric metaname require_phi w =
    (Ok rs, w') ->
  exists start_time packer unpacker w1 improved_sigma w2 improved e3 R
         items items' ms elapsed,
    fit_basic.fit_prepare modelspec mapper require_phi w =
      (Ok (start_time, (packer, unpacker)), w1) /\
    fit_basic.fit_optimize evaluate copy_stack_data data modelspec fitter
      (fit_basic.default_cost cost_function) segmentor metric packer
      unpacker w1 = (Ok improved_sigma, w2) /\
    unpacker improved_sigma (wenv w2) = (Ok improved, e3) /\
    rs = [R] /\
    spec_in (heap (wenv w')) improved items ms /\
    spec_in (heap (wenv w')) R items' ms /\
    R <> improved /\ (R ∉ items) /\
    (forall l, l ∈ items' -> (l ∉ items) /\ l <> improved) /\
    get_modelspec_metadata ms "fitter" = Some (MStr metaname) /\
    get_modelspec_metadata ms "fit_time" = Some (MTime elapsed) /\
    elapsed = (clock w (S (ticks w)) - clock w (ticks w))%Z /\
    ((0 <= elapsed)%Z <-> (clock w (ticks w) <= clock w (S (ticks w)))%Z) /\
    get_modelspec_metadata ms "n_parms" =
      Some (MInt (Z.of_nat (length improved_sigma))).
Proof.
  rewrite fit_basic_phases. unfold fit_basic.fit_phases. intros Hrun.
  apply bind_ok_inv in Hrun as ([st [packer unpacker]] & w1 & Hprep & Hrun).
  apply bind_ok_inv in Hrun as (imp & w2 & Hopt & Hfin).
  destruct (fit_prepare_clock _ _ _ _ _ _ _ Hprep) as (Hst & Hc1 & Ht1).
  pose proof (fit_optimize_clock data modelspec fitter
                (fit_basic.default_cost cost_function) segmentor metric
                packer unpacker w1) as Hk.
  rewrite Hopt in Hk. unfold same, clock_view in Hk. simpl in Hk.
  injection Hk as Hc2 Ht2.
  apply fit_finish_run in Hfin
    as (improved & e3 & R & items & items' & ms & Hu & Hrs & HL & Hdicts
        & HR & Hfr & Hspec & HspecR & Hm1 & Hm2 & Hm3 & _ & _).
  rewrite Hc2, Ht2, Hc1, Ht1, Hst in Hm2.
  rewrite Forall_forall in Hdicts, Hfr.
  exists st, packer, unpacker, w1, imp, w2, improved, e3, R, items, items',
    ms, (clock w (S (ticks w)) - clock w (ticks w))%Z.
  repeat (split; [done|]).
  split; [intros ->; congruence|].
  split.
  { intros Hin. destruct (Hdicts R Hin) as [m Hm].
    unfold dict_at in Hm. congruence. }
  split.
  { intros l Hin. specialize (Hfr l Hin). split; [|intros ->; congruence].
    intros Hin'. destruct (Hdicts l Hin') as [m Hm].
    unfold dict_at in Hm. congruence. }
  repeat (split; [done|]). split; [lia|done].
Qed.

End FitResult.

(** ** The caller's specification across one fit *)

Section Allocation.
Context `{Domain}.

Lemma mapM_alloc_run (ms : list module) :
  forall e,
    exists items e',
      mapM (fun m => alloc (ODict m)) ms e = (Ok items, e') /\
      heap e ⊆ heap e' /\ ext e' = ext e /\
      Forall (fun l => heap e !! l = None) items /\
      Forall2 (dict_at (heap e')) items ms.
Proof.
  induction ms as [|m ms IH]; intros e.
  - exists [], e. repeat split; try done; constructor.
  - cbn [mapM]. unfold bind at 1.
    destruct (alloc_run (ODict m) e) as (l & Ha & Hfresh). rewrite Ha.
    set (e1 := Env (<[l := ODict m]> (heap e)) (ext e)).
    destruct (IH e1) as (items & e' & Hrun & Hsub & Hext & Hfr & Hd).
    unfold bind. rewrite Hrun. exists (l :: items), e'.
    assert (heap e ⊆ heap e1) as Hsub1 by (by apply insert_subseteq).
    split; [done|]. split; [by etrans|]. split; [done|]. split.
    + constructor; [done|]. eapply Forall_impl; [exact Hfr|].
      intros l' Hl'. simpl in Hl'.
      destruct (decide (l = l')) as [<-|Hne]; [done|].
      by rewrite lookup_insert_ne in Hl'.
    + constructor; [|done]. eapply dict_at_mono; [exact Hsub|].
      unfold dict_at, e1. simpl. apply lookup_insert_eq.
Qed.

Lemma alloc_spec_run (ms : list module) (e : env) :
  exists L items e',
    alloc_spec ms e = (Ok L, e') /\
    heap e ⊆ heap e' /\ ext e' = ext e /\
    heap e !! L = None /\
    Forall (fun l => heap e !! l = None) items /\
    spec_in (heap e') L items ms.
Proof.
  unfold alloc_spec, bind.
  destruct (mapM_alloc_run ms e) as (items & e1 & Hrun & Hsub & Hext & Hfr & Hd).
  rewrite Hrun.
  destruct (alloc_run (OList items) e1) as (L & Ha & Hfresh). rewrite Ha.
  exists L, items, (Env (<[L := OList items]> (heap e1)) (ext e1)).
  assert (heap e1 ⊆ <[L := OList items]> (heap e1)) as Hsub1
    by (by apply insert_subseteq).
  split; [done|]. split; [by etrans|]. split; [done|]. split.
  { destruct (heap e !! L) eqn:HL; [|done].
    eapply lookup_weaken in HL; [|exact Hsub]. congruence. }
  split; [done|]. split; [apply lookup_insert_eq|].
  eapply Forall2_impl; [exact Hd|]. intros. by eapply dict_at_mono.
Qed.

Lemma unpacker_run L vec e :
  heap e ⊆ heap (snd (unpacker L vec e)) /\
  forall L' e',
    unpacker L vec e = (Ok L', e') ->
    heap e !! L' = None /\
    exists items,
      heap e' !! L' = Some (OList items) /\
      Forall (fun l => heap e !! l = None) items.
Proof.
  unfold unpacker, bind.
  pose proof (read_spec_pure L e) as Hp.
  destruct (read_spec L e) as [[ms|ex] e0]; simpl in Hp; subst e0;
    [|split; [done|intros; done]].
  destruct (unpack_spec ms vec) as [ms'|ex]; [|split; [done|intros; done]].
  destruct (alloc_spec_run ms' e)
    as (L1 & items & e1 & Hrun & Hsub & _ & HL & Hfr & [Hl _]).
  rewrite Hrun. split; [done|].
  intros L' e' Heq. inversion Heq; subst. split; [done|]. eauto.
Qed.

Lemma packer_reads_only L : reads_only (packer L).
Proof.
  intros e. unfold packer, bind.
  pose proof (read_spec_pure L e) as Hp.
  by destruct (read_spec L e) as [[ms|ex] e0]; simpl in *; subst.
Qed.

Lemma dom_heap_fit_mode b items (h : gmap loc obj) :
  dom (heap_fit_mode b items h) = dom h.
Proof.
  unfold heap_fit_mode. revert h.
  induction items as [|l items IH]; intros h; [done|].
  cbn [foldl]. rewrite IH. apply dom_alter_L.
Qed.

End Allocation.

Section Grows.
Context `{Domain}.

#[local] Instance heap_grows_preorder : PreOrder heap_grows.
Proof.
  split.
  - intros w. unfold heap_grows. done.
  - intros w1 w2 w3 H12 H23. unfold heap_grows in *. by etrans.
Qed.

Lemma grows_call {A} (c : callee) (f : CM A) :
  (forall e, heap e ⊆ heap (snd (f e))) ->
  preserves heap_grows (call c f).
Proof.
  intros Hf w. unfold call, heap_grows. simpl.
  specialize (Hf (wenv w)). by destruct (f (wenv w)).
Qed.

Lemma grows_emit (ev : event) : preserves heap_grows (emit ev).
Proof. intros w. unfold heap_grows. simpl. done. Qed.

Lemma grows_getattr (f : fobj) : preserves heap_grows (getattr f).
Proof. intros w. unfold heap_grows. simpl. done. Qed.

Lemma grows_setattr (f : fobj) (upd : attrs -> attrs) :
  preserves heap_grows (setattr f upd).
Proof. intros w. unfold heap_grows. destruct f; simpl; done. Qed.

Lemma default_all_inv (ms ms' : list module) :
  default_all ms = Ok ms' -> Forall2 defaulted ms ms'.
Proof.
  revert ms'. induction ms as [|m ms IH]; intros ms' Hd.
  - inversion Hd. constructor.
  - rewrite default_all_cons in Hd. unfold default_phi, mean_phi in Hd.
    destruct (phi m) as [p|] eqn:Hp.
    + destruct (default_all ms) as [ys|]; [|done]. inversion Hd; subst.
      constructor; [|by apply IH]. unfold defaulted. by rewrite Hp.
    + destruct (prior m) as [pr|] eqn:Hpr; [|done].
      destruct (default_all ms) as [ys|]; [|done]. inversion Hd; subst.
      constructor; [|by apply IH]. unfold defaulted. rewrite Hp. eauto.
Qed.

End Grows.

Ltac grow :=
  repeat first
    [ apply preserves_ret; apply _
    | apply preserves_raise; apply _
    | apply grows_call; solve [auto]
    | apply grows_emit
    | apply grows_getattr
    | apply grows_setattr
    | match goal with
      | |- preserves _ (match ?x with _ => _ end) => destruct x
      | |- preserves _ (if ?x then _ else _) => destruct x
      end
    | apply (preserves_bind _); [|intros ?] ].

Section CallerSpec.
Context `{Domain}.

Variable evaluate : Data -> loc -> option Z -> bool -> CM Data.
Variable copy_stack_data : Data -> Stack -> Z -> loc -> CM Data.

#[local] Existing Instance heap_grows_preorder.

Lemma apply_cost_grows f sigma L modelspec data segmentor metric :
  (forall d, reads_only (segmentor d)) ->
  (forall d, reads_only (metric d)) ->
  (forall d l s k, reads_only (evaluate d l s k)) ->
  preserves heap_grows
    (fit_basic.apply_cost_function copy_stack_data f sigma (unpacker L)
       modelspec data segmentor evaluate metric).
Proof.
  intros Hseg Hmet Heval.
  assert (forall d e, heap e ⊆ heap (snd (segmentor d e))) as Hseg'
    by (intros d e; by rewrite Hseg).
  assert (forall d e, heap e ⊆ heap (snd (metric d e))) as Hmet'
    by (intros d e; by rewrite Hmet).
  assert (forall d l s k e, heap e ⊆ heap (snd (evaluate d l s k e)))
    as Heval' by (intros d l s k e; by rewrite Heval).
  assert (forall s e, heap e ⊆ heap (snd (unpacker L s e))) as Hunp
    by (intros s e; apply unpacker_run).
  destruct f; unfold fit_basic.apply_cost_function,
    cost_functions.basic_cost, fit_basic.basic_cost; grow.
Qed.

Lemma lift_inv {A} (f : CM A) (w w' : world) (r : result A) :
  lift f w = (r, w') ->
  f (wenv w) = (r, wenv w') /\ w' = set_wenv (wenv w') w.
Proof.
  unfold lift. destruct (f (wenv w)) as [r0 e0].
  intros Hc. inversion Hc; subst. done.
Qed.

Lemma fit_prepare_caller_spec L require_phi w items ms start_time p u w1 :
  spec_in (heap (wenv w)) L items ms ->
  fit_basic.fit_prepare L simple_vector require_phi w =
    (Ok (start_time, (p, u)), w1) ->
  p = packer /\ u = unpacker L /\
  dom (heap (wenv w)) ⊆ dom (heap (wenv w1)) /\
  exists items1 ms1,
    spec_in (heap (wenv w1)) L items1 (with_fit_mode true <$> ms1) /\
    if require_phi then Forall2 defaulted ms ms1 else ms1 = ms.
Proof.
  intros [HL Hms] Hrun. unfold fit_basic.fit_prepare in Hrun.
  apply bind_ok_inv in Hrun as (st & w0 & Ht & Hrun).
  unfold time_time in Ht. inversion Ht; subst st w0. clear Ht.
  apply bind_ok_inv in Hrun as ([] & wa & Hloop & Hrun).
  assert (exists items1 ms1,
            spec_in (heap (wenv wa)) L items1 ms1 /\
            dom (heap (wenv w)) ⊆ dom (heap (wenv wa)) /\
            if require_phi then Forall2 defaulted ms ms1 else ms1 = ms)
    as (items1 & ms1 & [HL1 Hms1] & Hdom & Hdef).
  { destruct require_phi.
    - apply bind_ok_inv in Hloop as (its & w0 & Hd & Hloop).
      apply lift_inv in Hd as [Hd Hw0]. simpl in Hd.
      unfold deref_list in Hd. rewrite HL in Hd.
      inversion Hd as [[Hits He]]. subst its.
      assert (w0 = World (wenv w) (cf_attrs w) (fb_attrs w) (trace w)
                     (clock w) (S (ticks w))) as ->.
      { rewrite Hw0, <- He. done. }
      clear Hd Hw0 He.
      match type of Hloop with
      | fit_basic.ensure_phi _ _ _ ?w0 = _ =>
          destruct (ensure_phi_run L items ms [] w0 HL Hms)
            as (h' & evs & Hrun' & Hk & _ & Hres)
      end.
      simpl in Hrun'. rewrite Hloop in Hrun'.
      destruct (default_all ms) as [ms1|ex] eqn:Hall; [|done].
      inversion Hrun'; subst wa. clear Hrun'.
      destruct (Hres ms1 eq_refl) as (items1 & HL1 & Hit).
      exists items1, ms1. simpl. split; [by split|]. split.
      + eapply kept_but_dom; [|exact Hk]. by eexists.
      + by apply default_all_inv.
    - inversion Hloop; subst wa. exists items, ms. by repeat split. }
  apply bind_ok_inv in Hrun as ([] & wb & Hon & Hrun).
  apply call_inv in Hon as [Hon _].
  apply set_fit_mode_run in Hon as (itemsx & HLx & _ & Hhb & _).
  simpl in HLx. rewrite HL1 in HLx. inversion HLx; subst itemsx. clear HLx.
  apply bind_ok_inv in Hrun as (pu & wc & Hmap & Hret).
  apply call_inv in Hmap as [Hmap _]. inversion Hmap as [[Hpu Hwc]].
  inversion Hret; subst. clear Hret Hmap.
  match goal with Hp : (packer, unpacker L) = (p, u) |- _ =>
    injection Hp as <- <- end.
  split; [done|]. split; [done|]. split.
  - rewrite <- Hwc, Hhb. simpl. by rewrite dom_heap_fit_mode.
  - exists items1, ms1. split; [|done].
    rewrite <- Hwc, Hhb. simpl. by apply heap_fit_mode_spec.
Qed.

Lemma fit_optimize_grows data L fitter f segmentor metric :
  (forall d, reads_only (segmentor d)) ->
  (forall d, reads_only (metric d)) ->
  (forall d l s k, reads_only (evaluate d l s k)) ->
  preserves heap_grows
    (fit_basic.fit_optimize evaluate copy_stack_data data L fitter f
       segmentor metric packer (unpacker L)).
Proof.
  intros Hseg Hmet Heval. unfold fit_basic.fit_optimize.
  assert (forall e, heap e ⊆ heap (snd (packer L e))) as Hpack
    by (intros e; by rewrite packer_reads_only).
  apply (preserves_bind _); [grow|]. intros _.
  apply (preserves_bind _); [grow|]. intros sigma.
  apply call_fitter_preserves; [apply _|grow|].
  intros s. by apply apply_cost_grows.
Qed.

(** C5 (as the code has it): [fit_basic] does not copy the specification it
    is given.  With the default mapper and collaborators that leave the
    store alone, when [fit_basic] returns the caller's list holds, in
    place, modules marked as in fitting mode, those that lacked phi
    replaced (when [require_phi] is set) by modules with phi defaulted from
    their prior; a module that had phi on entry keeps its phi values.  The
    search itself works on unpacked copies and changes no object of the
    caller.  The single result is a new list of new dictionaries, none of
    which existed on entry, with fitting mode switched off. *)
Theorem fit_mutates_caller_spec data modelspec fitter cost_function segmentor
    metric metaname require_phi w items ms rs w' :
  (forall d, reads_only (segmentor d)) ->
  (forall d, reads_only (metric d)) ->
  (forall d l s k, reads_only (evaluate d l s k)) ->
  spec_in (heap (wenv w)) modelspec items ms ->
  fit_basic.fit_basic evaluate copy_stack_data data modelspec fitter
    cost_function segmentor simple_vector metric metaname require_phi w =
    (Ok rs, w') ->
  (exists items1 ms1,
     spec_in (heap (wenv w')) modelspec items1 (with_fit_mode true <$> ms1) /\
     if require_phi then Forall2 defaulted ms ms1 else ms1 = ms) /\
  (exists R items' rms,
     rs = [R] /\
     spec_in (heap (wenv w')) R items' rms /\
     (R ∉ dom (heap (wenv w))) /\
     Forall (fun l => l ∉ dom (heap (wenv w))) items' /\
     Forall (fun m => fit_mode m = false) rms).
Proof.
  intros Hseg Hmet Heval Hspec. rewrite fit_basic_phases.
  unfold fit_basic.fit_phases. intros Hrun.
  apply bind_ok_inv in Hrun as ([st [p u]] & w1 & Hprep & Hrun).
  apply bind_ok_inv in Hrun as (imp & w2 & Hopt & Hfin).
  destruct (fit_prepare_caller_spec _ _ _ _ _ _ _ _ _ Hspec Hprep)
    as (-> & -> & Hdom1 & items1 & ms1 & Hspec1 & Hdef).
  pose proof (fit_optimize_grows data modelspec fitter
                (fit_basic.default_cost cost_function) segmentor metric
                Hseg Hmet Heval w1) as Hg.
  rewrite Hopt in Hg. unfold heap_grows in Hg. simpl in Hg.
  apply fit_finish_run in Hfin
    as (improved & e3 & R & itemsf & items' & rms & Hu & Hrs & HLf & _
        & HR & Hfr & _ & HspecR & _ & _ & _ & Hoff & Hframe).
  destruct (unpacker_run modelspec imp (wenv w2)) as [Hsub3 Hfresh].
  rewrite Hu in Hsub3. simpl in Hsub3.
  destruct (Hfresh _ _ Hu) as (Hni & itemsu & HLu & Hnone).
  rewrite HLf in HLu. inversion HLu; subst itemsu. clear HLu.
  assert (heap (wenv w1) ⊆ heap (wenv w')) as Hsub.
  { apply map_subseteq_spec. intros l o Hl.
    eapply lookup_weaken in Hl; [|exact Hg].
    apply Hframe.
    - intros Hin. rewrite Forall_forall in Hnone.
      specialize (Hnone l Hin). congruence.
    - by eapply lookup_weaken. }
  assert (dom (heap (wenv w)) ⊆ dom (heap e3)) as Hdom3.
  { etrans; [exact Hdom1|].
    etrans; [apply subseteq_dom; exact Hg|].
    apply subseteq_dom. exact Hsub3. }
  split.
  - exists items1, ms1. split; [|done]. by eapply spec_in_mono.
  - exists R, items', rms. split; [done|]. split; [done|]. split; [|split].
    + intros Hin. apply Hdom3 in Hin. apply elem_of_dom in Hin as [o Ho].
      congruence.
    + eapply Forall_impl; [exact Hfr|]. intros l Hl Hin.
      apply Hdom3 in Hin. apply elem_of_dom in Hin as [o Ho]. congruence.
    + done.
Qed.

End CallerSpec.

(** ** The mapper *)

Section MapperFacts.
Context `{Domain}.

Lemma unpack_items_concat (items : list (string * list num)) (rest : list num) :
  unpack_items items (concat items.*2 ++ rest) = Some (items, rest).
Proof.
  induction items as [|[k a] items IH]; [done|].
  rewrite fmap_cons. cbn [unpack_items concat snd].
  rewrite <- app_assoc.
  rewrite decide_True by (rewrite length_app; lia).
  by rewrite drop_app_length, take_app_length, IH.
Qed.

Lemma sorted_items_to_map (p : gmap string (list num)) :
  list_to_map (sorted_items p) = p.
Proof.
  symmetry. apply list_to_map_flip. symmetry.
  apply merge_sort_Permutation.
Qed.

Lemma unpack_phi_pack (p : gmap string (list num)) (rest : list num) :
  unpack_phi p (pack_phi p ++ rest) = Some (p, rest).
Proof.
  unfold unpack_phi, pack_phi.
  by rewrite unpack_items_concat, sorted_items_to_map.
Qed.

Lemma with_phi_same (m : module) (p : gmap string (list num)) :
  phi m = Some p -> with_phi m (Some p) = m.
Proof. destruct m; simpl; intros ->; done. Qed.

Lemma unpack_modules_pack (ms : list module) (rest : list num) :
  unpack_modules ms (pack_spec ms ++ rest) = Some (ms, rest).
Proof.
  induction ms as [|m ms IH]; [done|].
  unfold pack_spec in *. rewrite fmap_cons.
  cbn [unpack_modules concat].
  destruct (phi m) as [p|] eqn:Hp; unfold pack_module at 1; rewrite Hp.
  - rewrite <- app_assoc, unpack_phi_pack, IH.
    by rewrite with_phi_same.
  - simpl. by rewrite IH.
Qed.

Lemma unpack_modules_non_numeric (t : list module) :
  forall vec ms rest,
    unpack_modules t vec = Some (ms, rest) ->
    non_numeric <$> ms = non_numeric <$> t.
Proof.
  induction t as [|m t IH]; simpl; intros vec ms rest Hu.
  - by inversion Hu.
  - destruct (phi m) as [p|].
    + destruct (unpack_phi p vec) as [[p' v1]|]; [|done].
      destruct (unpack_modules t v1) as [[r v2]|] eqn:Hr; [|done].
      inversion Hu; subst. simpl. f_equal. eauto.
    + destruct (unpack_modules t vec) as [[r v2]|] eqn:Hr; [|done].
      inversion Hu; subst. simpl. f_equal. eauto.
Qed.

Lemma pack_phi_length (p : gmap string (list num)) :
  length (pack_phi p) = sum_list (map_to_list (length <$> p)).*2.
Proof.
  unfold pack_phi, sorted_items.
  rewrite length_concat.
  rewrite map_to_list_fmap.
  rewrite (merge_sort_Permutation key_le (map_to_list p)).
  rewrite <- !list_fmap_compose. done.
Qed.

Lemma pack_spec_length (ms : list module) :
  length (pack_spec ms) = sum_list (phi_size <$> shape ms).
Proof.
  unfold pack_spec, shape. rewrite length_concat, <- !list_fmap_compose.
  f_equal. apply list_fmap_ext. intros _ m _. simpl.
  unfold pack_module. destruct (phi m); simpl; [apply pack_phi_length|done].
Qed.

Lemma unpack_spec_non_numeric (spec spec' : list module) (vec : list num) :
  unpack_spec spec vec = Ok spec' ->
  non_numeric <$> spec' = non_numeric <$> spec.
Proof.
  unfold unpack_spec. intros Hu.
  destruct (unpack_modules spec vec) as [[ms [|x rest]]|] eqn:Hm; try done.
  inversion Hu; subst. by eapply unpack_modules_non_numeric.
Qed.

#[local] Instance key_le_total : Total key_le.
Proof.
  intros a b. unfold key_le. destruct (String.leb_total a.1 b.1); auto.
Qed.

#[local] Instance name_le_trans : Transitive name_le.
Proof.
  intros a b c Ha Hb. unfold name_le in *.
  apply Is_true_true. apply Is_true_true in Ha, Hb.
  exact (transitivity (R := String.le) Ha Hb).
Qed.

#[local] Instance name_le_antisymm : AntiSymm (=) name_le.
Proof. intros a b Ha Hb. by apply String.leb_antisym. Qed.

(** The names of a parameter group in order depend on its names only. *)
Lemma sorted_names (l1 l2 : list (string * list num)) :
  Sorted key_le l1 -> Sorted key_le l2 -> l1.*1 ≡ₚ l2.*1 -> l1.*1 = l2.*1.
Proof.
  intros H1 H2 Hp.
  apply (Sorted_unique name_le); [| |done].
  - eapply Sorted_fmap; [|exact H1]. by intros x y.
  - eapply Sorted_fmap; [|exact H2]. by intros x y.
Qed.

Lemma sorted_items_sorted (p : gmap string (list num)) :
  Sorted key_le (sorted_items p).
Proof. apply (Sorted_merge_sort key_le). Qed.

Lemma sorted_items_perm (p : gmap string (list num)) :
  sorted_items p ≡ₚ map_to_list p.
Proof. apply merge_sort_Permutation. Qed.

Lemma sorted_items_nodup (p : gmap string (list num)) :
  NoDup (sorted_items p).*1.
Proof. rewrite sorted_items_perm. apply NoDup_fst_map_to_list. Qed.

(** Entries with distinct names are determined by their names and the map
    they make. *)
Lemma items_of_map (l1 l2 : list (string * list num)) :
  NoDup l1.*1 -> l1.*1 = l2.*1 ->
  (list_to_map l1 : gmap string (list num)) = list_to_map l2 ->
  l1 = l2.
Proof.
  intros Hnd Hk Hm.
  assert (NoDup l2.*1) as Hnd2 by (by rewrite <- Hk).
  apply list_eq. intros i.
  assert (l1.*1 !! i = l2.*1 !! i) as Hi by (by rewrite Hk).
  rewrite !list_lookup_fmap in Hi.
  destruct (l1 !! i) as [[k v]|] eqn:H1, (l2 !! i) as [[k' v']|] eqn:H2;
    simpl in Hi; try done.
  injection Hi as <-.
  apply list_elem_of_lookup_2 in H1, H2.
  apply (elem_of_list_to_map_1 (M := gmap string)) in H1; [|done].
  apply (elem_of_list_to_map_1 (M := gmap string)) in H2; [|done].
  rewrite Hm in H1. congruence.
Qed.

(** Entries in name order are the sorted entries of their map. *)
Lemma sorted_items_of_list (items : list (string * list num)) :
  NoDup items.*1 -> Sorted key_le items ->
  sorted_items (list_to_map items) = items.
Proof.
  intros Hnd Hs.
  assert (sorted_items (list_to_map items) ≡ₚ items) as Hp.
  { rewrite sorted_items_perm. by apply map_to_list_to_map. }
  apply items_of_map.
  - apply sorted_items_nodup.
  - apply sorted_names; [apply sorted_items_sorted|done|by rewrite Hp].
  - apply sorted_items_to_map.
Qed.

(** Sortedness by name is a matter of the names. *)
Lemma sorted_by_names (l1 l2 : list (string * list num)) :
  l1.*1 = l2.*1 -> Sorted key_le l1 -> Sorted key_le l2.
Proof.
  revert l2. induction l1 as [|[k v] l1 IH]; intros [|[k' v'] l2] Hk Hs;
    try done; try (by constructor).
  simpl in Hk. injection Hk as <- Hk.
  apply Sorted_inv in Hs as [Hs Hhd]. constructor; [by apply IH|].
  destruct l1 as [|[k1 v1] l1], l2 as [|[k2 v2] l2]; try done;
    try (by constructor).
  simpl in Hk. injection Hk as <- Hk. apply HdRel_inv in Hhd.
  constructor. exact Hhd.
Qed.

(** What [unpack_items] returns: the names of the template, as many values
    for each as the template has, taken from the front of the vector in
    order. *)
Lemma unpack_items_inv (items : list (string * list num)) :
  forall vec items' rest,
    unpack_items items vec = Some (items', rest) ->
    items'.*1 = items.*1 /\
    length <$> items'.*2 = length <$> items.*2 /\
    vec = concat items'.*2 ++ rest.
Proof.
  induction items as [|[k a] items IH]; intros vec items' rest Hu.
  - by injection Hu as <- <-.
  - cbn [unpack_items] in Hu.
    destruct (decide (length a <= length vec)%nat) as [Hle|]; [|done].
    destruct (unpack_items items (drop (length a) vec)) as [[r v']|] eqn:Hr;
      [|done].
    injection Hu as <- <-.
    destruct (IH _ _ _ Hr) as (Hk & Hl & Hv).
    rewrite !fmap_cons. cbn [fst snd concat].
    split; [by rewrite Hk|]. split.
    + rewrite Hl. f_equal. rewrite length_take. lia.
    + rewrite <- app_assoc, <- Hv. by rewrite take_drop.
Qed.

(** [unpack_items] returns when the vector is long enough. *)
Lemma unpack_items_ok (items : list (string * list num)) :
  forall vec,
    (length (concat items.*2) <= length vec)%nat ->
    is_Some (unpack_items items vec).
Proof.
  induction items as [|[k a] items IH]; intros vec Hlen; [by eexists|].
  rewrite fmap_cons in Hlen. cbn [snd concat] in Hlen.
  rewrite length_app in Hlen.
  cbn [unpack_items]. rewrite decide_True by lia.
  destruct (IH (drop (length a) vec)) as [[r v'] Hr].
  { rewrite length_drop. lia. }
  rewrite Hr. by eexists.
Qed.

Lemma length_concat_same {A} (l1 l2 : list (list A)) :
  length <$> l1 = length <$> l2 -> length (concat l1) = length (concat l2).
Proof.
  intros Hl. rewrite !length_concat. f_equal. exact Hl.
Qed.

(** What [unpack_phi] returns: a group of the template's shape whose packed
    values are the front of the vector. *)
Lemma unpack_phi_inv (p p' : gmap string (list num)) (vec rest : list num) :
  unpack_phi p vec = Some (p', rest) ->
  vec = pack_phi p' ++ rest /\ length <$> p' = length <$> p.
Proof.
  unfold unpack_phi, pack_phi.
  destruct (unpack_items (sorted_items p) vec) as [[items' rest']|] eqn:Hu;
    [|done].
  intros Hp. injection Hp as <- <-.
  destruct (unpack_items_inv _ _ _ _ Hu) as (Hk & Hl & Hv).
  assert (sorted_items (list_to_map items') = items') as Hs.
  { apply sorted_items_of_list.
    - rewrite Hk. apply sorted_items_nodup.
    - eapply sorted_by_names; [symmetry; exact Hk|].
      apply sorted_items_sorted. }
  rewrite Hs. split; [done|].
  rewrite <- (sorted_items_to_map p).
  rewrite <- !list_to_map_fmap. f_equal.
  apply list_eq. intros i.
  assert (items'.*1 !! i = (sorted_items p).*1 !! i) as Hki
    by (by rewrite Hk).
  assert ((length <$> items'.*2) !! i =
          (length <$> (sorted_items p).*2) !! i) as Hli
    by (by rewrite Hl).
  rewrite !list_lookup_fmap in Hki. rewrite !list_lookup_fmap in Hli.
  rewrite !list_lookup_fmap.
  destruct (items' !! i) as [[k v]|], (sorted_items p !! i) as [[k0 v0]|];
    simpl in *; try done.
  injection Hki as ->. injection Hli as Hli.
  unfold prod_map. simpl. by rewrite Hli.
Qed.

Lemma unpack_phi_ok (p : gmap string (list num)) (vec : list num) :
  (length (pack_phi p) <= length vec)%nat -> is_Some (unpack_phi p vec).
Proof.
  unfold unpack_phi, pack_phi. intros Hlen.
  destruct (unpack_items_ok (sorted_items p) vec Hlen) as [[r v] ->].
  by eexists.
Qed.

Lemma pack_spec_cons (m : module) (ms : list module) :
  pack_spec (m :: ms) = pack_module m ++ pack_spec ms.
Proof. reflexivity. Qed.

Lemma pack_spec_same_shape (ms ms' : list module) :
  shape ms' = shape ms -> length (pack_spec ms') = length (pack_spec ms).
Proof. intros Hs. by rewrite !pack_spec_length, Hs. Qed.

(** What [unpack_modules] returns: modules of the template's shape whose
    packed values are the front of the vector. *)
Lemma unpack_modules_inv (t : list module) :
  forall vec ms rest,
    unpack_modules t vec = Some (ms, rest) ->
    vec = pack_spec ms ++ rest /\ shape ms = shape t.
Proof.
  induction t as [|m t IH]; intros vec ms rest Hu.
  - by injection Hu as <- <-.
  - cbn [unpack_modules] in Hu.
    destruct (phi m) as [p|] eqn:Hp.
    + destruct (unpack_phi p vec) as [[p' v1]|] eqn:Hphi; [|done].
      destruct (unpack_modules t v1) as [[r v2]|] eqn:Hr; [|done].
      injection Hu as <- <-.
      destruct (unpack_phi_inv _ _ _ _ Hphi) as [Hv Hl].
      destruct (IH _ _ _ Hr) as [Hv1 Hs].
      rewrite pack_spec_cons. unfold pack_module, shape. simpl.
      split; [by rewrite <- app_assoc, <- Hv1|].
      rewrite Hp. simpl. rewrite Hl. f_equal. exact Hs.
    + destruct (unpack_modules t vec) as [[r v2]|] eqn:Hr; [|done].
      injection Hu as <- <-.
      destruct (IH _ _ _ Hr) as [Hv1 Hs].
      rewrite pack_spec_cons. unfold pack_module, shape. simpl.
      rewrite Hp. simpl. split; [done|]. f_equal. exact Hs.
Qed.

(** [unpack_modules] returns when the vector is long enough. *)
Lemma unpack_modules_ok (t : list module) :
  forall vec,
    (length (pack_spec t) <= length vec)%nat ->
    is_Some (unpack_modules t vec).
Proof.
  induction t as [|m t IH]; intros vec Hlen; [by eexists|].
  rewrite pack_spec_cons, length_app in Hlen. unfold pack_module in Hlen.
  cbn [unpack_modules].
  destruct (phi m) as [p|] eqn:Hp.
  - destruct (unpack_phi_ok p vec) as [[p' v1] Hphi]; [lia|].
    rewrite Hphi.
    destruct (unpack_phi_inv _ _ _ _ Hphi) as [Hv Hl].
    assert (length (pack_phi p') = length (pack_phi p)) as Hpl
      by (by rewrite !pack_phi_length, Hl).
    destruct (IH v1) as [[r v2] Hr].
    { rewrite Hv, length_app in Hlen. lia. }
    rewrite Hr. by eexists.
  - simpl in Hlen. destruct (IH vec Hlen) as [[r v2] Hr].
    rewrite Hr. by eexists.
Qed.

(** A vector that unpacks is the packed result: every value of the result
    is read from the vector, in the order of [pack]. *)
Lemma unpack_spec_inv (t spec' : list module) (vec : list num) :
  unpack_spec t vec = Ok spec' ->
  pack_spec spec' = vec /\ shape spec' = shape t.
Proof.
  unfold unpack_spec. intros Hu.
  destruct (unpack_modules t vec) as [[ms [|x rest]]|] eqn:Hm; try done.
  injection Hu as <-.
  destruct (unpack_modules_inv _ _ _ _ Hm) as [Hv Hs].
  by rewrite app_nil_r in Hv.
Qed.

(** A vector unpacks exactly when it has the length of the packed
    template. *)
Lemma unpack_spec_length (t : list module) (vec : list num) :
  match unpack_spec t vec with
  | Ok _ => length vec = length (pack_spec t)
  | Raise ex => ex = ValueError /\ length vec <> length (pack_spec t)
  end.
Proof.
  destruct (unpack_spec t vec) as [spec'|ex] eqn:Hu.
  - destruct (unpack_spec_inv _ _ _ Hu) as [<- Hs].
    symmetry. by apply pack_spec_same_shape.
  - unfold unpack_spec in Hu.
    destruct (unpack_modules t vec) as [[ms [|x rest]]|] eqn:Hm; try done.
    + injection Hu as <-. split; [done|].
      destruct (unpack_modules_inv _ _ _ _ Hm) as [Hv Hs].
      apply pack_spec_same_shape in Hs.
      rewrite Hv, length_app. simpl. lia.
    + injection Hu as <-. split; [done|]. intros Hlen.
      destruct (unpack_modules_ok t vec) as [? Hok]; [lia|]. congruence.
Qed.

(** Two groups of the same shape have the same names in order, each with
    as many values. *)
Lemma sorted_items_same_shape (p p2 : gmap string (list num)) :
  length <$> p2 = length <$> p ->
  (sorted_items p).*1 = (sorted_items p2).*1 /\
  length <$> (sorted_items p).*2 = length <$> (sorted_items p2).*2.
Proof.
  intros Hs.
  assert ((sorted_items p).*1 = (sorted_items p2).*1) as Hk.
  { assert (forall q : gmap string (list num),
              (map_to_list (length <$> q)).*1 ≡ₚ (map_to_list q).*1) as Hq.
    { intros q. rewrite map_to_list_fmap, <- list_fmap_compose.
      assert ((fst ∘ prod_map id length) <$> map_to_list q =
              (map_to_list q).*1) as -> by (by apply list_fmap_ext).
      done. }
    apply sorted_names; try apply sorted_items_sorted.
    by rewrite !sorted_items_perm, <- (Hq p), <- (Hq p2), Hs. }
  split; [exact Hk|].
  apply list_eq. intros i.
  assert ((sorted_items p).*1 !! i = (sorted_items p2).*1 !! i) as Hki
    by (by rewrite Hk).
  rewrite !list_lookup_fmap in Hki. rewrite !list_lookup_fmap.
  destruct (sorted_items p !! i) as [[k v]|] eqn:H1,
           (sorted_items p2 !! i) as [[k' v']|] eqn:H2; simpl in *; try done.
  injection Hki as <-.
  apply list_elem_of_lookup_2 in H1, H2.
  rewrite sorted_items_perm in H1, H2.
  apply elem_of_map_to_list in H1, H2.
  assert ((length <$> p2) !! k = (length <$> p) !! k) as Hlk
    by (by rewrite Hs).
  rewrite !lookup_fmap, H1, H2 in Hlk. simpl in Hlk. congruence.
Qed.

Lemma unpack_items_same_shape (items : list (string * list num)) :
  forall items2 rest,
    items.*1 = items2.*1 ->
    length <$> items.*2 = length <$> items2.*2 ->
    unpack_items items (concat items2.*2 ++ rest) = Some (items2, rest).
Proof.
  induction items as [|[k a] items IH]; intros [|[k2 a2] items2] rest Hk Hl;
    try done.
  rewrite !fmap_cons in Hk. rewrite !fmap_cons in Hl.
  cbn [fst snd] in Hk, Hl.
  injection Hk as <- Hk. injection Hl as Ha Hl.
  rewrite fmap_cons. cbn [unpack_items concat snd].
  rewrite <- app_assoc, Ha.
  rewrite decide_True by (rewrite length_app; lia).
  by rewrite drop_app_length, take_app_length, IH.
Qed.

Lemma unpack_phi_same_shape (p p2 : gmap string (list num)) rest :
  length <$> p2 = length <$> p ->
  unpack_phi p (pack_phi p2 ++ rest) = Some (p2, rest).
Proof.
  intros Hs. destruct (sorted_items_same_shape p p2 Hs) as [Hk Hl].
  unfold unpack_phi, pack_phi.
  by rewrite (unpack_items_same_shape _ _ _ Hk Hl), sorted_items_to_map.
Qed.

(** Unpacking the packed values of a specification of the template's shape
    gives the template with those values. *)
Lemma unpack_modules_same_shape (t : list module) :
  forall spec2 rest,
    shape spec2 = shape t ->
    exists ms,
      unpack_modules t (pack_spec spec2 ++ rest) = Some (ms, rest) /\
      phi <$> ms = phi <$> spec2.
Proof.
  induction t as [|m t IH]; intros [|m2 spec2] rest Hs; try done.
  - by exists [].
  - unfold shape in Hs. rewrite !fmap_cons in Hs.
    injection Hs as Hm Hs.
    destruct (IH spec2 rest Hs) as (ms & Hu & Hphi).
    rewrite pack_spec_cons. unfold pack_module. cbn [unpack_modules].
    destruct (phi m) as [p|] eqn:Hp, (phi m2) as [p2|] eqn:Hp2;
      simpl in Hm; try done.
    + injection Hm as Hm.
      rewrite <- app_assoc, (unpack_phi_same_shape p p2 _ Hm), Hu.
      eexists. split; [done|]. rewrite !fmap_cons. simpl.
      by rewrite Hp2, Hphi.
    + simpl. rewrite Hu. eexists. split; [done|]. rewrite !fmap_cons.
      by rewrite Hp, Hp2, Hphi.
Qed.

(** C7: for every specification, unpacking the packed vector gives back the
    specification, parameter values included.  More generally the vector
    packed from any specification of the template's structure unpacks to
    the template with that specification's parameter values, and two
    specifications of the same structure pack to vectors of the same
    length.  Whatever vector unpacks, the values of the result are those of
    the vector, in the order of [pack], its structure is the template's, and
    its fields other than phi are the template's.  A vector unpacks exactly
    when its length is that of the packed template; any other raises.  The
    closures of the mapper do the same through the store: the
    specification unpacked from a vector is a new object. *)
Theorem mapper_round_trip (spec : list module) :
  unpack_spec spec (pack_spec spec) = Ok spec /\
  (forall spec2,
     shape spec2 = shape spec ->
     length (pack_spec spec2) = length (pack_spec spec) /\
     exists spec',
       unpack_spec spec (pack_spec spec2) = Ok spec' /\
       phi <$> spec' = phi <$> spec2 /\
       non_numeric <$> spec' = non_numeric <$> spec) /\
  (forall vec spec',
     unpack_spec spec vec = Ok spec' ->
     pack_spec spec' = vec /\
     shape spec' = shape spec /\
     non_numeric <$> spec' = non_numeric <$> spec) /\
  (forall vec,
     (length vec = length (pack_spec spec) ->
      exists spec', unpack_spec spec vec = Ok spec') /\
     (length vec <> length (pack_spec spec) ->
      unpack_spec spec vec = Raise ValueError)) /\
  (forall L items e,
     spec_in (heap e) L items spec ->
     simple_vector L e = (Ok (packer, unpacker L), e) /\
     packer L e = (Ok (pack_spec spec), e) /\
     forall vec,
       match unpack_spec spec vec with
       | Ok spec' =>
           exists L' e',
             unpacker L vec e = (Ok L', e') /\
             heap e !! L' = None /\
             read_spec L' e' = (Ok spec', e')
       | Raise ex => unpacker L vec e = (Raise ex, e)
       end).
Proof.
  assert (unpack_spec spec (pack_spec spec) = Ok spec) as Hrt.
  { unfold unpack_spec.
    rewrite <- (app_nil_r (pack_spec spec)) at 1.
    by rewrite unpack_modules_pack. }
  split; [exact Hrt|]. split; [|split; [|split]].
  - intros spec2 Hshape. split; [by apply pack_spec_same_shape|].
    destruct (unpack_modules_same_shape spec spec2 [] Hshape)
      as (ms & Hu & Hphi).
    exists ms. rewrite app_nil_r in Hu.
    assert (unpack_spec spec (pack_spec spec2) = Ok ms) as Hok
      by (unfold unpack_spec; by rewrite Hu).
    split; [exact Hok|]. split; [exact Hphi|].
    by eapply unpack_spec_non_numeric.
  - intros vec spec' Hu.
    destruct (unpack_spec_inv _ _ _ Hu) as [Hv Hs].
    split; [exact Hv|]. split; [exact Hs|].
    by eapply unpack_spec_non_numeric.
  - intros vec. pose proof (unpack_spec_length spec vec) as Hlen.
    destruct (unpack_spec spec vec) as [spec'|ex]; split.
    + intros _. by exists spec'.
    + intros Hne. by destruct Hne.
    + intros He. by destruct Hlen as [_ Hne].
    + intros _. by destruct Hlen as [-> _].
  - intros L items e Hspec.
    pose proof (read_spec_ok _ _ _ _ Hspec) as Hread.
    split; [done|]. split.
    { unfold packer, bind. by rewrite Hread. }
    intros vec. destruct (unpack_spec spec vec) as [spec'|ex] eqn:Hu.
    + destruct (alloc_spec_run spec' e)
        as (L' & items' & e' & Hrun & _ & _ & HL' & _ & Hspec').
      exists L', e'. split; [|split].
      * unfold unpacker, bind. by rewrite Hread, Hu.
      * done.
      * by eapply read_spec_ok.
    + unfold unpacker, bind. by rewrite Hread, Hu.
Qed.

End MapperFacts.

(** ** [fit_basic] on the concrete instance *)

Section ExampleFit.
Import Example.

(** C4, counterexample: both cost functions carry a last error and a cache
    from earlier use.  A fit with [cost_functions.basic_cost] whose
    minimizer returns at once ends with the counter of that function at 0
    and its last error and cache as they were: they were neither reset when
    the fit began nor discarded when it ended. *)
Lemma fit_keeps_error_and_cache :
  let r := fit (Some cost_functions_basic_cost) lazy_fitter true w_used in
  cf_attrs w_used = Attrs (Some 41%Z) (Some (Some 7%Z)) (Some tt) /\
  fst r = Ok [10%positive] /\
  cf_attrs (snd r) = Attrs (Some 0%Z) (Some (Some 7%Z)) (Some tt).
Proof. vm_compute. repeat split. Qed.

Lemma fit_resets_only_counter_witness :
  counter (fb_attrs (snd (fit None fitter true w_fit))) = Some 2%Z.
Proof.
  destruct (fit_resets_only_counter evaluate copy_stack_data None 1%positive
              fitter None segmentor simple_vector metric "fit_basic" true
              w_fit) as (_ & _ & Hcount).
  refine (eq_trans (Hcount [16%positive] _) _); vm_compute; reflexivity.
Defined.

(** C5, counterexample: the caller's specification holds a module with phi
    and a module without; after the fit the same list holds two modules
    marked as in fitting mode, both with phi. *)
Lemma fit_changes_caller_spec :
  let before := fst (read_spec 1%positive (wenv w_fit)) in
  let after :=
    fst (read_spec 1%positive
           (wenv (snd (fit None lazy_fitter true w_fit)))) in
  before = Ok [m_fir; m_lvl] /\
  after =
    Ok [with_fit_mode true m_fir;
        with_fit_mode true (with_phi m_lvl (Some {[ "b" := [2%Z] ]}))] /\
  before <> after.
Proof.
  assert (fst (read_spec 1%positive (wenv w_fit)) = Ok [m_fir; m_lvl]) as Hb
    by (vm_compute; reflexivity).
  assert (fst (read_spec 1%positive
                 (wenv (snd (fit None lazy_fitter true w_fit)))) =
          Ok [with_fit_mode true m_fir;
              with_fit_mode true (with_phi m_lvl (Some {[ "b" := [2%Z] ]}))])
    as Ha by (vm_compute; reflexivity).
  cbv zeta. rewrite Hb, Ha. repeat split. intros Heq. inversion Heq.
Qed.

Lemma example_spec_in (m2 : module) :
  spec_in (spec_at_1 m2) 1%positive [2%positive; 3%positive] [m_fir; m2].
Proof. split; [reflexivity|]. repeat constructor. Qed.

Lemma example_reads_only :
  (forall d, reads_only (segmentor d)) /\
  (forall d, reads_only (metric d)) /\
  (forall d l s k, reads_only (evaluate d l s k)).
Proof. repeat split. Qed.

Lemma fit_mutates_caller_spec_witness :
  exists R,
    fst (fit None fitter true w_fit) = Ok [R] /\
    (R ∉ dom (heap (wenv w_fit))).
Proof.
  assert (fit None fitter true w_fit =
          (Ok [16%positive], snd (fit None fitter true w_fit))) as Hrun
    by (vm_compute; reflexivity).
  destruct example_reads_only as (Hseg & Hmet & Heval).
  destruct (fit_mutates_caller_spec evaluate copy_stack_data None 1%positive
              fitter None segmentor metric "fit_basic" true w_fit
              [2%positive; 3%positive] [m_fir; m_lvl] [16%positive]
              (snd (fit None fitter true w_fit)) Hseg Hmet Heval
              (example_spec_in m_lvl) Hrun)
    as (_ & R & items' & rms & HR & _ & Hfresh & _).
  exists R. split; [|exact Hfresh]. rewrite Hrun. cbn [fst]. by rewrite HR.
Defined.

(** C6, counterexample: the clock is set back by 10 between the two
    readings.  The fit returns, and the metadata of its result hold a
    'fit_time' of -10. *)
Lemma fit_time_can_be_negative :
  let r := fit None lazy_fitter true ExampleClock.w_set_back in
  match fst r with
  | Ok [R] =>
      match fst (read_spec R (wenv (snd r))) with
      | Ok ms => get_modelspec_metadata ms "fit_time" = Some (MTime (-10))
      | Raise _ => False
      end
  | _ => False
  end.
Proof. vm_compute. reflexivity. Qed.

Lemma fit_returns_copy_with_metadata_witness :
  exists ms elapsed,
    get_modelspec_metadata ms "fitter" = Some (MStr "fit_basic") /\
    get_modelspec_metadata ms "fit_time" = Some (MTime elapsed) /\
    elapsed = (clock w_fit (S (ticks w_fit)) - clock w_fit (ticks w_fit))%Z.
Proof.
  assert (fit None fitter true w_fit =
          (Ok [16%positive], snd (fit None fitter true w_fit))) as Hrun
    by (vm_compute; reflexivity).
  destruct (fit_returns_copy_with_metadata evaluate copy_stack_data None
              1%positive fitter None segmentor simple_vector metric
              "fit_basic" true w_fit [16%positive]
              (snd (fit None fitter true w_fit)) Hrun)
    as (st & p & u & w1 & imp & w2 & improved & e3 & R & items & items'
        & ms & elapsed & _ & _ & _ & _ & _ & _ & _ & _ & _ & Hf & Ht & He
        & _).
  exists ms, elapsed. exact (conj Hf (conj Ht He)).
Defined.

Lemma mapper_round_trip_witness :
  length (pack_spec [with_phi m_fir (Some {[ "a" := [5%Z] ]});
                     with_phi m_lvl_phi (Some {[ "b" := [3%Z] ]})]) =
  length (pack_spec [m_fir; m_lvl_phi]).
Proof.
  destruct (mapper_round_trip [m_fir; m_lvl_phi]) as (_ & Hshape & _).
  destruct (Hshape [with_phi m_fir (Some {[ "a" := [5%Z] ]});
                    with_phi m_lvl_phi (Some {[ "b" := [3%Z] ]})])
    as [Hlen _]; [vm_compute; reflexivity|].
  exact Hlen.
Defined.

(** C8, counterexample: with [require_phi] unset nothing is defaulted and
    nothing fails.  The mapper here keeps all parameters out of the search.
    The module that lacks phi and has a prior still lacks phi after the
    fit, and the fit of a specification with a module lacking both phi and
    prior returns; in both the minimizer is called. *)
Lemma fit_without_require_phi :
  let r := ExampleMapper.fit_fixed false w_fit in
  let r' := ExampleMapper.fit_fixed false w_bare in
  match fst (read_spec 1%positive (wenv (snd r))) with
  | Ok after => (fun m => has (phi m)) <$> after = [true; false]
  | Raise _ => False
  end /\
  called_before Fitter DeepCopy (calls (trace (snd r))) = true /\
  fst r' = Ok [7%positive] /\
  called_before Fitter DeepCopy (calls (trace (snd r'))) = true.
Proof. vm_compute. repeat split. Qed.

Lemma fit_defaults_phi_or_fails_witness :
  fst (fit None fitter true w_bare) = Raise (KeyError "prior").
Proof.
  destruct (fit_defaults_phi_or_fails evaluate copy_stack_data None
              1%positive fitter None segmentor simple_vector metric
              "fit_basic" w_bare [2%positive; 3%positive] [m_fir; m_bare]
              (example_spec_in m_bare)) as (_ & Hfail & _).
  apply Hfail. apply Exists_cons_tl, Exists_cons_hd. split; reflexivity.
Defined.

End ExampleFit.

(** * Further properties of the code *)

(** ** The instrumentation of the cost functions *)

Ltac new_calls :=
  repeat rewrite <- app_assoc; rewrite calls_app; simpl; try reflexivity.

Ltac absent :=
  let Hin := fresh "Hin" in
  intros Hin; exfalso;
  repeat (apply elem_of_cons in Hin as [Hin|Hin]; [discriminate Hin|]);
  by apply elem_of_nil in Hin.

Section CostInstrumentation.
Context `{Domain}.

Variable last_matching_phi : loc -> loc -> CM Z.
Variable copy_stack_data : Data -> Stack -> Z -> loc -> CM Data.

Lemma evaluations_snoc (t : list event) (ev : event) :
  evaluations (t ++ [ev]) =
  (evaluations t + if is_evaluation ev then 1 else 0)%nat.
Proof. rewrite evaluations_app. unfold evaluations. simpl. by destruct ev. Qed.

Ltac told :=
  repeat rewrite observations_app; repeat rewrite evaluations_snoc;
  unfold progress_report; simpl;
  repeat match goal with
         | Hz : (_ =? 0)%Z = _ |- _ => rewrite Hz
         end;
  repeat rewrite app_nil_r; repeat rewrite <- app_assoc; simpl;
  try done; try lia.

(** What a call of [cost_functions.basic_cost] leaves behind, by
    outcome. *)
Lemma cf_basic_cost_outcome sigma unpacker modelspec data segmentor evaluator
    metric keep_stack w :
  let r := cost_functions.basic_cost last_matching_phi copy_stack_data sigma
             unpacker modelspec data segmentor evaluator metric keep_stack
             w in
  fb_attrs (snd r) = fb_attrs w /\
  (keep_stack = false -> stack (cf_attrs (snd r)) = stack (cf_attrs w)) /\
  match fst r with
  | Ok err =>
      counter (cf_attrs (snd r)) = (fun n => n + 1)%Z <$> counter (cf_attrs w) /\
      error (cf_attrs (snd r)) = (fun _ => err) <$> error (cf_attrs w) /\
      observations (trace (snd r)) =
        observations (trace w) ++
        match counter (cf_attrs w) with
        | Some n => progress_report 500 (n + 1) err
        | None => []
        end /\
      evaluations (trace (snd r)) = S (evaluations (trace w))
  | Raise _ =>
      counter (cf_attrs (snd r)) = counter (cf_attrs w) /\
      error (cf_attrs (snd r)) = error (cf_attrs w) /\
      observations (trace (snd r)) = observations (trace w) /\
      evaluations (trace (snd r)) = evaluations (trace w)
  end.
Proof.
  unfold cost_functions.basic_cost.
  destruct w as [e [c er st] fb t clk k].
  destruct keep_stack; run.
  all: split; [done|]; split; [done|].
  all: repeat match goal with
         | Hc : _ = Some _ |- _ => simpl in Hc; try injection Hc as ->
         | Hc : _ = None |- _ => simpl in Hc; try subst
         end.
  all: repeat split; told.
Qed.

(** What a call of [basic_cost] of fit_basic.py leaves behind, by
    outcome. *)
Lemma fb_basic_cost_outcome sigma unpacker modelspec data segmentor evaluator
    metric w :
  let r := fit_basic.basic_cost sigma unpacker modelspec data segmentor
             evaluator metric w in
  cf_attrs (snd r) = cf_attrs w /\
  stack (fb_attrs (snd r)) = stack (fb_attrs w) /\
  match fst r with
  | Ok err =>
      counter (fb_attrs (snd r)) = (fun n => n + 1)%Z <$> counter (fb_attrs w) /\
      error (fb_attrs (snd r)) = (fun _ => err) <$> error (fb_attrs w) /\
      observations (trace (snd r)) =
        observations (trace w) ++
        match counter (fb_attrs w) with
        | Some n => progress_report 1000 (n + 1) err
        | None => []
        end /\
      evaluations (trace (snd r)) = S (evaluations (trace w))
  | Raise _ =>
      fb_attrs (snd r) = fb_attrs w /\
      observations (trace (snd r)) = observations (trace w) /\
      evaluations (trace (snd r)) = evaluations (trace w)
  end.
Proof.
  unfold fit_basic.basic_cost.
  destruct w as [e cf [c er st] t clk k].
  run.
  all: split; [done|]; split; [done|].
  all: repeat match goal with
         | Hc : _ = Some _ |- _ => simpl in Hc; try injection Hc as ->
         | Hc : _ = None |- _ => simpl in Hc; try subst
         end.
  all: repeat split; told.
Qed.

(** X1: a call that returns with a counter attribute holding [n] leaves it
    at [n + 1], and reports progress exactly when [n + 1] is a multiple of
    500 ([cost_functions.basic_cost]) or of 1000 ([basic_cost] of
    fit_basic.py): then the only new progress observations are the count
    with the error returned, followed by [progress_fun]; otherwise there is
    none. *)
Theorem basic_cost_counts_calls sigma unpacker modelspec data segmentor
    evaluator metric keep_stack w n err :
  let cf := cost_functions.basic_cost last_matching_phi copy_stack_data sigma
              unpacker modelspec data segmentor evaluator metric keep_stack
              w in
  let fb := fit_basic.basic_cost sigma unpacker modelspec data segmentor
              evaluator metric w in
  (counter (cf_attrs w) = Some n ->
   fst cf = Ok err ->
   counter (cf_attrs (snd cf)) = Some (n + 1)%Z /\
   observations (trace (snd cf)) =
     observations (trace w) ++ progress_report 500 (n + 1) err) /\
  (counter (fb_attrs w) = Some n ->
   fst fb = Ok err ->
   counter (fb_attrs (snd fb)) = Some (n + 1)%Z /\
   observations (trace (snd fb)) =
     observations (trace w) ++ progress_report 1000 (n + 1) err).
Proof.
  intros cf fb. split; intros Hn Hok.
  - destruct (cf_basic_cost_outcome sigma unpacker modelspec data segmentor
                evaluator metric keep_stack w) as (_ & _ & Hout).
    fold cf in Hout. rewrite Hok, Hn in Hout.
    destruct Hout as (Hc & _ & Hobs & _). by split.
  - destruct (fb_basic_cost_outcome sigma unpacker modelspec data segmentor
                evaluator metric w) as (_ & _ & Hout).
    fold fb in Hout. rewrite Hok, Hn in Hout.
    destruct Hout as (Hc & _ & Hobs & _). by split.
Qed.

(** X2: each [basic_cost] keeps its instrumentation on its own function
    object.  A call that returns [err] leaves [err] in the last-error
    attribute of the function called, if that attribute exists, and does
    not create it otherwise; the attributes of the other function named
    [basic_cost] are left as they are, whatever the outcome. *)
Theorem basic_cost_records_last_error sigma unpacker modelspec data segmentor
    evaluator metric keep_stack w :
  let cf := cost_functions.basic_cost last_matching_phi copy_stack_data sigma
              unpacker modelspec data segmentor evaluator metric keep_stack
              w in
  let fb := fit_basic.basic_cost sigma unpacker modelspec data segmentor
              evaluator metric w in
  (fb_attrs (snd cf) = fb_attrs w /\
   forall err,
     fst cf = Ok err ->
     error (cf_attrs (snd cf)) =
       if has (error (cf_attrs w)) then Some err else None) /\
  (cf_attrs (snd fb) = cf_attrs w /\
   forall err,
     fst fb = Ok err ->
     error (fb_attrs (snd fb)) =
       if has (error (fb_attrs w)) then Some err else None).
Proof.
  intros cf fb. split.
  - destruct (cf_basic_cost_outcome sigma unpacker modelspec data segmentor
                evaluator metric keep_stack w) as (Hfb & _ & Hout).
    fold cf in Hfb, Hout. split; [done|]. intros err Hok.
    rewrite Hok in Hout. destruct Hout as (_ & He & _).
    rewrite He. by destruct (error (cf_attrs w)).
  - destruct (fb_basic_cost_outcome sigma unpacker modelspec data segmentor
                evaluator metric w) as (Hcf & _ & Hout).
    fold fb in Hcf, Hout. split; [done|]. intros err Hok.
    rewrite Hok in Hout. destruct Hout as (_ & He & _).
    rewrite He. by destruct (error (fb_attrs w)).
Qed.

(** X3: a call that raises is counted only when it is [progress_fun] that
    raised.  [progress_fun] is called after the counter has gone up and the
    report has been logged, every 500 calls in cost_functions.py and every
    1000 in fit_basic.py.  So when a call raises, either the counter and
    the last-error attribute are as before the call, no progress is
    reported and no evaluation is logged as completed; or the counter was
    set, the report was due, [progress_fun] raised the exception, the
    counter is one more than before, the report is logged, the evaluation
    is logged as completed and the last error is as before.  With a
    [progress_fun] that always returns only the first can happen. *)
Theorem basic_cost_failure_counted_on_report progress_fun sigma unpacker
    modelspec data segmentor (evaluator : callables.evaluator_fn) metric
    keep_stack w :
  let cf := callables.cost_functions.basic_cost last_matching_phi
              copy_stack_data progress_fun sigma unpacker modelspec data
              segmentor evaluator metric keep_stack w in
  let fb := callables.fit_basic.basic_cost progress_fun sigma unpacker
              modelspec data segmentor evaluator metric w in
  let raised ex (w' : world) :=
    exists e0, progress_fun e0 = (Raise ex, wenv w') in
  (forall ex,
     fst cf = Raise ex ->
     uncounted cost_functions_basic_cost w (snd cf) \/
     (counted_at_report cost_functions_basic_cost 500 w (snd cf) /\
      raised ex (snd cf))) /\
  (forall ex,
     fst fb = Raise ex ->
     uncounted fit_basic_basic_cost w (snd fb) \/
     (counted_at_report fit_basic_basic_cost 1000 w (snd fb) /\
      raised ex (snd fb))) /\
  ((forall e0, fst (progress_fun e0) = Ok tt) ->
   (forall ex,
      fst cf = Raise ex -> uncounted cost_functions_basic_cost w (snd cf)) /\
   (forall ex,
      fst fb = Raise ex -> uncounted fit_basic_basic_cost w (snd fb))).
Proof.
  intros cf fb raised.
  assert (forall ex,
     fst cf = Raise ex ->
     uncounted cost_functions_basic_cost w (snd cf) \/
     (counted_at_report cost_functions_basic_cost 500 w (snd cf) /\
      raised ex (snd cf))) as Hcf.
  { subst cf raised. unfold callables.cost_functions.basic_cost.
    unfold uncounted, counted_at_report. intros ex. run.
    all: intros Hex; try discriminate Hex.
    all: try (left; repeat split; told; fail).
    all: right; inversion Hex; subst; (split; [|by eexists]).
    all: eexists _, _; repeat split; told; by apply Z.eqb_eq. }
  assert (forall ex,
     fst fb = Raise ex ->
     uncounted fit_basic_basic_cost w (snd fb) \/
     (counted_at_report fit_basic_basic_cost 1000 w (snd fb) /\
      raised ex (snd fb))) as Hfb.
  { subst fb raised. unfold callables.fit_basic.basic_cost.
    unfold uncounted, counted_at_report. intros ex. run.
    all: intros Hex; try discriminate Hex.
    all: try (left; repeat split; told; fail).
    all: right; inversion Hex; subst; (split; [|by eexists]).
    all: eexists _, _; repeat split; told; by apply Z.eqb_eq. }
  split; [exact Hcf|]. split; [exact Hfb|].
  intros Hret. split; intros ex Hex.
  - destruct (Hcf ex Hex) as [Hu|[_ [e0 He0]]]; [exact Hu|].
    specialize (Hret e0). rewrite He0 in Hret. discriminate Hret.
  - destruct (Hfb ex Hex) as [Hu|[_ [e0 He0]]]; [exact Hu|].
    specialize (Hret e0). rewrite He0 in Hret. discriminate Hret.
Qed.

Lemma cf_plain_calls sigma unpacker modelspec data segmentor evaluator
    metric w :
  let cf := cost_functions.basic_cost last_matching_phi copy_stack_data sigma
              unpacker modelspec data segmentor evaluator metric false w in
  exists cs,
    calls (trace (snd cf)) = calls (trace w) ++ cs /\
    cs `prefix_of` plain_order /\
    (forall err, fst cf = Ok err -> cs = plain_order).
Proof.
  unfold cost_functions.basic_cost, plain_order. run.
  all: eexists; (split; [new_calls|]).
  all: split; [by eexists|]; try done.
Qed.

Lemma fb_plain_calls sigma unpacker modelspec data segmentor evaluator
    metric w :
  let fb := fit_basic.basic_cost sigma unpacker modelspec data segmentor
              evaluator metric w in
  exists cs,
    calls (trace (snd fb)) = calls (trace w) ++ cs /\
    cs `prefix_of` plain_order /\
    (forall err, fst fb = Ok err -> cs = plain_order).
Proof.
  unfold fit_basic.basic_cost, plain_order. run.
  all: eexists; (split; [new_calls|]).
  all: split; [by eexists|]; try done.
Qed.

(** X4: without [keep_stack], [cost_functions.basic_cost] neither reads nor
    writes the cache: the collaborators called are unpacker, segmentor,
    evaluator and metric, in this order and once each when the call
    returns, a raising collaborator ending the sequence;
    [last_matching_phi] and [copy_stack_data] are not called and the cache
    attribute is left as it is.  [basic_cost] of fit_basic.py makes the
    same calls in the same order. *)
Theorem basic_cost_plain_order sigma unpacker modelspec data segmentor
    evaluator metric w :
  let cf := cost_functions.basic_cost last_matching_phi copy_stack_data sigma
              unpacker modelspec data segmentor evaluator metric false w in
  let fb := fit_basic.basic_cost sigma unpacker modelspec data segmentor
              evaluator metric w in
  (exists cs,
     calls (trace (snd cf)) = calls (trace w) ++ cs /\
     cs `prefix_of` plain_order /\
     (forall err, fst cf = Ok err -> cs = plain_order)) /\
  stack (cf_attrs (snd cf)) = stack (cf_attrs w) /\
  (exists cs,
     calls (trace (snd fb)) = calls (trace w) ++ cs /\
     cs `prefix_of` plain_order /\
     (forall err, fst fb = Ok err -> cs = plain_order)).
Proof.
  split; [apply cf_plain_calls|]. split; [|apply fb_plain_calls].
  by apply (cf_basic_cost_outcome sigma unpacker modelspec data segmentor
              evaluator metric false w).
Qed.

(** X5: with [keep_stack], the data the evaluator returns must carry a
    stack.  If it does not, [cost_functions.basic_cost] raises
    [KeyError('stack')] right after the evaluation: the metric is not
    called, and the attributes of the function are as before the call. *)
Theorem basic_cost_requires_stack sigma unpacker modelspec data segmentor
    evaluator metric w d e' :
  evaluated_subset last_matching_phi copy_stack_data (stack (cf_attrs w))
    sigma unpacker modelspec data segmentor evaluator true (wenv w) =
    (Ok d, e') ->
  data_stack d = None ->
  let r := cost_functions.basic_cost last_matching_phi copy_stack_data sigma
             unpacker modelspec data segmentor evaluator metric true w in
  fst r = Raise (KeyError "stack") /\
  wenv (snd r) = e' /\
  cf_attrs (snd r) = cf_attrs w /\
  exists cs,
    calls (trace (snd r)) = calls (trace w) ++ cs /\
    last cs = Some Evaluator /\
    (Metric ∉ cs).
Proof.
  unfold cost_functions.basic_cost, evaluated_subset.
  intros Hev Hd. revert Hev. run.
  all: intros Hev; injection Hev as -> ->; try congruence.
  all: split; [done|]; split; [done|]; split; [done|].
  all: eexists; (split; [new_calls|]).
  all: split; [done|absent].
Qed.

End CostInstrumentation.

(** ** The instrumentation of the cost functions on concrete calls *)

Section ExampleInstrumentation.
Import Example ExampleCounting.

Lemma basic_cost_counts_calls_witness :
  counter (cf_attrs (snd (cf_cost [5; 3]%Z false w_counting))) =
    Some (499 + 1)%Z /\
  observations (trace (snd (cf_cost [5; 3]%Z false w_counting))) =
    observations (trace w_counting) ++ progress_report 500 (499 + 1) None.
Proof.
  apply (basic_cost_counts_calls last_matching_phi copy_stack_data [5; 3]%Z
           (unpacker 1%positive) 1%positive None segmentor evaluate metric
           false w_counting 499%Z None); vm_compute; reflexivity.
Defined.

Lemma basic_cost_records_last_error_witness :
  error (fb_attrs (snd (fb_cost [5; 3]%Z w_counting))) =
    (if has (error (fb_attrs w_counting)) then Some None else None).
Proof.
  apply (basic_cost_records_last_error last_matching_phi copy_stack_data
           [5; 3]%Z (unpacker 1%positive) 1%positive None segmentor evaluate
           metric false w_counting); vm_compute; reflexivity.
Defined.

(** One call short of call 500 a [progress_fun] that raises is called by
    cost_functions.py; and a vector of the wrong length makes the unpacker
    raise. *)
Lemma basic_cost_failure_counted_on_report_witness :
  let cf := ExampleCallables.cf_cost ExampleCallables.failing_progress_fun
              ExampleCallables.plain_evaluator [5; 3]%Z
              ExampleCallables.w_499 in
  let cf' := ExampleCallables.cf_cost ExampleCallables.quiet_progress_fun
               ExampleCallables.plain_evaluator [5]%Z
               ExampleCallables.w_499 in
  (uncounted cost_functions_basic_cost ExampleCallables.w_499 (snd cf) \/
   (counted_at_report cost_functions_basic_cost 500 ExampleCallables.w_499
      (snd cf) /\
    exists e0,
      ExampleCallables.failing_progress_fun e0 =
        (Raise (External "no display"), wenv (snd cf)))) /\
  uncounted cost_functions_basic_cost ExampleCallables.w_499 (snd cf').
Proof.
  split.
  - destruct (@basic_cost_failure_counted_on_report domain last_matching_phi
                copy_stack_data ExampleCallables.failing_progress_fun
                [5; 3]%Z (unpacker 1%positive) 1%positive None segmentor
                ExampleCallables.plain_evaluator metric false
                ExampleCallables.w_499) as [Hcf _].
    apply (Hcf (External "no display")). vm_compute. reflexivity.
  - destruct (@basic_cost_failure_counted_on_report domain last_matching_phi
                copy_stack_data ExampleCallables.quiet_progress_fun
                [5]%Z (unpacker 1%positive) 1%positive None segmentor
                ExampleCallables.plain_evaluator metric false
                ExampleCallables.w_499) as (_ & _ & Hq).
    destruct (Hq (fun _ => eq_refl)) as [Hcf _].
    apply (Hcf ValueError). vm_compute. reflexivity.
Defined.

(** There the call is counted and the last error is the earlier one. *)
Lemma raising_progress_fun_is_counted :
  let cf := ExampleCallables.cf_cost ExampleCallables.failing_progress_fun
              ExampleCallables.plain_evaluator [5; 3]%Z
              ExampleCallables.w_499 in
  fst cf = Raise (External "no display") /\
  counter (cf_attrs (snd cf)) = Some 500%Z /\
  error (cf_attrs (snd cf)) = Some (Some 7%Z).
Proof. vm_compute. repeat split. Qed.

Lemma basic_cost_plain_order_witness :
  exists cs,
    calls (trace (snd (cf_cost [5; 3]%Z false w_cached))) =
      calls (trace w_cached) ++ cs /\
    cs `prefix_of` plain_order /\
    (forall err,
       fst (cf_cost [5; 3]%Z false w_cached) = Ok err -> cs = plain_order).
Proof.
  destruct (basic_cost_plain_order last_matching_phi copy_stack_data
              [5; 3]%Z (unpacker 1%positive) 1%positive None segmentor
              evaluate metric w_cached) as [Hcf _].
  exact Hcf.
Defined.

End ExampleInstrumentation.

Section ExampleStack.
#[local] Existing Instance ExampleStackless.domain.

Lemma basic_cost_requires_stack_witness :
  fst (ExampleStackless.cost [] ExampleStackless.w_empty) =
    Raise (KeyError "stack").
Proof.
  apply (@basic_cost_requires_stack ExampleStackless.domain
           last_matching_phi (fun d _ _ _ => ret d)
           [] (fun _ => ret 1%positive) 1%positive true (fun d => ret d)
           ExampleStackless.evaluate (fun _ => ret 0%Z)
           ExampleStackless.w_empty false
           (wenv ExampleStackless.w_empty));
    reflexivity.
Defined.

End ExampleStack.

(** ** More on [fit_basic]: what it leaves alone *)

Section FitLeaves.
Context `{Domain}.

Variable evaluate : Data -> loc -> option Z -> bool -> CM Data.
Variable copy_stack_data : Data -> Stack -> Z -> loc -> CM Data.

#[local] Existing Instance same_preorder.

Lemma other_attrs_quiet f :
  quiet_view (get_attrs (other_cost f)) /\
  ticks_blind (get_attrs (other_cost f)).
Proof.
  unfold quiet_view, ticks_blind. split; [split|]; intros; by destruct f.
Qed.

Lemma apply_cost_keeps_other f sigma unpacker modelspec data segmentor
    evaluator metric :
  preserves (same (get_attrs (other_cost f)))
    (fit_basic.apply_cost_function copy_stack_data f sigma unpacker
       modelspec data segmentor evaluator metric).
Proof.
  intros w. unfold same. destruct f; simpl.
  - apply (cf_basic_cost_outcome last_matching_phi copy_stack_data sigma
             unpacker modelspec data segmentor evaluator metric false w).
  - apply (fb_basic_cost_outcome sigma unpacker modelspec data segmentor
             evaluator metric w).
Qed.

Lemma fit_optimize_keeps_other data modelspec fitter f segmentor metric
    packer unpacker :
  preserves (same (get_attrs (other_cost f)))
    (fit_basic.fit_optimize evaluate copy_stack_data data modelspec fitter f
       segmentor metric packer unpacker).
Proof.
  destruct (other_attrs_quiet f) as [Hq Ht]. unfold fit_basic.fit_optimize.
  apply (preserves_bind _); [by intros w; destruct f|]. intros _.
  apply (preserves_bind _); [keep|]. intros sigma.
  apply call_fitter_preserves; [apply _|keep|].
  intros s. apply apply_cost_keeps_other.
Qed.

Lemma fit_basic_keeps_other data modelspec fitter cost_function segmentor
    mapper metric metaname require_phi :
  preserves (same (get_attrs (other_cost (fit_basic.default_cost
                                            cost_function))))
    (fit_basic.fit_basic evaluate copy_stack_data data modelspec fitter
       cost_function segmentor mapper metric metaname require_phi).
Proof.
  intros w. rewrite fit_basic_phases. revert w.
  destruct (other_attrs_quiet (fit_basic.default_cost cost_function))
    as [Hq Ht].
  unfold fit_basic.fit_phases.
  apply (preserves_bind _); [by apply fit_prepare_quiet|].
  intros [start_time [packer unpacker]].
  apply (preserves_bind _); [apply fit_optimize_keeps_other|].
  intros improved_sigma. by apply fit_finish_quiet.
Qed.

(** X6: [fit_basic] works on one function object only.  The attributes of
    the [basic_cost] it was not given (of [cost_functions.basic_cost] when
    [cost_function] is left to its default) are the same after the fit as
    before, counter included, whether the fit returns or raises. *)
Theorem fit_leaves_other_cost_function data modelspec fitter cost_function
    segmentor mapper metric metaname require_phi w :
  let r := fit_basic.fit_basic evaluate copy_stack_data data modelspec fitter
             cost_function segmentor mapper metric metaname require_phi w in
  let f := fit_basic.default_cost cost_function in
  get_attrs (other_cost f) (snd r) = get_attrs (other_cost f) w.
Proof.
  intros r f.
  apply (fit_basic_keeps_other data modelspec fitter cost_function segmentor
           mapper metric metaname require_phi w).
Qed.

End FitLeaves.

(** ** [fit_basic] and the objects of its caller *)

Section FitFrame.
Context `{Domain}.

Variable evaluate : Data -> loc -> option Z -> bool -> CM Data.
Variable copy_stack_data : Data -> Stack -> Z -> loc -> CM Data.

#[local] Existing Instance heap_grows_preorder.

Lemma bind_congr {S A B} (c c' : ST S A) (k : A -> ST S B) (s : S) :
  c s = c' s -> bind c k s = bind c' k s.
Proof. unfold bind. by intros ->. Qed.

Lemma bind_at {S A B} (c : ST S A) (k k' : A -> ST S B) (s : S) :
  (forall a s1, c s = (Ok a, s1) -> k a s1 = k' a s1) ->
  bind c k s = bind c k' s.
Proof.
  unfold bind. intros Hk. destruct (c s) as [[a|ex] s1]; [|done].
  by apply Hk.
Qed.

Lemma set_wenv_same (w : world) : set_wenv (wenv w) w = w.
Proof. by destruct w. Qed.

(** The loop over the modules does nothing when each has phi. *)
Lemma ensure_phi_idle L items :
  forall ms i w,
    Forall2 (dict_at (heap (wenv w))) items ms ->
    Forall (fun m => is_Some (phi m)) ms ->
    fit_basic.ensure_phi L i items w = (Ok tt, w).
Proof.
  induction items as [|l items IH]; intros ms i w Hms Hphi; [done|].
  inversion Hms as [|? m ? ms' Hl Hrest]; subst.
  inversion Hphi as [|? ? [p Hp] Hphi']; subst.
  simpl. unfold bind at 1. unfold bind at 1. unfold lift, deref_dict.
  unfold dict_at in Hl. rewrite Hl, set_wenv_same, Hp.
  unfold ret at 1. by eapply IH.
Qed.

Lemma fit_prepare_idle L mapper w items ms :
  spec_in (heap (wenv w)) L items ms ->
  Forall (fun m => is_Some (phi m)) ms ->
  fit_basic.fit_prepare L mapper true w =
  fit_basic.fit_prepare L mapper false w.
Proof.
  intros [HL Hms] Hphi. unfold fit_basic.fit_prepare.
  apply bind_at. intros st w1 Ht.
  unfold time_time in Ht. injection Ht as _ <-.
  apply bind_congr. unfold bind, lift, deref_list. simpl.
  rewrite HL. by eapply ensure_phi_idle.
Qed.

Lemma fit_basic_idle data modelspec fitter cost_function segmentor mapper
    metric metaname w items ms :
  spec_in (heap (wenv w)) modelspec items ms ->
  Forall (fun m => is_Some (phi m)) ms ->
  fit_basic.fit_basic evaluate copy_stack_data data modelspec fitter
    cost_function segmentor mapper metric metaname true w =
  fit_basic.fit_basic evaluate copy_stack_data data modelspec fitter
    cost_function segmentor mapper metric metaname false w.
Proof.
  intros Hspec Hphi. rewrite !fit_basic_phases. unfold fit_basic.fit_phases.
  apply bind_congr. by eapply fit_prepare_idle.
Qed.

(** X7: [require_phi] matters only for modules without phi.  On a
    specification whose modules all have phi, [fit_basic] with
    [require_phi] set runs exactly as with [require_phi] unset: same
    result, same final state, [set_mean_phi] never called. *)
Theorem require_phi_idle_with_phi data modelspec fitter cost_function
    segmentor mapper metric metaname w items ms :
  spec_in (heap (wenv w)) modelspec items ms ->
  Forall (fun m => is_Some (phi m)) ms ->
  fit_basic.fit_basic evaluate copy_stack_data data modelspec fitter
    cost_function segmentor mapper metric metaname true w =
  fit_basic.fit_basic evaluate copy_stack_data data modelspec fitter
    cost_function segmentor mapper metric metaname false w.
Proof.
  intros Hspec Hphi. rewrite !fit_basic_phases. unfold fit_basic.fit_phases.
  apply bind_congr. by eapply fit_prepare_idle.
Qed.

Lemma defaulted_has_phi (ms ms1 : list module) :
  Forall2 defaulted ms ms1 -> Forall (fun m => is_Some (phi m)) ms1.
Proof.
  induction 1 as [|m m1 ms ms1 Hd _ IH]; constructor; [|done].
  unfold defaulted in Hd. destruct (phi m) as [p|] eqn:Hp.
  - subst m1. rewrite Hp. by eexists.
  - destruct Hd as (pr & _ & ->). by eexists.
Qed.

Lemma fit_mode_keeps_phi b (ms : list module) :
  Forall (fun m => is_Some (phi m)) ms ->
  Forall (fun m => is_Some (phi m)) (with_fit_mode b <$> ms).
Proof. intros Hf. apply Forall_fmap. by eapply Forall_impl. Qed.

(** What the steps before the search do to the store. *)
Lemma fit_prepare_frame L require_phi w items ms start_time p u w1 :
  spec_in (heap (wenv w)) L items ms ->
  fit_basic.fit_prepare L simple_vector require_phi w =
    (Ok (start_time, (p, u)), w1) ->
  exists items1 ms1,
    spec_in (heap (wenv w1)) L items1 (with_fit_mode true <$> ms1) /\
    (if require_phi then Forall2 defaulted ms ms1
     else ms1 = ms /\ items1 = items) /\
    (forall l o,
       heap (wenv w) !! l = Some o -> l <> L -> (l ∉ items1) ->
       heap (wenv w1) !! l = Some o).
Proof.
  intros [HL Hms] Hrun. unfold fit_basic.fit_prepare in Hrun.
  apply bind_ok_inv in Hrun as (st & w0 & Ht & Hrun).
  unfold time_time in Ht. inversion Ht; subst st w0. clear Ht.
  apply bind_ok_inv in Hrun as ([] & wa & Hloop & Hrun).
  assert (exists items1 ms1,
            spec_in (heap (wenv wa)) L items1 ms1 /\
            kept_but L (heap (wenv w)) (heap (wenv wa)) /\
            if require_phi then Forall2 defaulted ms ms1
            else ms1 = ms /\ items1 = items)
    as (items1 & ms1 & [HL1 Hms1] & Hkept & Hdef).
  { destruct require_phi.
    - apply bind_ok_inv in Hloop as (its & w0 & Hd & Hloop).
      apply lift_inv in Hd as [Hd Hw0]. simpl in Hd.
      unfold deref_list in Hd. rewrite HL in Hd.
      inversion Hd as [[Hits He]]. subst its.
      assert (w0 = World (wenv w) (cf_attrs w) (fb_attrs w) (trace w)
                     (clock w) (S (ticks w))) as ->.
      { rewrite Hw0, <- He. done. }
      clear Hd Hw0 He.
      match type of Hloop with
      | fit_basic.ensure_phi _ _ _ ?w0 = _ =>
          destruct (ensure_phi_run L items ms [] w0 HL Hms)
            as (h' & evs & Hrun' & Hk & _ & Hres)
      end.
      simpl in Hrun'. rewrite Hloop in Hrun'.
      destruct (default_all ms) as [ms1|ex] eqn:Hall; [|done].
      inversion Hrun'; subst wa. clear Hrun'.
      destruct (Hres ms1 eq_refl) as (items1 & HL1 & Hit).
      exists items1, ms1. simpl. split; [by split|]. split; [done|].
      by apply default_all_inv.
    - inversion Hloop; subst wa. exists items, ms. simpl.
      split; [by split|]. split; [apply kept_but_refl|done]. }
  apply bind_ok_inv in Hrun as ([] & wb & Hon & Hrun).
  apply call_inv in Hon as [Hon _].
  apply set_fit_mode_run in Hon as (itemsx & HLx & _ & Hhb & _).
  simpl in HLx. rewrite HL1 in HLx. inversion HLx; subst itemsx. clear HLx.
  apply bind_ok_inv in Hrun as (pu & wc & Hmap & Hret).
  apply call_inv in Hmap as [Hmap _]. inversion Hmap as [[Hpu Hwc]].
  inversion Hret; subst. clear Hret Hmap.
  exists items1, ms1. split; [|split; [done|]].
  - rewrite <- Hwc, Hhb. simpl. by apply heap_fit_mode_spec.
  - intros l o Hl HlL Hni. rewrite <- Hwc, Hhb. simpl.
    rewrite heap_fit_mode_lookup, decide_False by done.
    eapply lookup_weaken; [|exact Hkept]. by rewrite lookup_delete_ne.
Qed.

(** A fit that returns, with the default mapper and collaborators that
    leave the store alone. *)
Lemma fit_basic_run data L fitter cost_function segmentor metric metaname
    require_phi w items ms rs w' :
  (forall d, reads_only (segmentor d)) ->
  (forall d, reads_only (metric d)) ->
  (forall d l s k, reads_only (evaluate d l s k)) ->
  spec_in (heap (wenv w)) L items ms ->
  fit_basic.fit_basic evaluate copy_stack_data data L fitter cost_function
    segmentor simple_vector metric metaname require_phi w = (Ok rs, w') ->
  exists items1 ms1 R items' rms,
    spec_in (heap (wenv w')) L items1 (with_fit_mode true <$> ms1) /\
    (if require_phi then Forall2 defaulted ms ms1
     else ms1 = ms /\ items1 = items) /\
    rs = [R] /\
    spec_in (heap (wenv w')) R items' rms /\
    (R <> L /\ (R ∉ items1) /\ heap (wenv w) !! R = None) /\
    Forall (fun l => l <> L /\ (l ∉ items1) /\ heap (wenv w) !! l = None)
      items' /\
    get_modelspec_metadata rms "fitter" = Some (MStr metaname) /\
    Forall (fun m => fit_mode m = false) rms /\
    (forall l o,
       heap (wenv w) !! l = Some o -> l <> L -> (l ∉ items1) ->
       heap (wenv w') !! l = Some o).
Proof.
  intros Hseg Hmet Heval Hspec. rewrite fit_basic_phases.
  unfold fit_basic.fit_phases. intros Hrun.
  apply bind_ok_inv in Hrun as ([st [p u]] & w1 & Hprep & Hrun).
  apply bind_ok_inv in Hrun as (imp & w2 & Hopt & Hfin).
  destruct (fit_prepare_frame _ _ _ _ _ _ _ _ _ Hspec Hprep)
    as (items1 & ms1 & Hspec1 & Hdef & Hframe1).
  destruct (fit_prepare_caller_spec _ _ _ _ _ _ _ _ _ Hspec Hprep)
    as (-> & -> & Hdom1 & _).
  pose proof (fit_optimize_grows evaluate copy_stack_data data L fitter
                (fit_basic.default_cost cost_function) segmentor metric
                Hseg Hmet Heval w1) as Hg.
  rewrite Hopt in Hg. unfold heap_grows in Hg. simpl in Hg.
  apply fit_finish_run in Hfin
    as (improved & e3 & R & itemsf & items' & rms & Hu & Hrs & HLf & _
        & HR & Hfr & _ & HspecR & Hmeta & _ & _ & Hoff & Hframe).
  destruct (unpacker_run L imp (wenv w2)) as [Hsub3 Hfresh].
  rewrite Hu in Hsub3. simpl in Hsub3.
  destruct (Hfresh _ _ Hu) as (Hni & itemsu & HLu & Hnone).
  rewrite HLf in HLu. inversion HLu; subst itemsu. clear HLu.
  assert (heap (wenv w1) ⊆ heap (wenv w')) as Hsub.
  { apply map_subseteq_spec. intros l o Hl.
    eapply lookup_weaken in Hl; [|exact Hg].
    apply Hframe.
    - intros Hin. rewrite Forall_forall in Hnone.
      specialize (Hnone l Hin). congruence.
    - by eapply lookup_weaken. }
  assert (heap (wenv w1) ⊆ heap e3) as Hsub13
    by (etrans; [exact Hg|exact Hsub3]).
  assert (forall l, heap e3 !! l = None ->
            l <> L /\ (l ∉ items1) /\ heap (wenv w) !! l = None) as Hnew.
  { intros l Hl. destruct Hspec1 as [HL1 Hit1]. split; [|split].
    - intros ->. eapply lookup_weaken in HL1; [|exact Hsub13]. congruence.
    - intros Hin. apply list_elem_of_lookup_1 in Hin as [i Hi].
      destruct (Forall2_lookup_l _ _ _ _ _ Hit1 Hi) as (m & _ & Hm).
      unfold dict_at in Hm.
      eapply lookup_weaken in Hm; [|exact Hsub13]. congruence.
    - apply not_elem_of_dom. intros Hin. apply Hdom1 in Hin.
      apply elem_of_dom in Hin as [o Ho].
      eapply lookup_weaken in Ho; [|exact Hsub13]. congruence. }
  exists items1, ms1, R, items', rms.
  split; [by eapply spec_in_mono|]. split; [done|]. split; [done|].
  split; [done|]. split; [by apply Hnew|]. split.
  { eapply Forall_impl; [exact Hfr|]. intros l Hl. by apply Hnew. }
  split; [done|]. split; [done|].
  intros l o Hl HlL Hni'. eapply lookup_weaken; [|exact Hsub].
  by apply Hframe1.
Qed.

(** X8: nothing in [fit_basic] undoes [fit_mode_on] on the specification of
    the caller.  With the default mapper and collaborators that leave the
    store alone, if the search raises (the minimizer itself, or the cost
    function under it), [fit_basic] raises the same exception at once, and
    the caller's list is left holding modules marked as in fitting mode,
    those that lacked phi already replaced by their defaulted versions. *)
Theorem fit_failure_leaves_fit_mode_on data modelspec fitter cost_function
    segmentor metric metaname require_phi w items ms start_time p u w1 ex
    w2 :
  (forall d, reads_only (segmentor d)) ->
  (forall d, reads_only (metric d)) ->
  (forall d l s k, reads_only (evaluate d l s k)) ->
  spec_in (heap (wenv w)) modelspec items ms ->
  fit_basic.fit_prepare modelspec simple_vector require_phi w =
    (Ok (start_time, (p, u)), w1) ->
  fit_basic.fit_optimize evaluate copy_stack_data data modelspec fitter
    (fit_basic.default_cost cost_function) segmentor metric p u w1 =
    (Raise ex, w2) ->
  fit_basic.fit_basic evaluate copy_stack_data data modelspec fitter
    cost_function segmentor simple_vector metric metaname require_phi w =
    (Raise ex, w2) /\
  exists items1 ms1,
    spec_in (heap (wenv w2)) modelspec items1 (with_fit_mode true <$> ms1) /\
    if require_phi then Forall2 defaulted ms ms1 else ms1 = ms.
Proof.
  intros Hseg Hmet Heval Hspec Hprep Hopt. split.
  - rewrite fit_basic_phases. unfold fit_basic.fit_phases.
    unfold bind at 1. rewrite Hprep. unfold bind at 1. by rewrite Hopt.
  - destruct (fit_prepare_caller_spec _ _ _ _ _ _ _ _ _ Hspec Hprep)
      as (-> & -> & _ & items1 & ms1 & Hspec1 & Hdef).
    pose proof (fit_optimize_grows evaluate copy_stack_data data modelspec
                  fitter (fit_basic.default_cost cost_function) segmentor
                  metric Hseg Hmet Heval w1) as Hg.
    rewrite Hopt in Hg. unfold heap_grows in Hg. simpl in Hg.
    exists items1, ms1. split; [|done]. by eapply spec_in_mono.
Qed.

(** X9: defaulting happens once.  After a fit with [require_phi] that
    returned, every module of the caller's specification has phi, so in any
    later fit of the same specification [require_phi] has no effect:
    [set_mean_phi] is not called again and the later fit starts from the
    values the first one defaulted. *)
Theorem second_fit_defaults_nothing data modelspec fitter cost_function
    segmentor metric metaname w items ms rs w' :
  (forall d, reads_only (segmentor d)) ->
  (forall d, reads_only (metric d)) ->
  (forall d l s k, reads_only (evaluate d l s k)) ->
  spec_in (heap (wenv w)) modelspec items ms ->
  fit_basic.fit_basic evaluate copy_stack_data data modelspec fitter
    cost_function segmentor simple_vector metric metaname true w =
    (Ok rs, w') ->
  (exists items1 ms1,
     spec_in (heap (wenv w')) modelspec items1 ms1 /\
     Forall (fun m => is_Some (phi m)) ms1) /\
  forall data2 fitter2 cost_function2 segmentor2 mapper2 metric2 metaname2,
    fit_basic.fit_basic evaluate copy_stack_data data2 modelspec fitter2
      cost_function2 segmentor2 mapper2 metric2 metaname2 true w' =
    fit_basic.fit_basic evaluate copy_stack_data data2 modelspec fitter2
      cost_function2 segmentor2 mapper2 metric2 metaname2 false w'.
Proof.
  intros Hseg Hmet Heval Hspec Hrun.
  destruct (fit_basic_run _ _ _ _ _ _ _ _ _ _ _ _ _ Hseg Hmet Heval Hspec
              Hrun) as (items1 & ms1 & R & items' & rms & Hspec1 & Hdef & _).
  assert (Forall (fun m => is_Some (phi m)) (with_fit_mode true <$> ms1))
    as Hphi by (by apply fit_mode_keeps_phi, (defaulted_has_phi ms)).
  split; [by eauto|]. intros.
  rewrite !fit_basic_phases. unfold fit_basic.fit_phases.
  apply bind_congr. by eapply fit_prepare_idle.
Qed.

End FitFrame.

(** ** The calls of a fit, in order *)

Section FitOrder.
Context `{Domain}.

Variable evaluate : Data -> loc -> option Z -> bool -> CM Data.
Variable copy_stack_data : Data -> Stack -> Z -> loc -> CM Data.









End FitOrder.

(** ** More on [fit_basic], on the concrete instance *)

Section ExampleFitMore.
Import Example ExampleCounting.

Lemma require_phi_idle_with_phi_witness :
  fit None fitter true w_start = fit None fitter false w_start.
Proof.
  apply (require_phi_idle_with_phi evaluate copy_stack_data None 1%positive
           fitter None segmentor simple_vector metric "fit_basic" w_start
           [2%positive; 3%positive] [m_fir; m_lvl_phi]).
  - exact (example_spec_in m_lvl_phi).
  - constructor; [eexists; reflexivity|].
    constructor; [eexists; reflexivity|constructor].
Defined.

Lemma fit_failure_leaves_fit_mode_on_witness :
  fst (fit None failing_fitter true w_fit) =
    Raise (External "no convergence").
Proof.
  destruct example_reads_only as (Hseg & Hmet & Heval).
  assert (fit_basic.fit_prepare 1%positive simple_vector true w_fit =
          (Ok (0%Z, (packer, unpacker 1%positive)),
           snd (fit_basic.fit_prepare 1%positive simple_vector true w_fit)))
    as Hprep by (vm_compute; reflexivity).
  assert (fit_basic.fit_optimize evaluate copy_stack_data None 1%positive
            failing_fitter (fit_basic.default_cost None) segmentor metric
            packer (unpacker 1%positive)
            (snd (fit_basic.fit_prepare 1%positive simple_vector true w_fit))
          = (Raise (External "no convergence"),
             snd (fit None failing_fitter true w_fit)))
    as Hopt by (vm_compute; reflexivity).
  destruct (fit_failure_leaves_fit_mode_on evaluate copy_stack_data None
              1%positive failing_fitter None segmentor metric "fit_basic"
              true w_fit [2%positive; 3%positive] [m_fir; m_lvl] 0%Z packer
              (unpacker 1%positive) _ _ _ Hseg Hmet Heval
              (example_spec_in m_lvl) Hprep Hopt) as [Hrun _].
  exact (f_equal fst Hrun).
Defined.

Lemma second_fit_defaults_nothing_witness :
  fit None lazy_fitter true (snd (fit None fitter true w_fit)) =
  fit None lazy_fitter false (snd (fit None fitter true w_fit)).
Proof.
  assert (fit None fitter true w_fit =
          (Ok [16%positive], snd (fit None fitter true w_fit))) as Hrun
    by (vm_compute; reflexivity).
  destruct example_reads_only as (Hseg & Hmet & Heval).
  destruct (second_fit_defaults_nothing evaluate copy_stack_data None
              1%positive fitter None segmentor metric "fit_basic" w_fit
              [2%positive; 3%positive] [m_fir; m_lvl] [16%positive]
              (snd (fit None fitter true w_fit)) Hseg Hmet Heval
              (example_spec_in m_lvl) Hrun) as [_ Hidle].
  exact (Hidle None lazy_fitter None segmentor simple_vector metric
           "fit_basic").
Defined.


End ExampleFitMore.

(** ** The routines built on [fit_basic] *)

Section RoutineFacts.
Context `{Domain}.

Variable evaluate : Data -> loc -> option Z -> bool -> CM Data.
Variable copy_stack_data : Data -> Stack -> Z -> loc -> CM Data.
Variable scipy_minimize : fit_basic.kwargs -> list num -> fitter_run.
Variable use_all_data : Data -> CM Data.
Variable nmse_pred_resp : Data -> CM Score.
Variable jackknife_by_time : Data -> Z -> Z -> bool -> bool -> CM Data.
Variable random_jackknife_maker :
  Z -> Z -> bool -> bool -> CM (Data -> CM Data).
Variable set_random_phi : loc -> CM loc.
Variable prefit_to_target :
  Data -> loc -> fit_basic.analysis_function -> string ->
  (fit_basic.kwargs -> list num -> fitter_run) -> fit_basic.kwargs -> M loc.

Lemma inner_inv {A} (c : M A) (s s' : fit_basic.session) (r : result A) :
  fit_basic.inner c s = (r, s') ->
  c (fit_basic.sworld s) = (r, fit_basic.sworld s') /\
  fit_basic.journal s' = fit_basic.journal s.
Proof.
  unfold fit_basic.inner. destruct (c (fit_basic.sworld s)) as [r0 w0].
  intros Hc. by injection Hc as -> <-.
Qed.

Lemma log_info_inv fmt a (s s' : fit_basic.session) :
  fit_basic.log_info fmt a s = (Ok tt, s') ->
  fit_basic.sworld s' = fit_basic.sworld s /\
  fit_basic.journal s' =
    fit_basic.journal s ++
    [fit_basic.Line (length (trace (fit_basic.sworld s))) fmt a].
Proof. unfold fit_basic.log_info, modify. intros Hc. by injection Hc as <-. Qed.

(** A fit that returns gives one model, tagged with the name it was
    given. *)
Lemma fit_basic_single data modelspec fitter cost_function segmentor mapper
    metric metaname require_phi w rs w' :
  fit_basic.fit_basic evaluate copy_stack_data data modelspec fitter
    cost_function segmentor mapper metric metaname require_phi w =
    (Ok rs, w') ->
  exists R, rs = [R] /\ fitted_model (heap (wenv w')) metaname R.
Proof.
  rewrite fit_basic_phases. unfold fit_basic.fit_phases. intros Hrun.
  apply bind_ok_inv in Hrun as ([st [p u]] & w1 & Hprep & Hrun).
  apply bind_ok_inv in Hrun as (imp & w2 & Hopt & Hfin).
  apply fit_finish_run in Hfin
    as (improved & e3 & R & itemsf & items' & rms & _ & Hrs & _ & _
        & _ & _ & _ & HspecR & Hmeta & _ & _ & Hoff & _).
  exists R. split; [done|]. by exists items', rms.
Qed.

(** One round of a routine: a line in the journal, the preparation of the
    round, then the fit. *)
Lemma round_inv {X} fmt (n : Z) (prep : Z -> CM X)
    (fit : X -> M (list loc)) (acc : list loc) (i : Z)
    (s s' : fit_basic.session) (acc' : list loc) :
  (fit_basic.log_info fmt [(i + 1)%Z; n] >>
   let* x := fit_basic.inner (lift (prep i)) in
   let* r := fit_basic.inner (fit x) in
   ret (acc ++ r)) s = (Ok acc', s') ->
  exists x w0 r,
    lift (prep i) (fit_basic.sworld s) = (Ok x, w0) /\
    fit x w0 = (Ok r, fit_basic.sworld s') /\
    acc' = acc ++ r /\
    fit_basic.journal s' =
      fit_basic.journal s ++
      [fit_basic.Line (length (trace (fit_basic.sworld s))) fmt
         [(i + 1)%Z; n]].
Proof.
  intros Hrun.
  apply bind_ok_inv in Hrun as ([] & s1 & Hlog & Hrun).
  apply log_info_inv in Hlog as [Hw1 Hj1].
  apply bind_ok_inv in Hrun as (x & s2 & Hprep & Hrun).
  apply inner_inv in Hprep as [Hprep Hj2].
  apply bind_ok_inv in Hrun as (r & s3 & Hfit & Hrun).
  apply inner_inv in Hfit as [Hfit Hj3].
  injection Hrun as <- <-.
  exists x, (fit_basic.sworld s2), r. rewrite <- Hw1.
  split; [done|]. split; [done|]. split; [done|].
  by rewrite Hj3, Hj2, Hj1, Hw1.
Qed.

Lemma foldM_rounds (body : list loc -> Z -> fit_basic.W (list loc)) fmt
    (n : Z) :
  (forall acc i s acc' s',
     body acc i s = (Ok acc', s') ->
     (exists R, acc' = acc ++ [R]) /\
     exists k,
       fit_basic.journal s' =
         fit_basic.journal s ++ [fit_basic.Line k fmt [(i + 1)%Z; n]]) ->
  forall l acc s models s',
    fit_basic.foldM body l acc s = (Ok models, s') ->
    length models = (length acc + length l)%nat /\
    exists lines,
      fit_basic.journal s' = fit_basic.journal s ++ lines /\
      (fun x => (fit_basic.line_format x, fit_basic.line_args x)) <$> lines =
        (fun i => (fmt, [(i + 1)%Z; n])) <$> l.
Proof.
  intros Hbody. induction l as [|i l IH]; intros acc s models s' Hrun.
  - injection Hrun as <- <-. split; [simpl; lia|].
    exists []. by rewrite app_nil_r.
  - simpl in Hrun. apply bind_ok_inv in Hrun as (acc1 & s1 & Hb & Hrun).
    apply Hbody in Hb as [[R ->] [k Hj]].
    apply IH in Hrun as [Hlen (lines & Hj' & Hlines)].
    split.
    + rewrite Hlen, length_app. simpl. lia.
    + exists (fit_basic.Line k fmt [(i + 1)%Z; n] :: lines).
      rewrite Hj', Hj, <- app_assoc. split; [done|].
      rewrite fmap_cons, Hlines. done.
Qed.

Lemma rounds_written (s s' : fit_basic.session) fmt (n : Z) lines :
  fit_basic.journal s' = fit_basic.journal s ++ lines ->
  (fun x => (fit_basic.line_format x, fit_basic.line_args x)) <$> lines =
    (fun i => (fmt, [(i + 1)%Z; n])) <$> fit_basic.range n ->
  written s s' = round_lines fmt n.
Proof.
  intros Hj Hl. unfold written, round_lines.
  by rewrite Hj, drop_app_length.
Qed.

Lemma length_range (n : Z) : length (fit_basic.range n) = Z.to_nat n.
Proof. unfold fit_basic.range. by rewrite length_fmap, length_seq. Qed.

Lemma round_counts {X} fmt (n : Z) (prep : Z -> CM X)
    (fit : X -> M (list loc)) :
  (forall x w rs w', fit x w = (Ok rs, w') -> exists R, rs = [R]) ->
  forall acc i s acc' s',
    (fit_basic.log_info fmt [(i + 1)%Z; n] >>
     let* x := fit_basic.inner (lift (prep i)) in
     let* r := fit_basic.inner (fit x) in
     ret (acc ++ r)) s = (Ok acc', s') ->
    (exists R, acc' = acc ++ [R]) /\
    exists k,
      fit_basic.journal s' =
        fit_basic.journal s ++ [fit_basic.Line k fmt [(i + 1)%Z; n]].
Proof.
  intros Hfit acc i s acc' s' Hrun.
  apply round_inv in Hrun as (x & w0 & r & _ & Hr & -> & Hj).
  apply Hfit in Hr as [R ->]. split; [by exists R|by eexists].
Qed.

Lemma fold_counts {X} fmt (n : Z) (prep : Z -> CM X)
    (fit : X -> M (list loc)) (s s' : fit_basic.session) models :
  (forall x w rs w', fit x w = (Ok rs, w') -> exists R, rs = [R]) ->
  fit_basic.foldM
    (fun acc i =>
       fit_basic.log_info fmt [(i + 1)%Z; n] >>
       let* x := fit_basic.inner (lift (prep i)) in
       let* r := fit_basic.inner (fit x) in
       ret (acc ++ r)) (fit_basic.range n) [] s = (Ok models, s') ->
  length models = Z.to_nat n /\ written s s' = round_lines fmt n.
Proof.
  intros Hfit Hrun.
  apply (foldM_rounds _ fmt n) in Hrun as [Hlen (lines & Hj & Hl)].
  - rewrite length_range in Hlen. split; [done|]. by eapply rounds_written.
  - intros acc i s0 acc' s0'. by apply round_counts.
Qed.

Lemma getitem_inv {A} (l : list A) (i : Z) (s s' : fit_basic.session) (a : A) :
  fit_basic.getitem l i s = (Ok a, s') -> s' = s.
Proof.
  unfold fit_basic.getitem. destruct (l !! Z.to_nat i); [|done].
  intros Hc. by injection Hc as _ <-.
Qed.

(** X11: each of the four looping routines makes one fit per round and
    keeps one model per fit.  When the routine returns, the number of
    models is the number of rounds ([njacks], [nsplits] or [ntimes], none
    if that is not positive; the length of [data_list] for [fit_nfold]),
    and the routine has written one line per round, numbered from 1, and
    nothing else to its journal. *)
Theorem routines_fit_once_per_round data modelspec n s :
  (forall models s',
     fit_basic.fit_jackknifes evaluate copy_stack_data scipy_minimize
       use_all_data nmse_pred_resp jackknife_by_time data modelspec n s =
       (Ok models, s') ->
     length models = Z.to_nat n /\
     written s s' = round_lines "Fitting jackknife {}/{}" n) /\
  (forall models s',
     fit_basic.fit_subsets evaluate copy_stack_data scipy_minimize
       use_all_data nmse_pred_resp jackknife_by_time data modelspec n s =
       (Ok models, s') ->
     length models = Z.to_nat n /\
     written s s' = round_lines "Fitting subset {}/{}" n) /\
  (forall models s',
     fit_basic.fit_from_priors evaluate copy_stack_data scipy_minimize
       use_all_data nmse_pred_resp set_random_phi data modelspec n s =
       (Ok models, s') ->
     length models = Z.to_nat n /\
     written s s' = round_lines "Fitting from random start: {}/{}" n) /\
  (forall data_list modelspecs generate_psth fitter metric fit_kwargs models
          s',
     fit_basic.fit_nfold evaluate copy_stack_data scipy_minimize
       use_all_data nmse_pred_resp prefit_to_target data_list modelspecs
       generate_psth fitter metric fit_kwargs s = (Ok models, s') ->
     length models = length data_list /\
     written s s' =
       round_lines "Fitting fold {}/{}" (Z.of_nat (length data_list))).
Proof.
  split; [|split; [|split]].
  - intros models s' Hrun. unfold fit_basic.fit_jackknifes in Hrun.
    eapply (fold_counts _ n
              (fun i => jackknife_by_time data n i false false)); [|exact Hrun].
    intros x w rs w' Hfit. apply fit_basic_single in Hfit as [R [-> _]].
    by exists R.
  - intros models s' Hrun. unfold fit_basic.fit_subsets in Hrun.
    eapply (fold_counts _ n
              (fun i => jackknife_by_time data n i true true)); [|exact Hrun].
    intros x w rs w' Hfit. apply fit_basic_single in Hfit as [R [-> _]].
    by exists R.
  - intros models s' Hrun. unfold fit_basic.fit_from_priors in Hrun.
    eapply (fold_counts _ n (fun _ => set_random_phi modelspec));
      [|exact Hrun].
    intros x w rs w' Hfit. apply fit_basic_single in Hfit as [R [-> _]].
    by exists R.
  - intros data_list modelspecs generate_psth fitter metric fit_kwargs
      models s' Hrun.
    unfold fit_basic.fit_nfold in Hrun.
    apply (foldM_rounds _ "Fitting fold {}/{}"
             (Z.of_nat (length data_list))) in Hrun
      as [Hlen (lines & Hj & Hl)].
    + rewrite length_range, Nat2Z.id in Hlen. split; [done|].
      by eapply rounds_written.
    + intros acc i s0 acc' s0' Hb.
      apply bind_ok_inv in Hb as ([] & s1 & Hlog & Hb).
      apply log_info_inv in Hlog as [_ Hj1].
      apply bind_ok_inv in Hb as (d & s2 & Hd & Hb).
      apply getitem_inv in Hd as ->.
      apply bind_ok_inv in Hb as (m0 & s2 & Hm & Hb).
      apply getitem_inv in Hm as ->.
      apply bind_ok_inv in Hb as (c & s2 & Hc & Hb).
      apply inner_inv in Hc as [_ Hj2].
      apply bind_ok_inv in Hb as (tms & s3 & Ht & Hb).
      apply inner_inv in Ht as [_ Hj3].
      apply bind_ok_inv in Hb as (d' & s4 & Hd' & Hb).
      apply getitem_inv in Hd' as ->.
      apply bind_ok_inv in Hb as (r & s4 & Hfit & Hb).
      apply inner_inv in Hfit as [Hfit Hj4].
      injection Hb as <- <-.
      apply fit_basic_single in Hfit as [R [-> _]].
      split; [by exists R|]. eexists. by rewrite Hj4, Hj3, Hj2, Hj1.
Qed.

(** X12: [fit_nfold] takes a list of specifications and uses the first
    only.  Every fold starts from [modelspecs[0]], whatever follows it in
    the list, and [generate_psth] is not used; without data there is
    nothing to do, and the list of specifications is not even looked at;
    with data and an empty list of specifications the first fold raises
    [IndexError] after its line is written, before anything is fitted. *)
Theorem fit_nfold_uses_first_modelspec d data_list m0 rest modelspecs
    generate_psth fitter metric fit_kwargs s :
  let fit_nfold :=
    fit_basic.fit_nfold evaluate copy_stack_data scipy_minimize use_all_data
      nmse_pred_resp prefit_to_target in
  fit_nfold data_list (m0 :: rest) generate_psth fitter metric fit_kwargs s =
    fit_nfold data_list [m0] (negb generate_psth) fitter metric fit_kwargs
      s /\
  fit_nfold [] modelspecs generate_psth fitter metric fit_kwargs s =
    (Ok [], s) /\
  fit_nfold (d :: data_list) [] generate_psth fitter metric fit_kwargs s =
    (Raise IndexError,
     fit_basic.Session (fit_basic.sworld s)
       (fit_basic.journal s ++
        [fit_basic.Line (length (trace (fit_basic.sworld s)))
           "Fitting fold {}/{}" [1%Z; Z.of_nat (S (length data_list))]])).
Proof.
  split; [reflexivity|]. split; [reflexivity|].
  unfold fit_basic.fit_nfold, fit_basic.range.
  rewrite Nat2Z.id. cbn [length seq fmap list_fmap fit_basic.foldM].
  reflexivity.
Qed.

Lemma foldM_last (body : list loc -> Z -> fit_basic.W (list loc)) name :
  (forall acc i s acc' s',
     body acc i s = (Ok acc', s') ->
     exists R,
       acc' = acc ++ [R] /\
       fitted_model (heap (wenv (fit_basic.sworld s'))) name R) ->
  forall l acc s models s',
    l <> [] ->
    fit_basic.foldM body l acc s = (Ok models, s') ->
    exists R,
      last models = Some R /\
      fitted_model (heap (wenv (fit_basic.sworld s'))) name R.
Proof.
  intros Hbody. induction l as [|i l IH]; intros acc s models s' Hne Hrun;
    [done|].
  simpl in Hrun. apply bind_ok_inv in Hrun as (acc1 & s1 & Hb & Hrun).
  destruct l as [|i' l].
  - injection Hrun as <- <-. apply Hbody in Hb as (R & -> & HR).
    exists R. by rewrite last_snoc.
  - by eapply IH.
Qed.

Lemma range_nonempty (n : Z) : (0 < n)%Z -> fit_basic.range n <> [].
Proof.
  intros Hn Hr. apply (f_equal length) in Hr. rewrite length_range in Hr.
  simpl in Hr. lia.
Qed.

(** X14: the routines hand their own name to [fit_basic], and the model of
    the last fit carries it when the routine returns: 'fit_random_subsets'
    on the single model of [fit_random_subsets], 'fit_from_priors' and
    'fit_nfold' on the last model of [fit_from_priors] and [fit_nfold],
    which is a specification out of fitting mode. *)
Theorem routines_tag_last_model data modelspec :
  (forall nsplits rebuild_every w rs w',
     fit_basic.fit_random_subsets evaluate copy_stack_data scipy_minimize
       nmse_pred_resp random_jackknife_maker data modelspec nsplits
       rebuild_every w = (Ok rs, w') ->
     exists R,
       rs = [R] /\ fitted_model (heap (wenv w')) "fit_random_subsets" R) /\
  (forall n s models s',
     fit_basic.fit_from_priors evaluate copy_stack_data scipy_minimize
       use_all_data nmse_pred_resp set_random_phi data modelspec n s =
       (Ok models, s') ->
     (0 < n)%Z ->
     exists R,
       last models = Some R /\
       fitted_model (heap (wenv (fit_basic.sworld s'))) "fit_from_priors"
         R) /\
  (forall data_list modelspecs generate_psth fitter metric fit_kwargs s
          models s',
     fit_basic.fit_nfold evaluate copy_stack_data scipy_minimize
       use_all_data nmse_pred_resp prefit_to_target data_list modelspecs
       generate_psth fitter metric fit_kwargs s = (Ok models, s') ->
     data_list <> [] ->
     exists R,
       last models = Some R /\
       fitted_model (heap (wenv (fit_basic.sworld s'))) "fit_nfold" R).
Proof.
  split; [|split].
  - intros nsplits rebuild_every w rs w' Hrun.
    unfold fit_basic.fit_random_subsets in Hrun.
    apply bind_ok_inv in Hrun as (seg & w1 & _ & Hfit).
    by apply fit_basic_single in Hfit.
  - intros n s models s' Hrun Hn. unfold fit_basic.fit_from_priors in Hrun.
    eapply foldM_last; [|by apply range_nonempty|exact Hrun].
    intros acc i s0 acc' s0' Hb.
    apply (round_inv _ n (fun _ => set_random_phi modelspec)
             (fun ms =>
                fit_basic.fit_basic evaluate copy_stack_data data ms
                  (scipy_minimize fit_basic.NoKwargs) None use_all_data
                  simple_vector nmse_pred_resp "fit_from_priors" true))
      in Hb as (x & w0 & r & _ & Hfit & -> & _).
    apply fit_basic_single in Hfit as (R & -> & HR). by exists R.
  - intros data_list modelspecs generate_psth fitter metric fit_kwargs s
      models s' Hrun Hne.
    unfold fit_basic.fit_nfold in Hrun.
    eapply foldM_last; [| |exact Hrun].
    + intros acc i s0 acc' s0' Hb.
      apply bind_ok_inv in Hb as ([] & s1 & _ & Hb).
      apply bind_ok_inv in Hb as (d & s2 & _ & Hb).
      apply bind_ok_inv in Hb as (m0 & s3 & _ & Hb).
      apply bind_ok_inv in Hb as (c & s4 & _ & Hb).
      apply bind_ok_inv in Hb as (tms & s5 & _ & Hb).
      apply bind_ok_inv in Hb as (d' & s6 & _ & Hb).
      apply bind_ok_inv in Hb as (r & s7 & Hfit & Hb).
      apply inner_inv in Hfit as [Hfit _].
      injection Hb as <- <-.
      apply fit_basic_single in Hfit as (R & -> & HR). by exists R.
    + apply range_nonempty. destruct data_list; [done|]. simpl. lia.
Qed.

Lemma fit_basic_keeps_cf data modelspec fitter segmentor mapper metric
    metaname require_phi w :
  cf_attrs
    (snd (fit_basic.fit_basic evaluate copy_stack_data data modelspec fitter
            None segmentor mapper metric metaname require_phi w)) =
  cf_attrs w.
Proof.
  apply (fit_basic_keeps_other evaluate copy_stack_data data modelspec
           fitter None segmentor mapper metric metaname require_phi w).
Qed.

Lemma keeps_cf_bind {A B} (c : fit_basic.W A) (k : A -> fit_basic.W B) :
  (forall s, cf_attrs (fit_basic.sworld (snd (c s))) =
             cf_attrs (fit_basic.sworld s)) ->
  (forall a s, cf_attrs (fit_basic.sworld (snd (k a s))) =
               cf_attrs (fit_basic.sworld s)) ->
  forall s, cf_attrs (fit_basic.sworld (snd (bind c k s))) =
            cf_attrs (fit_basic.sworld s).
Proof.
  intros Hc Hk s. unfold bind. specialize (Hc s).
  destruct (c s) as [[a|ex] s1]; [|done]. by rewrite Hk.
Qed.

Lemma keeps_cf_inner {A} (c : M A) :
  (forall w, cf_attrs (snd (c w)) = cf_attrs w) ->
  forall s, cf_attrs (fit_basic.sworld (snd (fit_basic.inner c s))) =
            cf_attrs (fit_basic.sworld s).
Proof.
  intros Hc s. unfold fit_basic.inner. specialize (Hc (fit_basic.sworld s)).
  by destruct (c (fit_basic.sworld s)).
Qed.

Lemma keeps_cf_lift {A} (f : CM A) (w : world) :
  cf_attrs (snd (lift f w)) = cf_attrs w.
Proof. unfold lift. by destruct (f (wenv w)). Qed.

Lemma keeps_cf_foldM {A} (body : list loc -> A -> fit_basic.W (list loc)) :
  (forall acc i s, cf_attrs (fit_basic.sworld (snd (body acc i s))) =
                   cf_attrs (fit_basic.sworld s)) ->
  forall l acc s,
    cf_attrs (fit_basic.sworld (snd (fit_basic.foldM body l acc s))) =
    cf_attrs (fit_basic.sworld s).
Proof.
  intros Hb. induction l as [|i l IH]; intros acc s; [done|].
  simpl. apply keeps_cf_bind; [apply Hb|]. intros a s0. apply IH.
Qed.

Lemma keeps_cf_round {X} fmt (n : Z) (prep : Z -> CM X)
    (fit : X -> M (list loc)) :
  (forall x w, cf_attrs (snd (fit x w)) = cf_attrs w) ->
  forall acc i s,
    cf_attrs
      (fit_basic.sworld
         (snd ((fit_basic.log_info fmt [(i + 1)%Z; n] >>
                let* x := fit_basic.inner (lift (prep i)) in
                let* r := fit_basic.inner (fit x) in
                ret (acc ++ r)) s))) =
    cf_attrs (fit_basic.sworld s).
Proof.
  intros Hfit acc i. apply keeps_cf_bind; [done|]. intros _.
  apply keeps_cf_bind; [apply keeps_cf_inner, keeps_cf_lift|]. intros x.
  apply keeps_cf_bind; [apply keeps_cf_inner, Hfit|]. done.
Qed.

(** X15: the caching cost function is out of reach of the routines.
    [fit_jackknifes], [fit_subsets], [fit_from_priors] and
    [fit_random_subsets] call [fit_basic] without a cost function, so every
    fit runs [basic_cost] of fit_basic.py: whatever the outcome, counter,
    last error and cache of [cost_functions.basic_cost] are those found on
    entry. *)
Theorem routines_leave_caching_cost_function data modelspec n rebuild_every
    s :
  cf_attrs
    (fit_basic.sworld
       (snd (fit_basic.fit_jackknifes evaluate copy_stack_data scipy_minimize
               use_all_data nmse_pred_resp jackknife_by_time data modelspec
               n s))) = cf_attrs (fit_basic.sworld s) /\
  cf_attrs
    (fit_basic.sworld
       (snd (fit_basic.fit_subsets evaluate copy_stack_data scipy_minimize
               use_all_data nmse_pred_resp jackknife_by_time data modelspec
               n s))) = cf_attrs (fit_basic.sworld s) /\
  cf_attrs
    (fit_basic.sworld
       (snd (fit_basic.fit_from_priors evaluate copy_stack_data
               scipy_minimize use_all_data nmse_pred_resp set_random_phi
               data modelspec n s))) = cf_attrs (fit_basic.sworld s) /\
  cf_attrs
    (snd (fit_basic.fit_random_subsets evaluate copy_stack_data
            scipy_minimize nmse_pred_resp random_jackknife_maker data
            modelspec n rebuild_every (fit_basic.sworld s))) =
    cf_attrs (fit_basic.sworld s).
Proof.
  split; [|split; [|split]].
  - apply keeps_cf_foldM. intros acc i.
    apply (keeps_cf_round _ n
             (fun i => jackknife_by_time data n i false false)).
    intros x w. apply fit_basic_keeps_cf.
  - apply keeps_cf_foldM. intros acc i.
    apply (keeps_cf_round _ n
             (fun i => jackknife_by_time data n i true true)).
    intros x w. apply fit_basic_keeps_cf.
  - apply keeps_cf_foldM. intros acc i.
    apply (keeps_cf_round _ n (fun _ => set_random_phi modelspec)).
    intros x w. apply fit_basic_keeps_cf.
  - unfold fit_basic.fit_random_subsets, bind.
    pose proof (keeps_cf_lift (random_jackknife_maker n rebuild_every true
                                 true) (fit_basic.sworld s)) as Hl.
    destruct (lift (random_jackknife_maker n rebuild_every true true)
                (fit_basic.sworld s)) as [[seg|ex] w1]; [|done].
    simpl in Hl. rewrite <- Hl. apply fit_basic_keeps_cf.
Qed.

End RoutineFacts.

(** ** Rounds over one specification: the models stay apart *)

Section Rounds.
Context `{Domain}.

Variable evaluate : Data -> loc -> option Z -> bool -> CM Data.
Variable copy_stack_data : Data -> Stack -> Z -> loc -> CM Data.
Variable scipy_minimize : fit_basic.kwargs -> list num -> fitter_run.
Variable use_all_data : Data -> CM Data.
Variable nmse_pred_resp : Data -> CM Score.
Variable jackknife_by_time : Data -> Z -> Z -> bool -> bool -> CM Data.

Lemma lift_reads_only {A} (f : CM A) (w w' : world) (r : result A) :
  reads_only f -> lift f w = (r, w') -> heap (wenv w') = heap (wenv w).
Proof.
  intros Hf Hl. apply lift_inv in Hl as [Hl _].
  specialize (Hf (wenv w)). by rewrite Hl in Hf.
Qed.

Lemma model_objects_list (h : gmap loc obj) R its :
  h !! R = Some (OList its) -> model_objects h R = R :: its.
Proof. unfold model_objects. by intros ->. Qed.

Lemma spec_in_frame (h h' : gmap loc obj) (P : loc -> Prop) R its rms :
  (forall l o, h !! l = Some o -> P l -> h' !! l = Some o) ->
  spec_in h R its rms -> Forall P (R :: its) -> spec_in h' R its rms.
Proof.
  intros Hf [HR Hd] HP. apply Forall_cons in HP as [HPR HP].
  split; [by apply Hf|]. clear HR HPR.
  induction Hd as [|l m its rms Hl _ IH]; [constructor|].
  apply Forall_cons in HP as [HPl HP].
  constructor; [by apply Hf|by apply IH].
Qed.

Lemma spec_in_dom (h : gmap loc obj) R its rms l :
  spec_in h R its rms -> l ∈ R :: its -> is_Some (h !! l).
Proof.
  intros [HR Hd] Hin. apply elem_of_cons in Hin as [->|Hin]; [by eexists|].
  apply list_elem_of_lookup_1 in Hin as [i Hi].
  destruct (Forall2_lookup_l _ _ _ _ _ Hd Hi) as (m & _ & Hm). by eexists.
Qed.

Section OneSpec.

Variable fmt : string.
Variable n : Z.
Variable prep : Z -> CM Data.
Variable name : string.
Variable L : loc.
Variable h0 : gmap loc obj.

Hypothesis use_all_data_reads : forall d, reads_only (use_all_data d).
Hypothesis nmse_reads : forall d, reads_only (nmse_pred_resp d).
Hypothesis evaluate_reads : forall d l s k, reads_only (evaluate d l s k).
Hypothesis prep_reads : forall i, reads_only (prep i).

(** What a round leaves: the specification with phi everywhere, the models
    kept so far untouched, and one more model apart from them. *)
Lemma round_step acc i (s s' : fit_basic.session) acc' items ms :
  spec_in (heap (wenv (fit_basic.sworld s))) L items ms ->
  (acc <> [] -> Forall (fun m => is_Some (phi m)) ms) ->
  dom h0 ⊆ dom (heap (wenv (fit_basic.sworld s))) ->
  Forall (round_model h0 (heap (wenv (fit_basic.sworld s))) name L items)
    acc ->
  apart (heap (wenv (fit_basic.sworld s))) acc ->
  (fit_basic.log_info fmt [(i + 1)%Z; n] >>
   let* x := fit_basic.inner (lift (prep i)) in
   let* r :=
     fit_basic.inner
       (fit_basic.fit_basic evaluate copy_stack_data x L
          (scipy_minimize fit_basic.NoKwargs) None use_all_data simple_vector
          nmse_pred_resp name true) in
   ret (acc ++ r)) s = (Ok acc', s') ->
  exists items' ms',
    spec_in (heap (wenv (fit_basic.sworld s'))) L items' ms' /\
    Forall (fun m => is_Some (phi m)) ms' /\
    dom h0 ⊆ dom (heap (wenv (fit_basic.sworld s'))) /\
    Forall (round_model h0 (heap (wenv (fit_basic.sworld s'))) name L items')
      acc' /\
    apart (heap (wenv (fit_basic.sworld s'))) acc'.
Proof.
  set (h := heap (wenv (fit_basic.sworld s))).
  set (h' := heap (wenv (fit_basic.sworld s'))).
  intros Hspec Hphi Hdom Hacc Hapart Hrun.
  apply round_inv in Hrun as (d & w0 & r & Hprep & Hfit & -> & _).
  apply lift_reads_only in Hprep; [|apply prep_reads]. fold h in Hprep.
  assert (exists items1 ms1 R its' rms,
            spec_in h' L items1 (with_fit_mode true <$> ms1) /\
            Forall (fun m => is_Some (phi m)) ms1 /\
            (acc <> [] -> items1 = items) /\
            r = [R] /\
            spec_in h' R its' rms /\
            Forall (fun l => l <> L /\ (l ∉ items1) /\ h !! l = None)
              (R :: its') /\
            get_modelspec_metadata rms "fitter" = Some (MStr name) /\
            Forall (fun m => fit_mode m = false) rms /\
            (forall l o,
               h !! l = Some o -> l <> L /\ (l ∉ items1) ->
               h' !! l = Some o))
    as (items1 & ms1 & R & its' & rms & Hspec1 & Hphi1 & Hsame & -> & HspecR
        & Hnew & Hmeta & Hoff & Hframe).
  { rewrite <- Hprep in Hspec. destruct (decide (acc = [])) as [He|Hne].
    - destruct (fit_basic_run evaluate copy_stack_data _ _ _ _ _ _ _ _ _ _
                  _ _ _ use_all_data_reads nmse_reads evaluate_reads Hspec
                  Hfit)
        as (items1 & ms1 & R & its' & rms & Hspec1 & Hdef & Hr & HspecR
            & HR & Hits & Hmeta & Hoff & Hframe).
      exists items1, ms1, R, its', rms. rewrite Hprep in *.
      split; [done|]. split; [by apply (defaulted_has_phi ms)|].
      split; [done|]. split; [done|]. split; [done|].
      split; [by constructor|]. split; [done|]. split; [done|].
      intros l o Hl [? ?]. by apply Hframe.
    - erewrite fit_basic_idle in Hfit; [|exact Hspec|by apply Hphi].
      destruct (fit_basic_run evaluate copy_stack_data _ _ _ _ _ _ _ _ _ _
                  _ _ _ use_all_data_reads nmse_reads evaluate_reads Hspec
                  Hfit)
        as (items1 & ms1 & R & its' & rms & Hspec1 & [-> ->] & Hr & HspecR
            & HR & Hits & Hmeta & Hoff & Hframe).
      exists items, ms, R, its', rms. rewrite Hprep in *.
      split; [done|]. split; [by apply Hphi|].
      split; [done|]. split; [done|]. split; [done|].
      split; [by constructor|]. split; [done|]. split; [done|].
      intros l o Hl [? ?]. by apply Hframe. }
  assert (forall R0, R0 ∈ acc ->
            exists its rms0,
              spec_in h R0 its rms0 /\ spec_in h' R0 its rms0 /\
              get_modelspec_metadata rms0 "fitter" = Some (MStr name) /\
              Forall (fun m => fit_mode m = false) rms0 /\
              Forall (fun l => l <> L /\ (l ∉ items1) /\ h0 !! l = None)
                (R0 :: its)) as Hold.
  { intros R0 Hin. rewrite Forall_forall in Hacc.
    destruct (Hacc R0 Hin) as (its & rms0 & HS & Hm & Ho & Hfar).
    assert (items1 = items) as -> by (apply Hsame; by intros ->; inversion Hin).
    exists its, rms0. split; [done|]. split; [|done].
    eapply (spec_in_frame h h' (fun l => l <> L /\ (l ∉ items)));
      [exact Hframe|exact HS|].
    eapply Forall_impl; [exact Hfar|]. by intros l (? & ? & ?). }
  exists items1, (with_fit_mode true <$> ms1).
  split; [done|]. split; [by apply fit_mode_keeps_phi|]. split; [|split].
  - intros l Hl. apply Hdom in Hl. apply elem_of_dom in Hl as [o Ho].
    apply elem_of_dom.
    destruct (decide (l ∈ L :: items1)) as [Hin|Hout].
    + exact (spec_in_dom h' L items1 _ l Hspec1 Hin).
    + exists o. apply Hframe; [done|]. split.
      * intros ->. apply Hout. by left.
      * intros Hin. apply Hout. by right.
  - apply Forall_app. split.
    + apply Forall_forall. intros R0 Hin.
      destruct (Hold R0 Hin) as (its & rms0 & _ & HS & Hm & Ho & Hfar).
      by exists its, rms0.
    + constructor; [|done]. exists its', rms.
      split; [done|]. split; [done|]. split; [done|].
      eapply Forall_impl; [exact Hnew|].
      intros l (? & ? & Hl). split; [done|]. split; [done|].
      apply not_elem_of_dom. intros Hin. apply Hdom in Hin.
      by apply not_elem_of_dom in Hl.
  - intros i0 j R1 R2 Hlt H1 H2 x Hx1 Hx2.
    assert (i0 < length acc)%nat as Hi.
    { apply lookup_lt_Some in H2. rewrite length_app in H2. simpl in H2.
      lia. }
    rewrite lookup_app_l in H1 by done.
    destruct (Hold R1 (list_elem_of_lookup_2 _ _ _ H1))
      as (its1 & rms1 & HS1 & HS1' & _).
    rewrite (model_objects_list h' R1 its1) in Hx1 by apply HS1'.
    destruct (decide (j < length acc)%nat) as [Hj|Hj].
    + rewrite lookup_app_l in H2 by done.
      destruct (Hold R2 (list_elem_of_lookup_2 _ _ _ H2))
        as (its2 & rms2 & HS2 & HS2' & _).
      rewrite (model_objects_list h' R2 its2) in Hx2 by apply HS2'.
      apply (Hapart i0 j R1 R2 Hlt H1 H2 x).
      * by rewrite (model_objects_list h R1 its1) by apply HS1.
      * by rewrite (model_objects_list h R2 its2) by apply HS2.
    + rewrite lookup_app_r in H2 by lia.
      apply lookup_lt_Some in H2 as Hj'. simpl in Hj'.
      replace (j - length acc)%nat with 0%nat in H2 by lia.
      injection H2 as <-.
      rewrite (model_objects_list h' R its') in Hx2 by apply HspecR.
      destruct (spec_in_dom h R1 its1 rms1 x HS1 Hx1) as [o Ho].
      rewrite Forall_forall in Hnew.
      destruct (Hnew x Hx2) as (_ & _ & Hnone). congruence.
Qed.

Lemma rounds_keep (l : list Z) :
  forall acc (s s' : fit_basic.session) models items ms,
    spec_in (heap (wenv (fit_basic.sworld s))) L items ms ->
    (acc <> [] -> Forall (fun m => is_Some (phi m)) ms) ->
    dom h0 ⊆ dom (heap (wenv (fit_basic.sworld s))) ->
    Forall (round_model h0 (heap (wenv (fit_basic.sworld s))) name L items)
      acc ->
    apart (heap (wenv (fit_basic.sworld s))) acc ->
    fit_basic.foldM
      (fun models i =>
         fit_basic.log_info fmt [(i + 1)%Z; n] >>
         let* x := fit_basic.inner (lift (prep i)) in
         let* r :=
           fit_basic.inner
             (fit_basic.fit_basic evaluate copy_stack_data x L
                (scipy_minimize fit_basic.NoKwargs) None use_all_data
                simple_vector nmse_pred_resp name true) in
         ret (models ++ r)) l acc s = (Ok models, s') ->
    exists items',
      Forall
        (round_model h0 (heap (wenv (fit_basic.sworld s'))) name L items')
        models /\
      apart (heap (wenv (fit_basic.sworld s'))) models.
Proof.
  induction l as [|i l IH];
    intros acc s s' models items ms Hspec Hphi Hdom Hacc Hapart Hrun.
  - injection Hrun as <- <-. by exists items.
  - simpl in Hrun. apply bind_ok_inv in Hrun as (acc1 & s1 & Hb & Hrun).
    destruct (round_step _ _ _ _ _ _ _ Hspec Hphi Hdom Hacc Hapart Hb)
      as (items1 & ms1 & Hspec1 & Hphi1 & Hdom1 & Hacc1 & Hapart1).
    by eapply (IH acc1 s1 s' models items1 ms1).
Qed.

End OneSpec.

Lemma rounds_models fmt (n : Z) (prep : Z -> CM Data) name L
    (s s' : fit_basic.session) items ms models :
  (forall d, reads_only (use_all_data d)) ->
  (forall d, reads_only (nmse_pred_resp d)) ->
  (forall d l s k, reads_only (evaluate d l s k)) ->
  (forall i, reads_only (prep i)) ->
  spec_in (heap (wenv (fit_basic.sworld s))) L items ms ->
  fit_basic.foldM
    (fun models i =>
       fit_basic.log_info fmt [(i + 1)%Z; n] >>
       let* x := fit_basic.inner (lift (prep i)) in
       let* r :=
         fit_basic.inner
           (fit_basic.fit_basic evaluate copy_stack_data x L
              (scipy_minimize fit_basic.NoKwargs) None use_all_data
              simple_vector nmse_pred_resp name true) in
       ret (models ++ r)) (fit_basic.range n) [] s = (Ok models, s') ->
  Forall (fitted_model (heap (wenv (fit_basic.sworld s'))) name) models /\
  Forall (fun R =>
            Forall (fun l => heap (wenv (fit_basic.sworld s)) !! l = None)
              (model_objects (heap (wenv (fit_basic.sworld s'))) R))
    models /\
  separate_models (heap (wenv (fit_basic.sworld s'))) models.
Proof.
  intros Hseg Hmet Heval Hprep Hspec Hrun.
  destruct (rounds_keep fmt n prep name L
              (heap (wenv (fit_basic.sworld s))) Hseg Hmet Heval Hprep
              (fit_basic.range n) [] s s' models items ms Hspec)
    as (items' & Hmodels & Hapart).
  { done. }
  { reflexivity. }
  { constructor. }
  { intros i j R R' _ Hi. by rewrite lookup_nil in Hi. }
  { exact Hrun. }
  split; [|split].
  - eapply Forall_impl; [exact Hmodels|].
    intros R (its & rms & HS & Hm & Ho & _). by exists its, rms.
  - eapply Forall_impl; [exact Hmodels|].
    intros R (its & rms & HS & _ & _ & Hfar).
    rewrite (model_objects_list _ R its) by apply HS.
    eapply Forall_impl; [exact Hfar|]. by intros l (_ & _ & ?).
  - intros i j R R' Hne Hi Hj x Hx Hx'.
    destruct (decide (i < j)%nat) as [Hlt|Hge].
    + exact (Hapart i j R R' Hlt Hi Hj x Hx Hx').
    + assert (j < i)%nat as Hlt by lia.
      exact (Hapart j i R' R Hlt Hj Hi x Hx' Hx).
Qed.

(** X13: [fit_jackknifes] and [fit_subsets] fit the same specification
    object in every round, and still return models that stay apart.  With
    collaborators that leave the store alone, when the routine returns
    every model is a specification out of fitting mode tagged with the
    name of the routine ('fit_jackknifes', 'fit_subset'), none of its
    objects existed when the routine began, and no object belongs to two
    models: the rounds that follow change none of the models already
    kept. *)
Theorem jackknife_models_stay_apart data modelspec n s items ms :
  (forall d, reads_only (use_all_data d)) ->
  (forall d, reads_only (nmse_pred_resp d)) ->
  (forall d l s k, reads_only (evaluate d l s k)) ->
  (forall d k i invert excise,
     reads_only (jackknife_by_time d k i invert excise)) ->
  spec_in (heap (wenv (fit_basic.sworld s))) modelspec items ms ->
  (forall models s',
     fit_basic.fit_jackknifes evaluate copy_stack_data scipy_minimize
       use_all_data nmse_pred_resp jackknife_by_time data modelspec n s =
       (Ok models, s') ->
     Forall (fitted_model (heap (wenv (fit_basic.sworld s')))
               "fit_jackknifes") models /\
     Forall (fun R =>
               Forall (fun l => heap (wenv (fit_basic.sworld s)) !! l = None)
                 (model_objects (heap (wenv (fit_basic.sworld s'))) R))
       models /\
     separate_models (heap (wenv (fit_basic.sworld s'))) models) /\
  (forall models s',
     fit_basic.fit_subsets evaluate copy_stack_data scipy_minimize
       use_all_data nmse_pred_resp jackknife_by_time data modelspec n s =
       (Ok models, s') ->
     Forall (fitted_model (heap (wenv (fit_basic.sworld s'))) "fit_subset")
       models /\
     Forall (fun R =>
               Forall (fun l => heap (wenv (fit_basic.sworld s)) !! l = None)
                 (model_objects (heap (wenv (fit_basic.sworld s'))) R))
       models /\
     separate_models (heap (wenv (fit_basic.sworld s'))) models).
Proof.
  intros Hseg Hmet Heval Hjk Hspec. split; intros models s' Hrun.
  - unfold fit_basic.fit_jackknifes in Hrun.
    eapply (rounds_models _ n
              (fun i => jackknife_by_time data n i false false));
      [done|done|done| |exact Hspec|exact Hrun].
    intros i. apply Hjk.
  - unfold fit_basic.fit_subsets in Hrun.
    eapply (rounds_models _ n
              (fun i => jackknife_by_time data n i true true));
      [done|done|done| |exact Hspec|exact Hrun].
    intros i. apply Hjk.
Qed.

End Rounds.

(** ** The routines on the concrete instance *)

Section ExampleRounds.
Import Example ExampleRoutines.

Lemma three_jackknifes :
  fit_jackknifes None 1%positive 3 (session_of w_fit) =
  (Ok [16%positive; 28%positive; 40%positive],
   snd (fit_jackknifes None 1%positive 3 (session_of w_fit))).
Proof. vm_compute. reflexivity. Qed.

Lemma routines_fit_once_per_round_witness :
  length [16%positive; 28%positive; 40%positive] = Z.to_nat 3 /\
  written (session_of w_fit)
    (snd (fit_jackknifes None 1%positive 3 (session_of w_fit))) =
    round_lines "Fitting jackknife {}/{}" 3.
Proof.
  destruct (routines_fit_once_per_round evaluate copy_stack_data
              scipy_minimize segmentor metric jackknife_by_time
              set_random_phi prefit_to_target None 1%positive 3
              (session_of w_fit)) as [Hjack _].
  exact (Hjack _ _ three_jackknifes).
Defined.

Lemma jackknife_models_stay_apart_witness :
  Forall
    (fitted_model
       (heap (wenv (fit_basic.sworld
                      (snd (fit_jackknifes None 1%positive 3
                              (session_of w_fit))))))
       "fit_jackknifes")
    [16%positive; 28%positive; 40%positive] /\
  Forall
    (fun R =>
       Forall
         (fun l =>
            heap (wenv (fit_basic.sworld (session_of w_fit))) !! l = None)
         (model_objects
            (heap (wenv (fit_basic.sworld
                           (snd (fit_jackknifes None 1%positive 3
                                   (session_of w_fit)))))) R))
    [16%positive; 28%positive; 40%positive] /\
  separate_models
    (heap (wenv (fit_basic.sworld
                   (snd (fit_jackknifes None 1%positive 3
                           (session_of w_fit))))))
    [16%positive; 28%positive; 40%positive].
Proof.
  destruct example_reads_only as (Hseg & Hmet & Heval).
  assert (forall d k i invert excise,
            reads_only (jackknife_by_time d k i invert excise)) as Hjk
    by (intros d k i invert excise e; reflexivity).
  destruct (jackknife_models_stay_apart evaluate copy_stack_data
              scipy_minimize segmentor metric jackknife_by_time None
              1%positive 3 (session_of w_fit) [2%positive; 3%positive]
              [m_fir; m_lvl] Hseg Hmet Heval Hjk (example_spec_in m_lvl))
    as [Hjack _].
  exact (Hjack _ _ three_jackknifes).
Defined.

Lemma routines_tag_last_model_witness :
  exists R,
    last [19%positive; 37%positive] = Some R /\
    fitted_model
      (heap (wenv (fit_basic.sworld
                     (snd (fit_from_priors None 1%positive 2
                             (session_of w_fit))))))
      "fit_from_priors" R.
Proof.
  assert (fit_from_priors None 1%positive 2 (session_of w_fit) =
          (Ok [19%positive; 37%positive],
           snd (fit_from_priors None 1%positive 2 (session_of w_fit))))
    as Hrun by (vm_compute; reflexivity).
  destruct (routines_tag_last_model evaluate copy_stack_data scipy_minimize
              segmentor metric random_jackknife_maker set_random_phi
              prefit_to_target None 1%positive) as (_ & Hpri & _).
  apply (Hpri 2%Z _ _ _ Hrun). reflexivity.
Defined.

End ExampleRounds.
